(** * A shallow embedding of the diagonal-sudoku solver [solution.py]

    The Python module is translated definition by definition.  Python
    strings are [string]; a [dict] is an association list in insertion
    order (the order in which [items()] iterates); the functions that
    mutate the [values] dictionary in place are written in a
    state-and-exception monad over that dictionary, with [for] loops that
    can [return] from inside.  The two unbounded constructs, the [while]
    loop of [reduce_puzzle] and the recursion of [search], take a bound
    and answer [None] when it is reached; the properties show that the
    bounds used are never reached on candidate maps.

    The first part holds the embedding, the second the notions the
    statements use, the third the properties. *)

From Stdlib Require Import Bool Arith List Lia Ascii String Permutation.
Import ListNotations.
Open Scope string_scope.
Open Scope list_scope.
Open Scope nat_scope.

Set Implicit Arguments.

(** ** Python strings *)

Module Str.

(** [len(s)] *)
Definition len (s : string) : nat := String.length s.

(** The one-character string [c]. *)
Definition chr (c : ascii) : string := String c EmptyString.

(** The characters of [s] as Python iterates them: one-character strings. *)
Fixpoint chars (s : string) : list string :=
  match s with
  | EmptyString => []
  | String c s' => chr c :: chars s'
  end.

(** Whether the character [c] occurs in [s]. *)
Fixpoint has_char (c : ascii) (s : string) : bool :=
  match s with
  | EmptyString => false
  | String a s' => Ascii.eqb a c || has_char c s'
  end.

(** [x in s] for strings: [x] occurs in [s] as a substring. *)
Fixpoint substring_of (x s : string) : bool :=
  String.prefix x s ||
  match s with
  | EmptyString => false
  | String _ s' => substring_of x s'
  end.

(** [s.replace(old, '')]: scan left to right, dropping every
    non-overlapping occurrence of [old]; [skip] counts the characters of
    an occurrence still to be dropped. *)
Fixpoint replace_go (old : string) (skip : nat) (s : string) : string :=
  match s with
  | EmptyString => EmptyString
  | String a s' =>
      match skip with
      | S k => replace_go old k s'
      | O =>
          if (negb (String.eqb old EmptyString) && String.prefix old s)%bool
          then replace_go old (String.length old - 1) s'
          else String a (replace_go old 0 s')
      end
  end.

Definition replace_empty (s old : string) : string := replace_go old 0 s.

(** [s.replace(c, '')] for a single character, as a filter. *)
Fixpoint remove_char (c : ascii) (s : string) : string :=
  match s with
  | EmptyString => EmptyString
  | String a s' =>
      if Ascii.eqb a c then remove_char c s' else String a (remove_char c s')
  end.

(** [set(a) <= set(b)] and [set(a) == set(b)] *)
Fixpoint subset (a b : string) : bool :=
  match a with
  | EmptyString => true
  | String c a' => has_char c b && subset a' b
  end.

Definition set_eqb (a b : string) : bool := subset a b && subset b a.

(** [reversed(s)] joined back into a string. *)
Fixpoint rev (s : string) : string :=
  match s with
  | EmptyString => EmptyString
  | String c s' => (rev s' ++ chr c)%string
  end.

End Str.

(** [x in l] for a list of strings. *)
Definition mem (x : string) (l : list string) : bool :=
  existsb (String.eqb x) l.

(** ** The topology (module-level constants of the source) *)

(** [cross(A, B)]: [[a + b for a in A for b in B]]. *)
Definition cross (A B : string) : list string :=
  flat_map (fun a => map (fun b => (a ++ b)%string) (Str.chars B)) (Str.chars A).

Definition rows : string := "ABCDEFGHI".
Definition cols : string := "123456789".
Definition boxes : list string := cross rows cols.

Definition row_units : list (list string) :=
  map (fun r => cross r cols) (Str.chars rows).

Definition column_units : list (list string) :=
  map (fun c => cross rows c) (Str.chars cols).

Definition square_units : list (list string) :=
  flat_map (fun rs => map (fun cs => cross rs cs) ["123"; "456"; "789"])
           ["ABC"; "DEF"; "GHI"].

(** [[r+c for r,c in zip(A, B)]] *)
Definition zip_concat (A B : string) : list string :=
  map (fun rc => (fst rc ++ snd rc)%string) (combine (Str.chars A) (Str.chars B)).

Definition diagonal_units : list (list string) :=
  [zip_concat rows cols; zip_concat rows (Str.rev cols)].

Definition units : list (list string) :=
  row_units ++ column_units ++ square_units ++ diagonal_units.

(** [[u for u in units if s in u]] *)
Definition units_containing (s : string) : list (list string) :=
  filter (mem s) units.

(** [box_units]: a dictionary keyed by the boxes. *)
Definition box_units : list (string * list (list string)) :=
  map (fun s => (s, units_containing s)) boxes.

(** Python's [set(l)] keeps one copy of each element; the iteration order
    of a set of strings is not specified.  The list below lists the
    elements in order of first occurrence. *)
Fixpoint dedup (l : list string) : list string :=
  match l with
  | [] => []
  | x :: l' => x :: filter (fun y => negb (String.eqb x y)) (dedup l')
  end.

(** [set(sum(us, [])) - set([s])] *)
Definition peers_of_units (s : string) (us : list (list string)) : list string :=
  filter (fun y => negb (String.eqb s y)) (dedup (List.concat us)).

Definition box_peers : list (string * list string) :=
  map (fun su => (fst su, peers_of_units (fst su) (snd su))) box_units.

(** Lookup in one of the constant dictionaries. *)
Fixpoint assoc {V : Type} (k : string) (m : list (string * V)) : option V :=
  match m with
  | [] => None
  | (k', v) :: m' => if String.eqb k' k then Some v else assoc k m'
  end.

(** How many units of a family contain the box. *)
Definition count_in (s : string) (family : list (list string)) : nat :=
  List.length (filter (mem s) family).

Definition on_diagonal (s : string) : bool :=
  existsb (mem s) diagonal_units.

(** ** Dictionaries *)

(** A Python [dict] from box names to candidate strings, as the list of
    its items in insertion order. *)
Definition dict : Type := list (string * string).

Module Dict.

Definition keys (m : dict) : list string := map fst m.

Definition get (k : string) (m : dict) : option string := assoc k m.

(** [m[k] = v]: an existing key keeps its place, a new key goes last. *)
Fixpoint set (k v : string) (m : dict) : dict :=
  match m with
  | [] => [(k, v)]
  | (k', v') :: m' =>
      if String.eqb k' k then (k', v) :: m' else (k', v') :: set k v m'
  end.

End Dict.

(** The [values] object the solver works on: a plain [dict]
    ([assignments = None]) or a [VisualizibleDict], which carries the list
    [self.assignments] of snapshots. *)
Record pydict : Type := Py {
  entries : dict;
  assignments : option (list dict)
}.

Inductive exn : Type :=
| KeyError (k : string)
| ValueError
| IndexError.

Inductive outcome (A : Type) : Type :=
| Ok (a : A)
| Raise (e : exn).
Arguments Ok {A} a.
Arguments Raise {A} e.

(** Computations that read and update [values] in place and may raise. *)
Definition M (A : Type) : Type := pydict -> outcome (A * pydict).

Definition ret {A} (a : A) : M A := fun d => Ok (a, d).

Definition bind {A B} (m : M A) (k : A -> M B) : M B :=
  fun d => match m d with
           | Ok (a, d') => k a d'
           | Raise e => Raise e
           end.

Definition raise {A} (e : exn) : M A := fun _ => Raise e.

Notation "x <- m ;; k" := (bind m (fun x => k))
  (at level 61, m at next level, right associativity).
Notation "m ;;; k" := (bind m (fun _ => k))
  (at level 61, right associativity).

(** A loop body either falls through to the next iteration or executes a
    [return]. *)
Inductive ctl (R : Type) : Type :=
| Next
| Return (r : R).
Arguments Next {R}.
Arguments Return {R} r.

Fixpoint for_ {X R} (xs : list X) (body : X -> M (ctl R)) : M (ctl R) :=
  match xs with
  | [] => ret Next
  | x :: xs' =>
      c <- body x ;;
      match c with
      | Next => for_ xs' body
      | Return r => ret (Return r)
      end
  end.

(** [[x for x in xs if p(x)]] where the test reads [values]. *)
Fixpoint filter_m {X} (p : X -> M bool) (xs : list X) : M (list X) :=
  match xs with
  | [] => ret []
  | x :: xs' =>
      b <- p x ;;
      l <- filter_m p xs' ;;
      ret (if b then x :: l else l)
  end.

(** [values[box]] *)
Definition getitem (box : string) : M string :=
  fun d => match Dict.get box (entries d) with
           | Some v => Ok (v, d)
           | None => Raise (KeyError box)
           end.

(** [list(values)]: the keys, in iteration order. *)
Definition get_keys : M (list string) :=
  fun d => Ok (Dict.keys (entries d), d).

Module VisualizibleDict.

(** [VisualizibleDict(mapping)] *)
Definition init (mapping : dict) : pydict := Py mapping (Some []).

(** [__setitem__(self, box, value)] with [self.assignments = h]. *)
Definition setitem (box value : string) (h : list dict) (m : dict)
  : outcome (unit * pydict) :=
  match Dict.get box m with
  | None => Raise (KeyError box)
  | Some cur =>
      if String.eqb cur value then Ok (tt, Py m (Some h))
      else
        let m' := Dict.set box value m in
        if Str.len value =? 1 then Ok (tt, Py m' (Some (h ++ [m'])))
        else Ok (tt, Py m' (Some h))
  end.

End VisualizibleDict.

(** [values[box] = value], dispatched on the class of [values]. *)
Definition setitem (box value : string) : M unit :=
  fun d => match assignments d with
           | None => Ok (tt, Py (Dict.set box value (entries d)) None)
           | Some h => VisualizibleDict.setitem box value h (entries d)
           end.

(** [values.copy()]: [dict.copy] returns a plain [dict]. *)
Definition copy (d : pydict) : pydict := Py (entries d) None.

(** [s[i]] *)
Definition index (s : string) (i : nat) : M string :=
  match String.get i s with
  | Some c => ret (Str.chr c)
  | None => raise IndexError
  end.

(** [d[k]] for a constant dictionary. *)
Definition const_getitem {V} (m : list (string * V)) (k : string) : M V :=
  match assoc k m with
  | Some v => ret v
  | None => raise (KeyError k)
  end.

(** What a strategy returns: [False], or the [values] object it was given. *)
Inductive retv : Type :=
| RFalse
| RValues.

(** [bool(r)]; a dictionary is true when it is not empty. *)
Definition truthy (r : retv) (d : pydict) : bool :=
  match r with
  | RFalse => false
  | RValues => match entries d with [] => false | _ => true end
  end.

(** ** The strategies *)

Definition grid_values (grid : string) : dict :=
  fold_left
    (fun m pair =>
       Dict.set (fst pair)
                (if Str.substring_of (snd pair) "123456789"
                 then snd pair else "123456789") m)
    (combine (cross rows cols) (Str.chars grid)) [].

(** The body of the innermost loop of [naked_twins]: strike the two
    prohibited digits from one other box of the unit. *)
Definition strike_twins (prohibited box : string) : M (ctl retv) :=
  v <- getitem box ;;
  p0 <- index prohibited 0 ;;
  p1 <- index prohibited 1 ;;
  setitem box (Str.replace_empty (Str.replace_empty v p0) p1) ;;;
  ret Next.

(** One item of the generator [pairs], tested when the loop reaches it,
    followed by the loop body for a pair that passes. *)
Definition twins_pair (unit : list string) (box1 box2 : string)
  : M (ctl retv) :=
  if String.ltb box1 box2 then
    v1 <- getitem box1 ;;
    if Str.len v1 =? 2 then
      v1' <- getitem box1 ;;
      v2 <- getitem box2 ;;
      if Str.set_eqb v1' v2 then
        prohibited <- getitem box1 ;;
        for_ (filter (fun box => negb (mem box [box1; box2])) unit)
             (strike_twins prohibited)
      else ret Next
    else ret Next
  else ret Next.

Definition twins_unit (unit : list string) : M (ctl retv) :=
  for_ unit (fun box1 => for_ unit (fun box2 => twins_pair unit box1 box2)).

Definition naked_twins : M retv :=
  for_ units twins_unit ;;;
  ret RValues.

(** The body of the inner loop of [eliminate]. *)
Definition eliminate_peer (box_value peer : string) : M (ctl retv) :=
  v <- getitem peer ;;
  let new_value := Str.replace_empty v box_value in
  if String.eqb new_value "" then ret (Return RFalse)
  else setitem peer new_value ;;; ret Next.

(** One item of [values.items()], filtered on [len(v) == 1] when the loop
    reaches it, followed by the loop over its peers. *)
Definition eliminate_box (box : string) : M (ctl retv) :=
  box_value <- getitem box ;;
  if Str.len box_value =? 1 then
    peers <- const_getitem box_peers box ;;
    for_ peers (eliminate_peer box_value)
  else ret Next.

Definition eliminate : M retv :=
  ks <- get_keys ;;
  c <- for_ ks eliminate_box ;;
  match c with
  | Return r => ret r
  | Next => ret RValues
  end.

(** [[box for box in unit if digit in values[box]]] *)
Definition digit_boxes_of (unit : list string) (digit : string)
  : M (list string) :=
  filter_m (fun box => v <- getitem box ;; ret (Str.substring_of digit v)) unit.

(** The body of the inner loop of [only_choice]. *)
Definition only_choice_digit (unit : list string) (digit : string)
  : M (ctl retv) :=
  digit_boxes <- digit_boxes_of unit digit ;;
  match digit_boxes with
  | [box] => setitem box digit ;;; ret Next
  | _ => ret Next
  end.

Definition only_choice : M retv :=
  for_ units (fun unit =>
    for_ (Str.chars "123456789") (only_choice_digit unit)) ;;;
  ret RValues.

(** [sum(1 for box, digits in values.items() if len(digits) == 1)] *)
Definition solved_count (m : dict) : nat :=
  List.length (filter (fun kv => Str.len (snd kv) =? 1) m).

Definition get_solved_count : M nat :=
  fun d => Ok (solved_count (entries d), d).

(** One pass of the [while True] loop of [reduce_puzzle]. *)
Inductive pass : Type :=
| EliminateFailed
| OnlyChoiceFailed
| Stalled
| Progress.

Definition reduce_pass : M pass :=
  solved_count_old <- get_solved_count ;;
  r <- eliminate ;;
  fun d =>
    if negb (truthy r d) then Ok (EliminateFailed, d)
    else
      (r' <- only_choice ;;
       fun d' =>
         if negb (truthy r' d') then Ok (OnlyChoiceFailed, d')
         else
           (solved_count_new <- get_solved_count ;;
            ret (if solved_count_new =? solved_count_old
                 then Stalled else Progress)) d') d.

(** The loop, with a bound on the number of passes; [None] when the bound
    is reached. *)
Fixpoint reduce_puzzle_loop (fuel : nat) (d : pydict)
  : option (outcome (retv * pydict)) :=
  match fuel with
  | O => None
  | S fuel' =>
      match reduce_pass d with
      | Raise e => Some (Raise e)
      | Ok (EliminateFailed, d') => Some (Ok (RFalse, d'))
      | Ok (OnlyChoiceFailed, d') => Some (Ok (RFalse, d'))
      | Ok (Stalled, d') => Some (Ok (RValues, d'))
      | Ok (Progress, d') => reduce_puzzle_loop fuel' d'
      end
  end.

(** Every pass but the last solves a box, so one pass more than there are
    keys is enough (theorem [reduce_puzzle_terminates]). *)
Definition reduce_puzzle (d : pydict) : option (outcome (retv * pydict)) :=
  reduce_puzzle_loop (S (List.length (entries d))) d.

(** ** Search *)

(** What [search] returns: [False], [None] (falling off the end of the
    function) or a dictionary. *)
Inductive sresult : Type :=
| SFalse
| SNone
| SDict (d : pydict).

Definition sresult_truthy (r : sresult) : bool :=
  match r with
  | SDict d => truthy RValues d
  | _ => false
  end.

(** [any(True for s in boxes if len(values[s]) != 1)], stopping at the
    first hit. *)
Fixpoint any_unsolved (bs : list string) : M bool :=
  match bs with
  | [] => ret false
  | s :: bs' =>
      v <- getitem s ;;
      if negb (Str.len v =? 1) then ret true else any_unsolved bs'
  end.

(** Python's order on the tuples [(box, n)]. *)
Definition tuple_ltb (a b : string * nat) : bool :=
  match String.compare (fst a) (fst b) with
  | Lt => true
  | Eq => snd a <? snd b
  | Gt => false
  end.

(** [min(it)]: the first least item; [ValueError] on an empty sequence. *)
Definition py_min (l : list (string * nat)) : M (string * nat) :=
  match l with
  | [] => raise ValueError
  | x :: l' => ret (fold_left (fun m y => if tuple_ltb y m then y else m) l' x)
  end.

(** [(box, len(values[box])) for box in boxes if len(values[box]) > 1] *)
Fixpoint unsolved_tuples (bs : list string) : M (list (string * nat)) :=
  match bs with
  | [] => ret []
  | box :: bs' =>
      v <- getitem box ;;
      if 1 <? Str.len v then
        v' <- getitem box ;;
        l <- unsolved_tuples bs' ;;
        ret ((box, Str.len v') :: l)
      else unsolved_tuples bs'
  end.

(** [box, _ = min(...)] *)
Definition choose_box : M string :=
  l <- unsolved_tuples boxes ;;
  t <- py_min l ;;
  ret (fst t).

Section SearchChildren.

(** The recursive call, and the node's [values] and chosen [box]. *)
Variable recurse : pydict -> option (outcome sresult).
Variable values : pydict.
Variable box : string.

(** [for value in values[box]: ...]; falling out of the loop returns
    [None]. *)
Fixpoint search_children (vs : list string) : option (outcome sresult) :=
  match vs with
  | [] => Some (Ok SNone)
  | value :: vs' =>
      match setitem box value (copy values) with
      | Raise e => Some (Raise e)
      | Ok (_, new_sudoku) =>
          match recurse new_sudoku with
          | None => None
          | Some (Raise e) => Some (Raise e)
          | Some (Ok attempt) =>
              if sresult_truthy attempt then Some (Ok attempt)
              else search_children vs'
          end
      end
  end.

End SearchChildren.

(** [search], with a bound on the recursion depth; [None] when the bound
    is reached. *)
Fixpoint search (fuel : nat) (values : pydict) : option (outcome sresult) :=
  match fuel with
  | O => None
  | S fuel' =>
      match reduce_puzzle values with
      | None => None
      | Some (Raise e) => Some (Raise e)
      | Some (Ok (r, values)) =>
          if negb (truthy r values) then Some (Ok SFalse)
          else
            match any_unsolved boxes values with
            | Raise e => Some (Raise e)
            | Ok (false, values) => Some (Ok (SDict values))
            | Ok (true, values) =>
                match (box <- choose_box ;; v <- getitem box ;; ret (box, v))
                        values with
                | Raise e => Some (Raise e)
                | Ok ((box, v), values) =>
                    search_children (search fuel') values box (Str.chars v)
                end
            end
      end
  end.

(** [solve(grid)] *)
Definition solve (fuel : nat) (grid : string) : option (outcome sresult) :=
  let values := grid_values grid in
  let values := VisualizibleDict.init values in
  search fuel values.

(** ** Display *)

(** [s * n] *)
Fixpoint repeat_str (s : string) (n : nat) : string :=
  match n with
  | O => EmptyString
  | S k => (s ++ repeat_str s k)%string
  end.

(** [s.center(width)]: [s] itself when it is at least [width] long; else
    padded with spaces, [marg // 2 + (marg & width & 1)] of them on the
    left and the rest on the right, [marg] being the number missing. *)
Definition center (s : string) (width : nat) : string :=
  let n := Str.len s in
  if width <=? n then s
  else
    let marg := width - n in
    let left := marg / 2 + (if Nat.odd marg && Nat.odd width then 1 else 0) in
    (repeat_str " " left ++ s ++ repeat_str " " (marg - left))%string.

(** [[f(x) for x in xs]] where [f] reads [values]. *)
Fixpoint map_m {X Y} (f : X -> M Y) (xs : list X) : M (list Y) :=
  match xs with
  | [] => ret []
  | x :: xs' =>
      y <- f x ;;
      l <- map_m f xs' ;;
      ret (y :: l)
  end.

(** [max(it)]; [ValueError] on an empty sequence. *)
Definition py_max (l : list nat) : M nat :=
  match l with
  | [] => raise ValueError
  | x :: l' => ret (fold_left Nat.max l' x)
  end.

(** [1+max(len(values[s]) for s in boxes)] *)
Definition display_width : M nat :=
  lens <- map_m (fun s => v <- getitem s ;; ret (Str.len v)) boxes ;;
  m <- py_max lens ;;
  ret (1 + m).

(** ['+'.join(['-'*(width*3)]*3)] *)
Definition display_line (width : nat) : string :=
  String.concat "+" (repeat (repeat_str "-" (width * 3)) 3).

(** The text printed for row [r]:
    [''.join(values[r+c].center(width)+('|' if c in '36' else '') for c in cols)] *)
Definition display_row (r : string) (width : nat) : M string :=
  cells <- map_m (fun c =>
             v <- getitem (r ++ c)%string ;;
             ret (center v width
                  ++ (if Str.substring_of c "36" then "|" else ""))%string)
           (Str.chars cols) ;;
  ret (String.concat "" cells).

(** The loop over the rows; the lines printed, in order, and how the loop
    ended. *)
Fixpoint display_rows (rs : list string) (width : nat) (line : string)
         (values : pydict) : list string * outcome unit :=
  match rs with
  | [] => ([], Ok tt)
  | r :: rs' =>
      match display_row r width values with
      | Raise e => ([], Raise e)
      | Ok (text, values) =>
          let printed :=
            text :: (if Str.substring_of r "CF" then [line] else []) in
          let (out, res) := display_rows rs' width line values in
          (printed ++ out, res)
      end
  end.

(** [display(values)]: what it prints, and whether it returns or
    raises. *)
Definition display (values : pydict) : list string * outcome unit :=
  match display_width values with
  | Raise e => ([], Raise e)
  | Ok (width, values) =>
      display_rows (Str.chars rows) width (display_line width) values
  end.

(** ** Notions used in the statements *)

(** [values[box]] as a partial function. *)
Definition lookup (d : pydict) (box : string) : option string :=
  Dict.get box (entries d).

(** A candidate map: a dictionary whose keys are the 81 boxes, each once
    (in any insertion order). *)
Definition candidate_map (d : pydict) : Prop :=
  NoDup (Dict.keys (entries d)) /\
  forall b, In b (Dict.keys (entries d)) <-> In b boxes.

(** No box has an empty candidate string. *)
Definition nonempty (d : pydict) : Prop :=
  forall b v, lookup d b = Some v -> v <> "".

(** Every candidate string is made of the digits 1 to 9. *)
Definition digits_only (d : pydict) : Prop :=
  forall b v, lookup d b = Some v -> Str.subset v "123456789" = true.

(** [v'] is what is left of [v] after striking candidates: it is no
    longer, has no new character, is [v] itself when [v] is a single
    character, and is empty only if [v] was. *)
Definition narrows (v' v : string) : Prop :=
  Str.len v' <= Str.len v /\
  Str.subset v' v = true /\
  (Str.len v = 1 -> v' = v) /\
  (v' = "" -> v = "").

(** [d'] has the keys of [d], in the same order, and narrower values. *)
Definition refines (d' d : pydict) : Prop :=
  Dict.keys (entries d') = Dict.keys (entries d) /\
  forall b v, lookup d b = Some v ->
              exists v', lookup d' b = Some v' /\ narrows v' v.

(** The peers of a box, as [eliminate] looks them up. *)
Definition peers (box : string) : list string :=
  match assoc box box_peers with
  | Some ps => ps
  | None => []
  end.

(** [v'] is [v], or one of the candidates of [v] on its own. *)
Definition forced (v' v : string) : Prop :=
  v' = v \/ exists c, v' = Str.chr c /\ Str.has_char c v = true.

(** [d'] differs from [d] only in boxes forced to one of their
    candidates. *)
Definition forces (d' d : pydict) : Prop :=
  Dict.keys (entries d') = Dict.keys (entries d) /\
  forall b v, lookup d b = Some v ->
              exists v', lookup d' b = Some v' /\ forced v' v.

(** Every digit that stands alone in a box of [d] is absent from the
    peers of that box in [d']. *)
Definition struck (d d' : pydict) : Prop :=
  forall b c p v, lookup d b = Some (Str.chr c) -> In p (peers b) ->
                  lookup d' p = Some v -> Str.has_char c v = false.

(** No two peers hold the same single character. *)
Definition consistent (d : pydict) : Prop :=
  forall b p c, In b boxes -> In p (peers b) ->
                lookup d b = Some (Str.chr c) -> lookup d p <> Some (Str.chr c).

(** The candidate string of a box (empty for a missing key). *)
Definition candidates (d : pydict) (box : string) : string :=
  match lookup d box with
  | Some v => v
  | None => ""
  end.

(** The boxes with more than one candidate, in the order of the list. *)
Definition unsolved (d : pydict) (bs : list string) : list string :=
  filter (fun b => 1 <? Str.len (candidates d b)) bs.

(** Every box holds exactly one character. *)
Definition all_single (d : pydict) : Prop :=
  forall b, In b boxes -> exists c, lookup d b = Some (Str.chr c).

(** How many boxes of the unit hold exactly the one-character string
    [digit]. *)
Definition occurrences (d : pydict) (unit : list string) (digit : string)
  : nat :=
  List.length
    (filter (fun b => match lookup d b with
                      | Some v => String.eqb v digit
                      | None => false
                      end) unit).

(** A solved grid: one digit per box, and every unit holds each digit 1 to
    9 exactly once. *)
Definition solved_grid (d : pydict) : Prop :=
  (forall b, In b boxes ->
     exists digit, In digit (Str.chars "123456789") /\ lookup d b = Some digit) /\
  (forall unit digit, In unit units -> In digit (Str.chars "123456789") ->
     occurrences d unit digit = 1).

(** What [search] promises about a dictionary it returns: it refines the
    map given, every box is solved, and no two peers are alike. *)
Definition search_post (d : pydict) (r : sresult) : Prop :=
  match r with
  | SDict m => refines m d /\ all_single m /\ consistent m
  | _ => True
  end.

(** The grid gives digit [c] for box [b]: [b] is the [i]-th box and the
    [i]-th character of the grid is the digit [c]. *)
Definition given (grid : string) (b : string) (c : ascii) : Prop :=
  exists i, nth_error boxes i = Some b /\ String.get i grid = Some c /\
            Str.has_char c "123456789" = true.

(** A completion of the puzzle: a digit for every box that agrees with the
    givens and puts no digit twice in a unit. *)
Definition solves (grid : string) (a : string -> ascii) : Prop :=
  (forall b, In b boxes -> Str.has_char (a b) "123456789" = true) /\
  (forall b c, given grid b c -> a b = c) /\
  (forall u b1 b2, In u units -> In b1 u -> In b2 u -> b1 <> b2 ->
                   a b1 <> a b2).

(** A logically contradictory puzzle has no completion. *)
Definition contradictory (grid : string) : Prop :=
  ~ exists a, solves grid a.

(** The digit of a solved box. *)
Definition digit_at (d : pydict) (b : string) : ascii :=
  match lookup d b with
  | Some (String c _) => c
  | _ => "0"%char
  end.

(** A map on which naked twins has nothing left to strike: whenever two
    boxes of a unit pass the twin test, no other box of the unit holds a
    character of the first one. *)
Definition twin_reduced (d : pydict) : Prop :=
  forall unit box1 box2 box x,
    In unit units -> In box1 unit -> In box2 unit -> In box unit ->
    String.ltb box1 box2 = true ->
    Str.len (candidates d box1) = 2 ->
    Str.set_eqb (candidates d box1) (candidates d box2) = true ->
    box <> box1 -> box <> box2 ->
    Str.has_char x (candidates d box1) = true ->
    Str.has_char x (candidates d box) = false.

(** Applying [naked_twins] a second time gives what the first
    application gave. *)
Definition idempotent_at (d : pydict) : Prop :=
  forall d1 d2,
    naked_twins d = Ok (RValues, d1) ->
    naked_twins d1 = Ok (RValues, d2) ->
    d2 = d1.

Definition blank_grid : string :=
  ".................................................................................".

(** A candidate map in which row A holds the twins A3, A4 on digits 1, 2,
    and A1, A2 become twins on 3, 4 once the 1 is struck from A1. *)
Definition twins_map : pydict :=
  Py (Dict.set "A4" "12" (Dict.set "A3" "12" (Dict.set "A2" "34"
       (Dict.set "A1" "134" (grid_values blank_grid))))) None.

(** [twins_map] after one and after two applications of [naked_twins]. *)
Definition twins_once : pydict :=
  Eval vm_compute in
    match naked_twins twins_map with
    | Ok (_, d) => d
    | Raise _ => twins_map
    end.

Definition twins_twice : pydict :=
  Eval vm_compute in
    match naked_twins twins_once with
    | Ok (_, d) => d
    | Raise _ => twins_once
    end.

(** A grid whose bottom row is [1234567..]: after reduction I8 and I9
    have two candidates each, A1 has eight. *)
Definition bottom_row_grid : string :=
  "........................................................................1234567..".

Definition bottom_row_reduced : pydict :=
  Eval vm_compute in
    match reduce_puzzle (VisualizibleDict.init (grid_values bottom_row_grid)) with
    | Some (Ok (_, d)) => d
    | _ => VisualizibleDict.init []
    end.

(** Every element is below all later ones in Python's string order. *)
Fixpoint increasing (l : list string) : bool :=
  match l with
  | [] => true
  | x :: l' => forallb (fun y => String.ltb x y) l' && increasing l'
  end.

(** Boolean checks on a concrete map. *)
Definition values_ok (m : dict) : bool :=
  forallb (fun kv => negb (String.eqb (snd kv) "")
                     && Str.subset (snd kv) "123456789") m.

Definition no_pair_candidates (d : pydict) : bool :=
  forallb (fun b => negb (Str.len (candidates d b) =? 2)) boxes.

(** The boxes of the unit that list the digit, read off the map. *)
Definition listing (d : pydict) (c : ascii) (unit : list string) : list string :=
  filter (fun box => match lookup d box with
                     | Some v => Str.has_char c v
                     | None => false
                     end) unit.

(** What one pass of the loop does on a candidate map. *)
Definition pass_post (d : pydict) (p : pass) (d' : pydict) : Prop :=
  match p with
  | EliminateFailed => True
  | OnlyChoiceFailed => False
  | Stalled =>
      solved_count (entries d') = solved_count (entries d) /\ struck d d'
  | Progress =>
      solved_count (entries d) < solved_count (entries d') /\ struck d d'
  end.

(** The state in which the loop stops with the map: the last pass started
    from [dk] and solved no further box. *)
Definition stalled_at (d d' : pydict) : Prop :=
  exists dk, refines dk d /\ refines d' dk /\
             solved_count (entries d') = solved_count (entries dk) /\
             struck dk d'.

(** The grid of the [__main__] block. *)
Definition diag_sudoku_grid : string :=
  "2.............62....1....7...6..8...3...9...7...6..4...4....8....52.............3".

(** A grid with the digit 1 twice in row A. *)
Definition clashing_grid : string :=
  "11...............................................................................".

(** What [grid_values] stores for a grid character. *)
Definition cell (x : string) : string :=
  if Str.substring_of x "123456789" then x else "123456789".

(** A grid that leaves only 8 and 9 for each of A1, A2 and A3; the
    reduction at the root does not notice. *)
Definition exhausted_grid : string :=
  "...7.....123......456............................................................".

(** The falsy results of [search]: [False] and [None]. *)
Definition is_failure (r : sresult) : Prop := r = SFalse \/ r = SNone.

(** Boolean checks run on the constant topology. *)
Fixpoint nodupb (l : list string) : bool :=
  match l with
  | [] => true
  | x :: l' => negb (mem x l') && nodupb l'
  end.

Definition peers_in_boxes : bool :=
  forallb (fun b => match assoc b box_peers with
                    | Some ps => forallb (fun p => mem p boxes && negb (String.eqb p b)) ps
                    | None => false
                    end) boxes.

Definition unit_mates_are_peers : bool :=
  forallb (fun u =>
    forallb (fun b1 =>
      forallb (fun b2 => String.eqb b1 b2 || mem b2 (peers b1)) u) u) units.

Definition units_well_formed : bool :=
  forallb (fun u => nodupb u && (List.length u =? 9)
                    && forallb (fun b => mem b boxes) u) units.

Definition unit_profile (s : string) : bool :=
  (count_in s row_units =? 1) && (count_in s column_units =? 1)
  && (count_in s square_units =? 1)
  && (match assoc s box_units with
      | Some us => List.length us =? 3 + count_in s diagonal_units
      | None => false
      end)
  && (count_in s diagonal_units <=? 2)
  && (Bool.eqb (count_in s diagonal_units =? 2) (String.eqb s "E5")).

(** ** Further notions *)

(** Boolean checks on the peers table. *)
Definition shares_unit (b p : string) : bool :=
  existsb (fun u => mem b u && mem p u) units.

Definition peer_test (b p : string) : bool :=
  Bool.eqb (mem p (peers b)) (negb (String.eqb p b) && shares_unit b p).

Definition peers_counted : bool :=
  forallb (fun b =>
    nodupb (peers b)
    && (List.length (peers b) =? 20 + 6 * count_in b diagonal_units)) boxes.

(** Boolean versions of [all_single] and [consistent]. *)
Definition all_singleb (d : pydict) : bool :=
  forallb (fun b => Str.len (candidates d b) =? 1) boxes.

Definition consistentb (d : pydict) : bool :=
  forallb (fun b =>
    forallb (fun p => negb (String.eqb (candidates d b) (candidates d p)))
            (peers b)) boxes.

(** The solution of [diag_sudoku_grid], as a grid. *)
Definition solved_diag_grid : string :=
  "267945381853716249491823576576438192384192657129657438642379815935281764718564923".

(** [v'] is [v] with some characters struck, possibly all. *)
Definition shrinks (v' v : string) : Prop :=
  Str.len v' <= Str.len v /\ Str.subset v' v = true.

(** [d'] has the keys of [d], in the same order, and shrunk values. *)
Definition contracts (d' d : pydict) : Prop :=
  Dict.keys (entries d') = Dict.keys (entries d) /\
  forall b v, lookup d b = Some v ->
              exists v', lookup d' b = Some v' /\ shrinks v' v.

(** [values] is a plain [dict], not a [VisualizibleDict]. *)
Definition plain (d : pydict) : Prop := assignments d = None.

(** The history of [d'] continues the history of [d]; a plain [dict]
    stays plain. *)
Definition history_extends (d' d : pydict) : Prop :=
  match assignments d, assignments d' with
  | None, None => True
  | Some h, Some h' => exists l, h' = h ++ l
  | _, _ => False
  end.

(** A computation that, whenever it returns normally, has kept a
    relation between the final and the initial [values]. *)
Definition keeps {A} (rel : pydict -> pydict -> Prop) (m : M A) : Prop :=
  forall d a d', m d = Ok (a, d') -> rel d' d.

(** [d'] has the keys of [d], in the same order. *)
Definition same_keys (d' d : pydict) : Prop :=
  Dict.keys (entries d') = Dict.keys (entries d).

(** The result of [solve] on [bottom_row_grid], found after branching. *)
Definition bottom_row_solution :=
  Eval vm_compute in
    match solve 82 bottom_row_grid with
    | Some (Ok (SDict m)) => m
    | _ => VisualizibleDict.init []
    end.

(** A computation that raises nothing but [KeyError]. *)
Definition raises_key {A} (m : M A) : Prop :=
  forall d e, m d = Raise e -> exists k, e = KeyError k.

(** Every box lies in some unit. *)
Definition in_some_unit (b : string) : bool := existsb (mem b) units.

(** The dictionary that maps every box to the empty string. *)
Definition empty_boxes : pydict :=
  Py (map (fun b => (b, "")) boxes) None.

(** * Properties *)

(** ** Strings *)

Module StrFacts.

Lemma len_one (s : string) : Str.len s = 1 <-> exists c, s = Str.chr c.
Proof.
  split.
  - destruct s as [|c [|c' s']]; simpl; try discriminate.
    intros _. now exists c.
  - intros [c ->]. reflexivity.
Qed.

Lemma len_zero (s : string) : Str.len s = 0 <-> s = "".
Proof. destruct s; simpl; split; intros; congruence. Qed.

Lemma eqb_empty (s : string) : String.eqb s "" = true <-> s = "".
Proof. apply String.eqb_eq. Qed.

Lemma prefix_chr (c a : ascii) (s : string) :
  String.prefix (Str.chr c) (String a s) = Ascii.eqb a c.
Proof.
  simpl. destruct (ascii_dec c a) as [->|Hne].
  - rewrite Ascii.eqb_refl. now destruct s.
  - symmetry. apply Ascii.eqb_neq. congruence.
Qed.

(** Replacing a one-character string by nothing filters the character
    out. *)
Lemma replace_chr (s : string) (c : ascii) :
  Str.replace_empty s (Str.chr c) = Str.remove_char c s.
Proof.
  unfold Str.replace_empty. induction s as [|a s IH]; [reflexivity|].
  cbn [Str.replace_go Str.remove_char].
  rewrite prefix_chr. cbn [Str.chr String.eqb negb andb String.length Nat.sub].
  destruct (Ascii.eqb a c); rewrite IH; reflexivity.
Qed.

Lemma substring_chr (c : ascii) (s : string) :
  Str.substring_of (Str.chr c) s = Str.has_char c s.
Proof.
  induction s as [|a s IH]; [reflexivity|].
  cbn [Str.substring_of Str.has_char]. rewrite prefix_chr, IH. reflexivity.
Qed.

Lemma has_char_remove (c x : ascii) (s : string) :
  Str.has_char x (Str.remove_char c s)
  = Str.has_char x s && negb (Ascii.eqb x c).
Proof.
  induction s as [|a s IH]; [reflexivity|]. simpl.
  destruct (Ascii.eqb a c) eqn:Hac.
  - rewrite IH. apply Ascii.eqb_eq in Hac. subst a.
    rewrite (Ascii.eqb_sym c x).
    destruct (Ascii.eqb x c), (Str.has_char x s); reflexivity.
  - simpl. rewrite IH.
    destruct (Ascii.eqb a x) eqn:Hax; [|reflexivity].
    apply Ascii.eqb_eq in Hax. subst a. rewrite Hac. reflexivity.
Qed.

Lemma has_char_remove_same (c : ascii) (s : string) :
  Str.has_char c (Str.remove_char c s) = false.
Proof.
  rewrite has_char_remove, Ascii.eqb_refl. apply andb_false_r.
Qed.

Lemma len_remove (c : ascii) (s : string) :
  Str.len (Str.remove_char c s) <= Str.len s.
Proof.
  unfold Str.len. induction s as [|a s IH]; simpl; [lia|].
  destruct (Ascii.eqb a c); simpl; lia.
Qed.

Lemma remove_absent (c : ascii) (s : string) :
  Str.has_char c s = false -> Str.remove_char c s = s.
Proof.
  induction s as [|a s IH]; simpl; [reflexivity|].
  intros H. apply orb_false_iff in H. destruct H as [Ha Hs].
  rewrite Ha, IH; auto.
Qed.

Lemma subset_spec (a b : string) :
  Str.subset a b = true <->
  forall x, Str.has_char x a = true -> Str.has_char x b = true.
Proof.
  induction a as [|c a IH]; simpl.
  - split; [intros _ x Hx; discriminate | reflexivity].
  - rewrite andb_true_iff, IH. split.
    + intros [Hc Ha] x Hx. apply orb_true_iff in Hx. destruct Hx as [Hx|Hx].
      * apply Ascii.eqb_eq in Hx. now subst.
      * now apply Ha.
    + intros H. split.
      * apply H. rewrite Ascii.eqb_refl. reflexivity.
      * intros x Hx. apply H. rewrite Hx. apply orb_true_r.
Qed.

Lemma subset_refl (a : string) : Str.subset a a = true.
Proof. apply subset_spec. auto. Qed.

Lemma subset_trans (a b c : string) :
  Str.subset a b = true -> Str.subset b c = true -> Str.subset a c = true.
Proof. rewrite !subset_spec. auto. Qed.

Lemma subset_remove (c : ascii) (s : string) :
  Str.subset (Str.remove_char c s) s = true.
Proof.
  apply subset_spec. intros x. rewrite has_char_remove.
  intros H. now apply andb_true_iff in H.
Qed.

Lemma subset_chr (c : ascii) (s : string) :
  Str.subset (Str.chr c) s = Str.has_char c s.
Proof. simpl. apply andb_true_r. Qed.

Lemma has_char_chr (x c : ascii) :
  Str.has_char x (Str.chr c) = true <-> x = c.
Proof.
  simpl. rewrite orb_false_r, Ascii.eqb_eq. split; congruence.
Qed.

Lemma has_char_len (c : ascii) (s : string) :
  Str.has_char c s = true -> 1 <= Str.len s.
Proof. destruct s; simpl; [discriminate | lia]. Qed.

Lemma chars_chr (s digit : string) :
  In digit (Str.chars s) -> exists c, digit = Str.chr c /\ Str.has_char c s = true.
Proof.
  induction s as [|a s IH]; simpl; [tauto|].
  intros [<-|H].
  - exists a. rewrite Ascii.eqb_refl. auto.
  - destruct (IH H) as [c [-> Hc]]. exists c. rewrite Hc, orb_true_r. auto.
Qed.

Lemma chars_has (s : string) (c : ascii) :
  Str.has_char c s = true -> In (Str.chr c) (Str.chars s).
Proof.
  induction s as [|a s IH]; simpl; [discriminate|].
  intros H. apply orb_true_iff in H. destruct H as [H|H].
  - apply Ascii.eqb_eq in H. subst. now left.
  - right. auto.
Qed.

Lemma chars_length (s : string) : List.length (Str.chars s) = Str.len s.
Proof. unfold Str.len. induction s; simpl; auto. Qed.

End StrFacts.

(** ** Narrowing *)

Lemma narrows_refl (v : string) : narrows v v.
Proof.
  unfold narrows. repeat split; auto. apply StrFacts.subset_refl.
Qed.

Lemma narrows_trans (a b c : string) :
  narrows a b -> narrows b c -> narrows a c.
Proof.
  intros (H1 & H2 & H3 & H4) (K1 & K2 & K3 & K4). unfold narrows.
  repeat split.
  - lia.
  - eapply StrFacts.subset_trans; eauto.
  - intros Hc. specialize (K3 Hc). subst b. auto.
  - intros ->. auto.
Qed.

(** The write of [eliminate]: striking one character, when something is
    left. *)
Lemma narrows_remove (c : ascii) (v : string) :
  Str.remove_char c v <> "" -> narrows (Str.remove_char c v) v.
Proof.
  intros Hne. unfold narrows. repeat split.
  - apply StrFacts.len_remove.
  - apply StrFacts.subset_remove.
  - intros H1. apply StrFacts.len_one in H1. destruct H1 as [a ->].
    simpl in *. destruct (Ascii.eqb a c); [congruence | reflexivity].
  - intros E. congruence.
Qed.

(** The write of [only_choice] and of a search branch: one of the
    candidates. *)
Lemma narrows_chr (c : ascii) (v : string) :
  Str.has_char c v = true -> narrows (Str.chr c) v.
Proof.
  intros Hc. unfold narrows. repeat split.
  - apply StrFacts.has_char_len in Hc. exact Hc.
  - now rewrite StrFacts.subset_chr.
  - intros H1. apply StrFacts.len_one in H1. destruct H1 as [a ->].
    apply StrFacts.has_char_chr in Hc. now subst.
  - discriminate.
Qed.

(** ** Dictionaries *)

Module DictFacts.

Lemma get_in_keys (k : string) (m : dict) :
  In k (Dict.keys m) <-> exists v, Dict.get k m = Some v.
Proof.
  unfold Dict.get, Dict.keys. induction m as [|[k' v'] m IH]; simpl.
  - split; [tauto | intros [v H]; discriminate].
  - destruct (String.eqb_spec k' k) as [->|Hne].
    + split; eauto.
    + rewrite <- IH. split; [intros [H|H]; [congruence|auto] | auto].
Qed.

Lemma get_set_same (k v : string) (m : dict) :
  Dict.get k (Dict.set k v m) = Some v.
Proof.
  unfold Dict.get. induction m as [|[k' v'] m IH]; simpl.
  - now rewrite String.eqb_refl.
  - destruct (String.eqb_spec k' k) as [->|Hne]; simpl.
    + now rewrite String.eqb_refl.
    + destruct (String.eqb_spec k' k); [contradiction | exact IH].
Qed.

Lemma get_set_other (k k' v : string) (m : dict) :
  k <> k' -> Dict.get k' (Dict.set k v m) = Dict.get k' m.
Proof.
  unfold Dict.get. intros Hne. induction m as [|[k0 v0] m IH]; simpl.
  - destruct (String.eqb_spec k k'); [contradiction | reflexivity].
  - destruct (String.eqb_spec k0 k) as [->|Hk]; simpl.
    + destruct (String.eqb_spec k k'); [contradiction | reflexivity].
    + destruct (String.eqb_spec k0 k'); auto.
Qed.

Lemma keys_set (k v : string) (m : dict) :
  In k (Dict.keys m) -> Dict.keys (Dict.set k v m) = Dict.keys m.
Proof.
  unfold Dict.keys. induction m as [|[k0 v0] m IH]; simpl; [tauto|].
  intros H. destruct (String.eqb_spec k0 k) as [->|Hk]; simpl; [reflexivity|].
  f_equal. apply IH. destruct H; [contradiction | assumption].
Qed.

Lemma set_same (k v : string) (m : dict) :
  Dict.get k m = Some v -> Dict.set k v m = m.
Proof.
  unfold Dict.get. induction m as [|[k0 v0] m IH]; simpl; [discriminate|].
  destruct (String.eqb_spec k0 k) as [->|Hk].
  - intros [= ->]. reflexivity.
  - intros H. f_equal. auto.
Qed.

Lemma solved_count_le (m : dict) : solved_count m <= List.length m.
Proof. unfold solved_count. apply filter_length_le. Qed.

(** Overwriting a value that was not a single character by one that is
    solves one more box. *)
Lemma solved_count_set_new (k v old : string) (m : dict) :
  Dict.get k m = Some old -> Str.len old <> 1 -> Str.len v = 1 ->
  solved_count (Dict.set k v m) = S (solved_count m).
Proof.
  unfold Dict.get, solved_count.
  induction m as [|[k0 v0] m IH]; simpl; [discriminate|].
  destruct (String.eqb_spec k0 k) as [->|Hk].
  - intros [= ->] Hold Hv. simpl. rewrite Hv. simpl.
    apply Nat.eqb_neq in Hold. rewrite Hold. reflexivity.
  - intros Hg Hold Hv. simpl. specialize (IH Hg Hold Hv).
    destruct (Str.len v0 =? 1); simpl; lia.
Qed.

(** Dictionaries with the same keys, where single characters stay, have
    at least as many solved boxes. *)
Lemma solved_count_mono (m m' : dict) :
  NoDup (Dict.keys m) ->
  Dict.keys m' = Dict.keys m ->
  (forall k v, Dict.get k m = Some v -> Str.len v = 1 ->
               Dict.get k m' = Some v) ->
  solved_count m <= solved_count m'.
Proof.
  unfold Dict.get, Dict.keys, solved_count. revert m'.
  induction m as [|[k v] m IH]; intros [|[k' v'] m'] Hnd Hk H;
    simpl in *; try discriminate; [lia|].
  injection Hk as -> Hk. inversion Hnd as [|? ? Hnotin Hnd']; subst.
  assert (Hrec : List.length (filter (fun kv => Str.len (snd kv) =? 1) m)
                 <= List.length (filter (fun kv => Str.len (snd kv) =? 1) m')).
  { apply IH; auto. intros k0 v0 Hg Hl.
    specialize (H k0 v0).
    destruct (String.eqb_spec k k0) as [->|Hne].
    - exfalso. apply Hnotin.
      apply (proj2 (get_in_keys k0 m)). eauto.
    - auto. }
  destruct (Str.len v =? 1) eqn:Hv.
  - apply Nat.eqb_eq in Hv. specialize (H k v).
    rewrite String.eqb_refl in H. specialize (H eq_refl Hv).
    injection H as ->. apply Nat.eqb_eq in Hv. rewrite Hv. simpl. lia.
  - destruct (Str.len v' =? 1); simpl; lia.
Qed.

(** All values are single characters exactly when the count is the
    number of items. *)
Lemma solved_count_full (m : dict) :
  solved_count m = List.length m ->
  forall k v, Dict.get k m = Some v -> Str.len v = 1.
Proof.
  unfold solved_count, Dict.get.
  induction m as [|[k0 v0] m IH]; simpl; [discriminate|].
  intros Hc k v.
  pose proof (filter_length_le (fun kv : string * string => Str.len (snd kv) =? 1) m) as Hle.
  destruct (Str.len v0 =? 1) eqn:Hv0; simpl in Hc; [|lia].
  destruct (String.eqb_spec k0 k) as [->|Hne].
  - intros [= ->]. now apply Nat.eqb_eq.
  - apply IH. lia.
Qed.

Lemma solved_count_all (m : dict) :
  (forall k v, In (k, v) m -> Str.len v = 1) ->
  solved_count m = List.length m.
Proof.
  unfold solved_count. induction m as [|[k0 v0] m IH]; simpl; [reflexivity|].
  intros H. rewrite (proj2 (Nat.eqb_eq _ _) (H k0 v0 (or_introl eq_refl))).
  simpl. f_equal. apply IH. intros k v Hin. apply (H k v). now right.
Qed.

Lemma in_get (k v : string) (m : dict) :
  NoDup (Dict.keys m) -> In (k, v) m -> Dict.get k m = Some v.
Proof.
  unfold Dict.get, Dict.keys. induction m as [|[k0 v0] m IH]; simpl; [tauto|].
  intros Hnd [Heq|Hin].
  - injection Heq as -> ->. now rewrite String.eqb_refl.
  - inversion Hnd as [|? ? Hnotin Hnd']; subst.
    destruct (String.eqb_spec k0 k) as [->|Hne].
    + exfalso. apply Hnotin. apply in_map_iff. exists (k, v). auto.
    + auto.
Qed.

End DictFacts.

(** ** Reading and writing [values] *)

Lemma refines_refl (d : pydict) : refines d d.
Proof.
  split; [reflexivity|]. intros b v H. exists v. split; [exact H|].
  apply narrows_refl.
Qed.

Lemma refines_trans (d2 d1 d0 : pydict) :
  refines d2 d1 -> refines d1 d0 -> refines d2 d0.
Proof.
  intros [K2 H2] [K1 H1]. split; [congruence|].
  intros b v Hv. destruct (H1 b v Hv) as [v1 [Hv1 N1]].
  destruct (H2 b v1 Hv1) as [v2 [Hv2 N2]].
  exists v2. split; [exact Hv2|]. eapply narrows_trans; eauto.
Qed.

Lemma refines_candidate_map (d' d : pydict) :
  refines d' d -> candidate_map d -> candidate_map d'.
Proof.
  intros [K _] [Hnd Hk]. unfold candidate_map. rewrite K. auto.
Qed.

Lemma refines_nonempty (d' d : pydict) :
  refines d' d -> nonempty d -> nonempty d'.
Proof.
  intros [K H] Hne b v' Hv' ->.
  assert (Hin : In b (Dict.keys (entries d))).
  { rewrite <- K. apply DictFacts.get_in_keys. eauto. }
  apply DictFacts.get_in_keys in Hin. destruct Hin as [v Hv].
  destruct (H b v Hv) as [v2 [Hv2 (_ & _ & _ & He)]].
  unfold lookup in *. rewrite Hv' in Hv2. injection Hv2 as <-.
  apply (Hne b v Hv). auto.
Qed.

Lemma refines_digits_only (d' d : pydict) :
  refines d' d -> digits_only d -> digits_only d'.
Proof.
  intros [K H] Hdg b v' Hv'.
  assert (Hin : In b (Dict.keys (entries d))).
  { rewrite <- K. apply DictFacts.get_in_keys. eauto. }
  apply DictFacts.get_in_keys in Hin. destruct Hin as [v Hv].
  destruct (H b v Hv) as [v2 [Hv2 (_ & Hs & _ & _)]].
  unfold lookup in *. rewrite Hv' in Hv2. injection Hv2 as <-.
  eapply StrFacts.subset_trans; [exact Hs|]. eapply Hdg; eauto.
Qed.

(** A refinement keeps what a box lacks. *)
Lemma refines_lacks (d' d : pydict) (b v v' : string) (c : ascii) :
  refines d' d -> lookup d b = Some v -> lookup d' b = Some v' ->
  Str.has_char c v = false -> Str.has_char c v' = false.
Proof.
  intros [_ H] Hv Hv' Hc. destruct (H b v Hv) as [v2 [Hv2 (_ & Hs & _ & _)]].
  rewrite Hv' in Hv2. injection Hv2 as <-.
  destruct (Str.has_char c v') eqn:E; [|reflexivity].
  rewrite (proj1 (StrFacts.subset_spec v' v) Hs c E) in Hc. discriminate.
Qed.

(** A refinement keeps single characters. *)
Lemma refines_single (d' d : pydict) (b : string) (c : ascii) :
  refines d' d -> lookup d b = Some (Str.chr c) ->
  lookup d' b = Some (Str.chr c).
Proof.
  intros [_ H] Hv. destruct (H b _ Hv) as [v' [Hv' (_ & _ & H1 & _)]].
  rewrite Hv'. f_equal. apply H1. reflexivity.
Qed.

Lemma refines_keys (d' d : pydict) (b : string) :
  refines d' d ->
  (In b (Dict.keys (entries d')) <-> In b (Dict.keys (entries d))).
Proof. intros [K _]. rewrite K. tauto. Qed.

Lemma lookup_key (d : pydict) (b : string) :
  In b (Dict.keys (entries d)) <-> exists v, lookup d b = Some v.
Proof. apply DictFacts.get_in_keys. Qed.

Lemma refines_none (d' d : pydict) (b : string) :
  refines d' d -> lookup d b = None -> lookup d' b = None.
Proof.
  intros R Hn. destruct (lookup d' b) as [v'|] eqn:Hv'; [|reflexivity].
  assert (Hk : In b (Dict.keys (entries d))).
  { apply (refines_keys b R). apply lookup_key. eauto. }
  apply lookup_key in Hk. destruct Hk as [v Hv]. congruence.
Qed.

Lemma candidate_map_lookup (d : pydict) (b : string) :
  candidate_map d -> In b boxes -> exists v, lookup d b = Some v.
Proof. intros [_ Hk] Hb. apply lookup_key, Hk, Hb. Qed.

Lemma getitem_ok (d : pydict) (b v : string) :
  lookup d b = Some v -> getitem b d = Ok (v, d).
Proof. unfold lookup, getitem. now intros ->. Qed.

(** A write to an existing key stores the value and touches no other key,
    whichever class [values] has. *)
Lemma setitem_ok (d : pydict) (b v old : string) :
  lookup d b = Some old ->
  exists d', setitem b v d = Ok (tt, d') /\
             entries d' = Dict.set b v (entries d) /\
             (assignments d' = None <-> assignments d = None).
Proof.
  unfold lookup, setitem, VisualizibleDict.setitem. intros Hold.
  destruct (assignments d) as [h|] eqn:Ha.
  - rewrite Hold. destruct (String.eqb_spec old v) as [->|Hne].
    + eexists. split; [reflexivity|]. simpl.
      rewrite DictFacts.set_same by assumption. split; [reflexivity|].
      split; discriminate.
    + destruct (Str.len v =? 1); eexists; (split; [reflexivity|]); simpl;
        (split; [reflexivity | split; discriminate]).
  - eexists. split; [reflexivity|]. simpl. tauto.
Qed.

Lemma setitem_narrows (d : pydict) (b v old : string) :
  lookup d b = Some old -> narrows v old ->
  exists d', setitem b v d = Ok (tt, d') /\ refines d' d /\
             lookup d' b = Some v /\
             (forall b', b' <> b -> lookup d' b' = lookup d b') /\
             entries d' = Dict.set b v (entries d).
Proof.
  intros Hold Hn. destruct (setitem_ok d b v Hold) as [d' (Hs & He & _)].
  exists d'. split; [exact Hs|]. unfold refines, lookup in *. rewrite He.
  repeat split.
  - apply DictFacts.keys_set. apply DictFacts.get_in_keys. eauto.
  - intros b0 v0 Hv0. destruct (String.eqb_spec b b0) as [<-|Hne].
    + rewrite DictFacts.get_set_same. exists v. split; [reflexivity|].
      congruence.
    + rewrite DictFacts.get_set_other by assumption.
      exists v0. split; [assumption | apply narrows_refl].
  - apply DictFacts.get_set_same.
  - intros b' Hne. apply DictFacts.get_set_other. congruence.
Qed.

(** ** Loops *)

Section Preorder.

(** A reflexive, transitive relation on maps that keeps the keys. *)
Variable rel : pydict -> pydict -> Prop.
Hypothesis rel_refl : forall d, rel d d.
Hypothesis rel_trans : forall d2 d1 d0, rel d2 d1 -> rel d1 d0 -> rel d2 d0.
Hypothesis rel_candidate_map :
  forall d' d, rel d' d -> candidate_map d -> candidate_map d'.

(** A loop whose body always falls through, keeping the relation, does
    so itself. *)
Lemma for_preorder {X R} (body : X -> M (ctl R)) (xs : list X) :
  (forall x d, In x xs -> candidate_map d ->
     exists d', body x d = Ok (Next, d') /\ rel d' d) ->
  forall d, candidate_map d ->
    exists d', for_ xs body d = Ok (Next, d') /\ rel d' d.
Proof using rel_refl rel_trans rel_candidate_map.
  induction xs as [|x xs IH]; intros Hbody d Hd; simpl.
  - exists d. split; [reflexivity | apply rel_refl].
  - destruct (Hbody x d (or_introl eq_refl) Hd) as [d1 [E1 R1]].
    destruct (IH (fun y e Hy => Hbody y e (or_intror Hy)) d1
                 (rel_candidate_map R1 Hd)) as [d2 [E2 R2]].
    exists d2. unfold bind. rewrite E1, E2. split; [reflexivity|].
    eapply rel_trans; eauto.
Qed.

End Preorder.

(** A loop returns from inside exactly when some item's body does, after
    every earlier item fell through; the items after it are not run. *)
Lemma for_return {X R} (body : X -> M (ctl R)) (xs : list X)
      (d d' : pydict) (r : R) :
  for_ xs body d = Ok (Return r, d') <->
  exists xs1 x xs2 d1,
    xs = xs1 ++ x :: xs2 /\
    for_ xs1 body d = Ok (Next, d1) /\
    body x d1 = Ok (Return r, d').
Proof.
  revert d. induction xs as [|x xs IH]; intros d; simpl.
  - split; [discriminate|]. intros (xs1 & y & xs2 & d1 & E & _).
    destruct xs1; discriminate.
  - unfold bind at 1. split.
    + destruct (body x d) as [[[|r0] d1]|e] eqn:Eb; try discriminate.
      * intros H. apply IH in H. destruct H as (xs1 & y & xs2 & d2 & -> & E1 & E2).
        exists (x :: xs1), y, xs2, d2. simpl. unfold bind. rewrite Eb.
        auto.
      * intros [= -> ->]. exists [], x, xs, d. simpl. auto.
    + intros (xs1 & y & xs2 & d1 & E & E1 & E2).
      destruct xs1 as [|x1 xs1]; simpl in E; injection E as -> ->.
      * simpl in E1. injection E1 as ->. rewrite E2. reflexivity.
      * simpl in E1. unfold bind in E1.
        destruct (body x1 d) as [[[|r0] d2]|e]; try discriminate.
        apply IH. exists xs1, y, xs2, d1. auto.
Qed.

(** ** Topology facts *)

Module Topology.

Lemma boxes_length : List.length boxes = 81.
Proof. reflexivity. Qed.

Lemma units_length : List.length units = 29.
Proof. reflexivity. Qed.

Lemma mem_In (x : string) (l : list string) : mem x l = true <-> In x l.
Proof.
  unfold mem. rewrite existsb_exists. split.
  - intros [y [Hy He]]. apply String.eqb_eq in He. now subst.
  - intros H. exists x. split; [assumption | apply String.eqb_refl].
Qed.

Lemma nodupb_NoDup (l : list string) : nodupb l = true -> NoDup l.
Proof.
  induction l as [|x l IH]; simpl; intros H; constructor.
  - apply andb_true_iff in H. destruct H as [H _].
    intros Hin. apply mem_In in Hin. rewrite Hin in H. discriminate.
  - apply IH. now apply andb_true_iff in H.
Qed.

Lemma boxes_NoDup : NoDup boxes.
Proof. apply nodupb_NoDup. vm_compute. reflexivity. Qed.

Lemma peers_in_boxes_ok : peers_in_boxes = true.
Proof. vm_compute. reflexivity. Qed.

Lemma unit_mates_are_peers_ok : unit_mates_are_peers = true.
Proof. vm_compute. reflexivity. Qed.

Lemma units_well_formed_ok : units_well_formed = true.
Proof. vm_compute. reflexivity. Qed.

Lemma unit_profile_all : forallb unit_profile boxes = true.
Proof. vm_compute. reflexivity. Qed.

(** Every box has an entry in [box_peers]; its peers are boxes other
    than itself. *)
Lemma box_peers_entry (b : string) :
  In b boxes ->
  assoc b box_peers = Some (peers b) /\
  forall p, In p (peers b) -> In p boxes /\ p <> b.
Proof.
  intros Hb. pose proof peers_in_boxes_ok as H. unfold peers_in_boxes in H.
  rewrite forallb_forall in H. specialize (H b Hb). unfold peers.
  destruct (assoc b box_peers) as [ps|]; [|discriminate].
  split; [reflexivity|]. intros p Hp. rewrite forallb_forall in H.
  specialize (H p Hp). apply andb_true_iff in H. destruct H as [H1 H2].
  split; [now apply mem_In|]. intros ->.
  rewrite String.eqb_refl in H2. discriminate.
Qed.

(** Two different boxes of one unit are peers. *)
Lemma unit_mates (u : list string) (b1 b2 : string) :
  In u units -> In b1 u -> In b2 u -> b1 <> b2 -> In b2 (peers b1).
Proof.
  intros Hu H1 H2 Hne. pose proof unit_mates_are_peers_ok as H.
  unfold unit_mates_are_peers in H. rewrite forallb_forall in H.
  specialize (H u Hu). rewrite forallb_forall in H. specialize (H b1 H1).
  rewrite forallb_forall in H. specialize (H b2 H2).
  apply orb_true_iff in H. destruct H as [H|H].
  - apply String.eqb_eq in H. contradiction.
  - now apply mem_In.
Qed.

(** A unit is nine different boxes. *)
Lemma unit_shape (u : list string) :
  In u units ->
  NoDup u /\ List.length u = 9 /\ forall b, In b u -> In b boxes.
Proof.
  intros Hu. pose proof units_well_formed_ok as H.
  unfold units_well_formed in H. rewrite forallb_forall in H.
  specialize (H u Hu). repeat rewrite andb_true_iff in H.
  destruct H as [[H1 H2] H3]. repeat split.
  - now apply nodupb_NoDup.
  - now apply Nat.eqb_eq.
  - intros b Hb. rewrite forallb_forall in H3. apply mem_In. auto.
Qed.

End Topology.

Lemma candidate_map_length (d : pydict) :
  candidate_map d -> List.length (entries d) = 81.
Proof.
  intros [Hnd Hk]. rewrite <- Topology.boxes_length.
  rewrite <- (length_map fst (entries d)). fold (Dict.keys (entries d)).
  apply Nat.le_antisymm; apply NoDup_incl_length;
    auto using Topology.boxes_NoDup; intros b Hb; apply Hk; assumption.
Qed.

(** ** Elimination *)

Section Eliminate.

(** One peer: either the removal would leave nothing, and the function
    returns [False] with [values] as it is, or the shortened string is
    stored. *)
Lemma eliminate_peer_spec (d : pydict) (c : ascii) (peer v : string) :
  lookup d peer = Some v ->
  (Str.remove_char c v = "" /\
   eliminate_peer (Str.chr c) peer d = Ok (Return RFalse, d)) \/
  (Str.remove_char c v <> "" /\
   exists d', eliminate_peer (Str.chr c) peer d = Ok (Next, d') /\
              refines d' d /\
              lookup d' peer = Some (Str.remove_char c v) /\
              forall b', b' <> peer -> lookup d' b' = lookup d b').
Proof.
  intros Hv. unfold eliminate_peer, bind.
  rewrite (getitem_ok _ _ Hv), StrFacts.replace_chr.
  destruct (String.eqb_spec (Str.remove_char c v) "") as [He|Hne].
  - left. split; [exact He | reflexivity].
  - right. split; [exact Hne|].
    destruct (setitem_narrows d peer Hv (narrows_remove c v Hne))
      as [d' (Hs & Hr & Hl & Ho & _)].
    exists d'. rewrite Hs. auto.
Qed.

(** The loop over the peers of a box holding the single character [c]. *)
Lemma eliminate_peers_spec (c : ascii) (ps : list string) :
  forall d,
    (forall p, In p ps -> In p (Dict.keys (entries d))) ->
    exists r d',
      for_ ps (eliminate_peer (Str.chr c)) d = Ok (r, d') /\
      refines d' d /\
      match r with
      | Next => forall p v, In p ps -> lookup d' p = Some v ->
                            Str.has_char c v = false
      | Return r => r = RFalse
      end.
Proof.
  induction ps as [|p ps IH]; intros d Hps; simpl.
  - exists Next, d. split; [reflexivity|]. split; [apply refines_refl|].
    intros p v [].
  - destruct (proj1 (lookup_key d p) (Hps p (or_introl eq_refl))) as [v Hv].
    destruct (eliminate_peer_spec d c p Hv)
      as [[He E]|[Hne (d1 & E & R1 & L1 & O1)]]; unfold bind; rewrite E.
    + exists (Return RFalse), d. split; [reflexivity|].
      split; [apply refines_refl | reflexivity].
    + assert (Hps1 : forall q, In q ps -> In q (Dict.keys (entries d1))).
      { intros q Hq. apply (refines_keys q R1). apply Hps. now right. }
      destruct (IH d1 Hps1) as (r & d2 & E2 & R2 & Hpost).
      exists r, d2. split; [exact E2|]. split; [eapply refines_trans; eauto|].
      destruct r as [|r]; [|exact Hpost].
      intros q w [<-|Hq] Hw.
      * eapply refines_lacks; eauto. apply StrFacts.has_char_remove_same.
      * eapply Hpost; eauto.
Qed.

Lemma remove_char_twice (c : ascii) (v : string) :
  Str.remove_char c (Str.remove_char c v) = Str.remove_char c v.
Proof.
  apply StrFacts.remove_absent, StrFacts.has_char_remove_same.
Qed.

(** What the loop over the peers does, stated by membership only: it
    returns [False] when some listed peer would be emptied, and otherwise
    strikes the character from exactly the listed peers. *)
Lemma eliminate_peers_extensional (c : ascii) (ps : list string) :
  forall d,
    (forall p, In p ps -> In p (Dict.keys (entries d))) ->
    match for_ ps (eliminate_peer (Str.chr c)) d with
    | Ok (Next, d') =>
        (forall p v, In p ps -> lookup d p = Some v ->
                     Str.remove_char c v <> "") /\
        (forall b v, lookup d b = Some v ->
                     lookup d' b
                     = Some (if mem b ps then Str.remove_char c v else v))
    | Ok (Return r, _) =>
        r = RFalse /\
        exists p v, In p ps /\ lookup d p = Some v /\
                    Str.remove_char c v = ""
    | Raise _ => False
    end.
Proof.
  induction ps as [|p ps IH]; intros d Hps; cbn [for_].
  - unfold ret. split; [intros p v []|]. intros b v Hv. exact Hv.
  - destruct (proj1 (lookup_key d p) (Hps p (or_introl eq_refl))) as [v Hv].
    destruct (eliminate_peer_spec d c p Hv)
      as [[He E]|[Hne (d1 & E & R1 & L1 & O1)]]; unfold bind; rewrite E.
    + unfold ret. split; [reflexivity|]. exists p, v. simpl. auto.
    + assert (Hps1 : forall q, In q ps -> In q (Dict.keys (entries d1))).
      { intros q Hq. apply (refines_keys q R1). apply Hps. now right. }
      specialize (IH d1 Hps1).
      destruct (for_ ps (eliminate_peer (Str.chr c)) d1)
        as [[[|r] d2]|e]; [| |contradiction].
      * destruct IH as [IH1 IH2]. split.
        { intros q w [<-|Hq] Hw.
          - rewrite Hv in Hw. injection Hw as <-. exact Hne.
          - destruct (String.eqb_spec q p) as [->|Hqp].
            + rewrite Hv in Hw. injection Hw as <-. exact Hne.
            + apply (IH1 q w Hq). rewrite (O1 q Hqp). exact Hw. }
        { intros b w Hw. cbn [mem existsb].
          destruct (String.eqb_spec b p) as [->|Hbp].
          - rewrite Hv in Hw. injection Hw as <-.
            rewrite (IH2 p _ L1), remove_char_twice.
            cbn [orb]. destruct (mem p ps); reflexivity.
          - cbn [orb]. apply IH2. rewrite (O1 b Hbp). exact Hw. }
      * destruct IH as [-> (q & w & Hq & Hw & He)]. split; [reflexivity|].
        destruct (String.eqb_spec q p) as [->|Hqp].
        { rewrite L1 in Hw. injection Hw as <-.
          rewrite remove_char_twice in He. contradiction. }
        { exists q, w. rewrite (O1 q Hqp) in Hw. simpl. auto. }
Qed.

(** Python does not fix the order in which the set [box_peers[box]] is
    iterated.  Any two listings of the same peers make the loop return
    the same value and, when it falls through, leave the same candidates
    in every box. *)
Lemma eliminate_peers_any_order (c : ascii) (ps ps' : list string)
      (d : pydict) :
  (forall p, In p ps <-> In p ps') ->
  (forall p, In p ps -> In p (Dict.keys (entries d))) ->
  match for_ ps (eliminate_peer (Str.chr c)) d,
        for_ ps' (eliminate_peer (Str.chr c)) d with
  | Ok (Next, d1), Ok (Next, d2) => forall b, lookup d1 b = lookup d2 b
  | Ok (Return r1, _), Ok (Return r2, _) => r1 = r2
  | _, _ => False
  end.
Proof.
  intros Hsame Hps.
  assert (Hps' : forall p, In p ps' -> In p (Dict.keys (entries d))).
  { intros p Hp. apply Hps, Hsame, Hp. }
  assert (Hmem : forall b, mem b ps = mem b ps').
  { intros b. destruct (mem b ps) eqn:H1, (mem b ps') eqn:H2; auto.
    - apply Topology.mem_In, Hsame, Topology.mem_In in H1. congruence.
    - apply Topology.mem_In, Hsame, Topology.mem_In in H2. congruence. }
  pose proof (eliminate_peers_extensional c ps d Hps) as H1.
  pose proof (eliminate_peers_extensional c ps' d Hps') as H2.
  destruct (eliminate_peers_spec c ps d Hps) as (r1 & d1 & E1 & R1 & _).
  destruct (eliminate_peers_spec c ps' d Hps') as (r2 & d2 & E2 & R2 & _).
  rewrite E1 in H1 |- *. rewrite E2 in H2 |- *.
  destruct r1 as [|r1], r2 as [|r2].
  - destruct H1 as [_ H1], H2 as [_ H2]. intros b.
    destruct (lookup d b) as [v|] eqn:Hv.
    + rewrite (H1 b v Hv), (H2 b v Hv), Hmem. reflexivity.
    + rewrite (@refines_none d1 d b R1 Hv), (@refines_none d2 d b R2 Hv).
      reflexivity.
  - destruct H2 as [_ (p & v & Hp & Hv & He)], H1 as [H1 _].
    apply Hsame in Hp. exact (H1 p v Hp Hv He).
  - destruct H1 as [_ (p & v & Hp & Hv & He)], H2 as [H2 _].
    apply Hsame in Hp. exact (H2 p v Hp Hv He).
  - destruct H1 as [-> _], H2 as [-> _]. reflexivity.
Qed.

(** One item of the loop over the boxes. *)
Lemma eliminate_box_spec (d : pydict) (box : string) :
  candidate_map d -> In box boxes ->
  exists r d',
    eliminate_box box d = Ok (r, d') /\
    refines d' d /\
    match r with
    | Next => forall c p v, lookup d box = Some (Str.chr c) ->
                            In p (peers box) -> lookup d' p = Some v ->
                            Str.has_char c v = false
    | Return r => r = RFalse
    end.
Proof.
  intros Hd Hbox. destruct (candidate_map_lookup Hd Hbox) as [bv Hbv].
  unfold eliminate_box, bind. rewrite (getitem_ok _ _ Hbv).
  destruct (Str.len bv =? 1) eqn:Hlen.
  - apply Nat.eqb_eq, StrFacts.len_one in Hlen. destruct Hlen as [c ->].
    destruct (Topology.box_peers_entry Hbox) as [Hp Hin].
    unfold const_getitem. rewrite Hp. unfold ret at 1.
    assert (Hps : forall p, In p (peers box) -> In p (Dict.keys (entries d))).
    { intros p Hpin. apply (proj2 Hd). apply Hin. exact Hpin. }
    destruct (eliminate_peers_spec c (peers box) d Hps) as (r & d' & E & R & Hpost).
    exists r, d'. split; [exact E|]. split; [exact R|].
    destruct r as [|r]; [|exact Hpost].
    intros c' p v Hc' Hpin Hv. rewrite Hbv in Hc'. injection Hc' as <-.
    eapply Hpost; eauto.
  - exists Next, d. split; [reflexivity|]. split; [apply refines_refl|].
    intros c p v Hc. rewrite Hbv in Hc. injection Hc as ->. discriminate.
Qed.

(** The loop over the boxes: on falling through, every box of the list
    that held a single character at the start has had it struck from
    all its peers. *)
Lemma eliminate_loop_spec (ks : list string) :
  forall d,
    candidate_map d -> (forall b, In b ks -> In b boxes) ->
    exists r d',
      for_ ks eliminate_box d = Ok (r, d') /\
      refines d' d /\
      match r with
      | Next => forall b c p v, In b ks -> lookup d b = Some (Str.chr c) ->
                                In p (peers b) -> lookup d' p = Some v ->
                                Str.has_char c v = false
      | Return r => r = RFalse
      end.
Proof.
  induction ks as [|k ks IH]; intros d Hd Hks; simpl.
  - exists Next, d. split; [reflexivity|]. split; [apply refines_refl|].
    intros b c p v [].
  - destruct (eliminate_box_spec Hd (Hks k (or_introl eq_refl)))
      as (r1 & d1 & E1 & R1 & P1).
    unfold bind. rewrite E1. destruct r1 as [|r1].
    + destruct (IH d1 (refines_candidate_map R1 Hd)
                   (fun b Hb => Hks b (or_intror Hb)))
        as (r2 & d2 & E2 & R2 & P2).
      exists r2, d2. split; [exact E2|].
      split; [eapply refines_trans; eauto|].
      destruct r2 as [|r2]; [|exact P2].
      intros b c p v [<-|Hb] Hc Hp Hv.
      * destruct (Topology.box_peers_entry (Hks k (or_introl eq_refl)))
          as [_ Hin].
        destruct (candidate_map_lookup (refines_candidate_map R1 Hd)
                    (proj1 (Hin p Hp))) as [v1 Hv1].
        eapply refines_lacks; eauto.
      * eapply P2; eauto. eapply refines_single; eauto.
    + exists (Return r1), d1. split; [reflexivity|]. split; [exact R1|exact P1].
Qed.

(** [eliminate] never raises on a candidate map; it refines the map, and
    when it returns the map, every digit that stood alone in a box at
    entry is gone from all peers of that box. *)
Lemma eliminate_spec (d : pydict) :
  candidate_map d ->
  exists r d',
    eliminate d = Ok (r, d') /\
    refines d' d /\
    (r = RValues ->
     forall b c p v, lookup d b = Some (Str.chr c) ->
                     In p (peers b) -> lookup d' p = Some v ->
                     Str.has_char c v = false).
Proof.
  intros Hd. unfold eliminate, bind, get_keys.
  destruct (eliminate_loop_spec (Dict.keys (entries d)) Hd
              (fun b => proj1 (proj2 Hd b)))
    as (r & d' & E & R & P).
  rewrite E. destruct r as [|r].
  - exists RValues, d'. split; [reflexivity|]. split; [exact R|].
    intros _ b c p v Hb Hp Hv. apply (P b c p v); auto.
    apply lookup_key. eauto.
  - subst r. exists RFalse, d'. split; [reflexivity|]. split; [exact R|].
    discriminate.
Qed.

End Eliminate.

(** ** Only choice *)

Lemma forced_refl (v : string) : forced v v.
Proof. now left. Qed.

Lemma forced_trans (a b c : string) : forced a b -> forced b c -> forced a c.
Proof.
  intros [->|[x [-> Hx]]] H; [exact H|].
  destruct H as [->|[y [-> Hy]]].
  - right. eauto.
  - apply StrFacts.has_char_chr in Hx. subst. right. eauto.
Qed.

Lemma forced_narrows (v' v : string) : forced v' v -> narrows v' v.
Proof.
  intros [->|[c [-> Hc]]]; [apply narrows_refl | now apply narrows_chr].
Qed.

Lemma forces_refl (d : pydict) : forces d d.
Proof.
  split; [reflexivity|]. intros b v H. exists v. split; [exact H|].
  apply forced_refl.
Qed.

Lemma forces_trans (d2 d1 d0 : pydict) :
  forces d2 d1 -> forces d1 d0 -> forces d2 d0.
Proof.
  intros [K2 H2] [K1 H1]. split; [congruence|].
  intros b v Hv. destruct (H1 b v Hv) as [v1 [Hv1 N1]].
  destruct (H2 b v1 Hv1) as [v2 [Hv2 N2]].
  exists v2. split; [exact Hv2|]. eapply forced_trans; eauto.
Qed.

Lemma forces_refines (d' d : pydict) : forces d' d -> refines d' d.
Proof.
  intros [K H]. split; [exact K|]. intros b v Hv.
  destruct (H b v Hv) as [v' [Hv' F]]. exists v'.
  split; [exact Hv' | now apply forced_narrows].
Qed.

Lemma forces_candidate_map (d' d : pydict) :
  forces d' d -> candidate_map d -> candidate_map d'.
Proof. intros H. apply refines_candidate_map. now apply forces_refines. Qed.

Lemma digit_boxes_spec (d : pydict) (c : ascii) (unit : list string) :
  (forall b, In b unit -> In b (Dict.keys (entries d))) ->
  digit_boxes_of unit (Str.chr c) d = Ok (listing d c unit, d).
Proof.
  unfold digit_boxes_of, listing, bind, ret.
  induction unit as [|b unit IH]; intros Hu; simpl; [reflexivity|].
  destruct (proj1 (lookup_key d b) (Hu b (or_introl eq_refl))) as [v Hv].
  unfold bind, ret. cbv beta.
  rewrite (getitem_ok _ _ Hv), IH by (intros; apply Hu; now right).
  rewrite Hv, StrFacts.substring_chr. reflexivity.
Qed.

(** One digit of one unit: the map changes, if at all, by one box being
    forced to a digit it listed. *)
Lemma only_choice_digit_spec (d : pydict) (unit : list string) (digit : string) :
  In digit (Str.chars "123456789") ->
  (forall b, In b unit -> In b (Dict.keys (entries d))) ->
  exists d', only_choice_digit unit digit d = Ok (Next, d') /\ forces d' d.
Proof.
  intros Hdigit Hu. apply StrFacts.chars_chr in Hdigit.
  destruct Hdigit as [c [-> _]].
  unfold only_choice_digit, bind. rewrite (digit_boxes_spec d c unit Hu).
  destruct (listing d c unit) as [|box [|box' l]] eqn:Hl;
    try (exists d; split; [reflexivity | apply forces_refl]).
  assert (Hin : In box (listing d c unit)) by (rewrite Hl; now left).
  apply filter_In in Hin. destruct Hin as [_ Hc].
  destruct (lookup d box) as [v|] eqn:Hv; [|discriminate].
  destruct (setitem_narrows d box Hv (narrows_chr c v Hc))
    as [d' (Hs & [K _] & Hl' & Ho & _)].
  exists d'. rewrite Hs. split; [reflexivity|]. split; [exact K|].
  intros b w Hw. destruct (String.eqb_spec b box) as [->|Hne].
  - exists (Str.chr c). split; [exact Hl'|]. right. exists c.
    rewrite Hv in Hw. injection Hw as <-. auto.
  - exists w. rewrite (Ho b Hne). split; [exact Hw | apply forced_refl].
Qed.

Lemma for_forces {X R} (body : X -> M (ctl R)) (xs : list X) :
  (forall x d, In x xs -> candidate_map d ->
     exists d', body x d = Ok (Next, d') /\ forces d' d) ->
  forall d, candidate_map d ->
    exists d', for_ xs body d = Ok (Next, d') /\ forces d' d.
Proof.
  exact (@for_preorder forces forces_refl forces_trans forces_candidate_map
           X R body xs).
Qed.

(** [only_choice] never raises on a candidate map and always returns the
    map, in which boxes were at most forced to one of their candidates. *)
Lemma only_choice_spec (d : pydict) :
  candidate_map d ->
  exists d', only_choice d = Ok (RValues, d') /\ forces d' d.
Proof.
  intros Hd. unfold only_choice, bind.
  destruct (@for_forces _ retv
              (fun unit => for_ (Str.chars "123456789") (only_choice_digit unit))
              units) with (d := d) as [d' [E F]]; [|exact Hd|].
  - intros u e Hu He. apply for_forces; [|exact He].
    intros digit e' Hdigit He'. apply only_choice_digit_spec; [exact Hdigit|].
    intros b Hb. apply (proj2 He'). apply (Topology.unit_shape Hu). exact Hb.
  - exists d'. rewrite E. auto.
Qed.

(** ** The reduction loop *)

Lemma refines_solved_count (d' d : pydict) :
  candidate_map d -> refines d' d ->
  solved_count (entries d) <= solved_count (entries d').
Proof.
  intros [Hnd _] R. apply DictFacts.solved_count_mono; [exact Hnd | apply R|].
  intros k v Hv Hlen. apply StrFacts.len_one in Hlen. destruct Hlen as [c ->].
  eapply refines_single; eauto.
Qed.

Lemma candidate_map_truthy (d : pydict) :
  candidate_map d -> truthy RValues d = true.
Proof.
  intros Hd. apply candidate_map_length in Hd. simpl.
  destruct (entries d); [discriminate | reflexivity].
Qed.

Lemma struck_refines (d d1 d' : pydict) :
  candidate_map d -> struck d d1 -> refines d' d1 -> struck d d'.
Proof.
  intros Hd HS R b c p v Hb Hp Hv.
  assert (Hin : In p (Dict.keys (entries d1))).
  { apply (refines_keys p R). apply lookup_key. eauto. }
  apply lookup_key in Hin. destruct Hin as [v1 Hv1].
  eapply refines_lacks; eauto.
Qed.

Lemma reduce_pass_spec (d : pydict) :
  candidate_map d ->
  exists p d',
    reduce_pass d = Ok (p, d') /\ refines d' d /\ pass_post d p d'.
Proof.
  intros Hd. unfold reduce_pass, bind, get_solved_count.
  destruct (eliminate_spec Hd) as (r & d1 & E1 & R1 & P1). rewrite E1.
  pose proof (refines_candidate_map R1 Hd) as Hd1.
  destruct r.
  - exists EliminateFailed, d1. simpl. auto.
  - rewrite (candidate_map_truthy Hd1). simpl negb. cbv iota.
    destruct (only_choice_spec Hd1) as (d2 & E2 & F2). rewrite E2.
    pose proof (forces_refines F2) as R2.
    pose proof (refines_candidate_map R2 Hd1) as Hd2.
    rewrite (candidate_map_truthy Hd2). simpl negb. cbv iota.
    pose proof (refines_trans R2 R1) as R.
    pose proof (refines_solved_count Hd R) as Hle.
    assert (HS : struck d d2)
      by (eapply struck_refines; [exact Hd | exact (P1 eq_refl) | exact R2]).
    unfold ret.
    destruct (solved_count (entries d2) =? solved_count (entries d)) eqn:Hc.
    + exists Stalled, d2. apply Nat.eqb_eq in Hc. simpl. auto.
    + exists Progress, d2. apply Nat.eqb_neq in Hc. simpl.
      split; [reflexivity|]. split; [exact R|]. split; [lia | exact HS].
Qed.

Lemma reduce_puzzle_loop_spec (fuel : nat) :
  forall d,
    candidate_map d ->
    81 - solved_count (entries d) < fuel ->
    exists r d',
      reduce_puzzle_loop fuel d = Some (Ok (r, d')) /\
      refines d' d /\
      (r = RValues -> stalled_at d d').
Proof.
  induction fuel as [|fuel IH]; intros d Hd Hfuel; [lia|].
  simpl. destruct (reduce_pass_spec Hd) as (p & d1 & E & R & P).
  rewrite E. destruct p; simpl in P.
  - exists RFalse, d1. split; [reflexivity|]. split; [exact R | discriminate].
  - contradiction.
  - exists RValues, d1. split; [reflexivity|]. split; [exact R|]. intros _.
    exists d. destruct P as [P1 P2].
    split; [apply refines_refl|]. split; [exact R|]. split; assumption.
  - destruct P as [Hlt HS].
    pose proof (refines_candidate_map R Hd) as Hd1.
    pose proof (DictFacts.solved_count_le (entries d1)) as Hle.
    rewrite (candidate_map_length Hd1) in Hle.
    destruct (IH d1 Hd1) as (r & d2 & E2 & R2 & P2); [lia|].
    exists r, d2. split; [exact E2|]. split; [eapply refines_trans; eauto|].
    intros Hr. destruct (P2 Hr) as (dk & K1 & K2 & K3 & K4).
    exists dk. split; [eapply refines_trans; eauto|]. auto.
Qed.

(** More passes than needed change nothing. *)
Lemma reduce_puzzle_loop_more (fuel : nat) :
  forall d res,
    reduce_puzzle_loop fuel d = Some res ->
    forall fuel', fuel <= fuel' -> reduce_puzzle_loop fuel' d = Some res.
Proof.
  induction fuel as [|fuel IH]; intros d res H fuel' Hle; [discriminate|].
  destruct fuel' as [|fuel']; [lia|]. simpl in *.
  destruct (reduce_pass d) as [[[] d1]|e]; auto. apply (IH _ _ H). lia.
Qed.

Lemma reduce_puzzle_spec (d : pydict) :
  candidate_map d ->
  exists r d',
    reduce_puzzle d = Some (Ok (r, d')) /\
    refines d' d /\
    (r = RValues -> stalled_at d d').
Proof.
  intros Hd. unfold reduce_puzzle. apply reduce_puzzle_loop_spec; [exact Hd|].
  rewrite (candidate_map_length Hd). lia.
Qed.

(** ** Solved maps *)

Lemma all_single_count (d : pydict) :
  candidate_map d -> all_single d ->
  solved_count (entries d) = List.length (entries d).
Proof.
  intros Hd Ha. apply DictFacts.solved_count_all. intros k v Hin.
  pose proof (DictFacts.in_get k v (entries d) (proj1 Hd) Hin) as Hg.
  assert (Hk : In k boxes).
  { apply (proj2 Hd). apply lookup_key. eauto. }
  destruct (Ha k Hk) as [c Hc]. unfold lookup in Hc. rewrite Hg in Hc.
  injection Hc as ->. reflexivity.
Qed.

(** A map that came out of a pass which solved nothing, and in which
    every box is solved, has no two equal peers. *)
Lemma stalled_consistent (dk d' : pydict) :
  candidate_map dk -> refines d' dk ->
  solved_count (entries d') = solved_count (entries dk) ->
  struck dk d' -> all_single d' -> consistent d'.
Proof.
  intros Hdk R Hc HS Ha b p c Hb Hp Hbc Hpc.
  pose proof (refines_candidate_map R Hdk) as Hd'.
  rewrite (all_single_count Hd' Ha), (candidate_map_length Hd') in Hc.
  rewrite <- (candidate_map_length Hdk) in Hc. symmetry in Hc.
  destruct (candidate_map_lookup Hdk Hb) as [v Hv].
  pose proof (DictFacts.solved_count_full _ Hc _ Hv) as Hlen.
  apply StrFacts.len_one in Hlen. destruct Hlen as [c0 ->].
  pose proof (@refines_single _ _ _ _ R Hv) as Hv'. rewrite Hbc in Hv'.
  injection Hv' as <-.
  pose proof (HS b c p _ Hv Hp Hpc) as Hlack.
  simpl in Hlack. rewrite Ascii.eqb_refl in Hlack. discriminate.
Qed.

Lemma filter_at_most_one {X} (p : X -> bool) (u : list X) :
  NoDup u ->
  (forall x y, In x u -> In y u -> p x = true -> p y = true -> x = y) ->
  List.length (filter p u) <= 1.
Proof.
  induction u as [|x u IH]; intros Hnd Hinj; simpl; [lia|].
  inversion Hnd as [|? ? Hnotin Hnd']; subst.
  assert (IH' : List.length (filter p u) <= 1).
  { apply IH; auto. intros; apply Hinj; simpl; auto. }
  destruct (p x) eqn:Hx; [|exact IH'].
  destruct (filter p u) as [|y l] eqn:Hf; simpl; [lia|].
  assert (Hy : In y (filter p u)) by (rewrite Hf; now left).
  apply filter_In in Hy. destruct Hy as [Hy Hpy].
  exfalso. apply Hnotin.
  rewrite (Hinj x y (or_introl eq_refl) (or_intror Hy) Hx Hpy). exact Hy.
Qed.

Lemma filter_at_least_one {X} (p : X -> bool) (u : list X) (x : X) :
  In x u -> p x = true -> 1 <= List.length (filter p u).
Proof.
  intros Hin Hp.
  assert (H : In x (filter p u)) by (apply filter_In; auto).
  destruct (filter p u); [contradiction | simpl; lia].
Qed.

Lemma NoDup_map_on {X Y} (f : X -> Y) (u : list X) :
  NoDup u ->
  (forall x y, In x u -> In y u -> f x = f y -> x = y) ->
  NoDup (map f u).
Proof.
  induction u as [|x u IH]; intros Hnd Hinj; simpl; constructor.
  - intros Hin. apply in_map_iff in Hin. destruct Hin as [y [Hy Hyu]].
    inversion Hnd; subst. assert (y = x) by (apply Hinj; simpl; auto).
    subst. contradiction.
  - inversion Hnd; subst. apply IH; auto.
    intros a b Ha Hb. apply Hinj; now right.
Qed.

(** One digit per box, no two peers alike: every unit holds each digit
    exactly once. *)
Lemma solved_grid_intro (d : pydict) :
  candidate_map d -> digits_only d -> all_single d -> consistent d ->
  solved_grid d.
Proof.
  intros Hd Hdg Ha Hc.
  assert (Hbox : forall b, In b boxes ->
            exists digit, In digit (Str.chars "123456789") /\
                          lookup d b = Some digit).
  { intros b Hb. destruct (Ha b Hb) as [c Hv]. exists (Str.chr c).
    split; [|exact Hv]. apply StrFacts.chars_has.
    rewrite <- StrFacts.subset_chr. eapply Hdg; eauto. }
  split; [exact Hbox|].
  intros u digit Hu Hdigit.
  destruct (Topology.unit_shape Hu) as (Hnd & Hlen & Hub).
  set (val := fun b => match lookup d b with Some v => v | None => "" end).
  assert (Hinj : forall b1 b2, In b1 u -> In b2 u -> val b1 = val b2 -> b1 = b2).
  { intros b1 b2 H1 H2 Hv.
    destruct (String.eqb_spec b1 b2) as [|Hne]; [assumption|]. exfalso.
    destruct (Ha b1 (Hub b1 H1)) as [c1 Hc1].
    unfold val in Hv. rewrite Hc1 in Hv.
    destruct (lookup d b2) as [v2|] eqn:Hv2.
    - subst v2. exact (Hc b1 b2 c1 (Hub b1 H1)
                         (Topology.unit_mates Hu H1 H2 Hne) Hc1 Hv2).
    - discriminate. }
  assert (Hvals : NoDup (map val u)) by (apply NoDup_map_on; assumption).
  assert (Hincl : incl (map val u) (Str.chars "123456789")).
  { intros v Hv. apply in_map_iff in Hv. destruct Hv as [b [<- Hb]].
    destruct (Hbox b (Hub b Hb)) as [dg [Hdg1 Hdg2]]. unfold val.
    rewrite Hdg2. exact Hdg1. }
  assert (Hall : incl (Str.chars "123456789") (map val u)).
  { apply NoDup_length_incl; auto. rewrite length_map, Hlen. simpl. lia. }
  apply Hall, in_map_iff in Hdigit. destruct Hdigit as [b [Hbv Hb]].
  unfold occurrences. apply Nat.le_antisymm.
  - apply filter_at_most_one; [exact Hnd|].
    intros x y Hx Hy Px Py. apply Hinj; auto. unfold val.
    destruct (lookup d x); [|discriminate]. destruct (lookup d y); [|discriminate].
    apply String.eqb_eq in Px, Py. congruence.
  - apply filter_at_least_one with (x := b); [exact Hb|].
    unfold val in Hbv. destruct (lookup d b) as [v|] eqn:Hv.
    + subst. apply String.eqb_refl.
    + destruct (Hbox b (Hub b Hb)) as [dg [_ Hdg2]]. congruence.
Qed.

(** ** Search *)

Lemma candidates_lookup (d : pydict) (b v : string) :
  lookup d b = Some v -> candidates d b = v.
Proof. unfold candidates. now intros ->. Qed.

Lemma any_unsolved_spec (bs : list string) (d : pydict) :
  (forall b, In b bs -> In b (Dict.keys (entries d))) ->
  exists r,
    any_unsolved bs d = Ok (r, d) /\
    (r = false -> forall b, In b bs -> exists c, lookup d b = Some (Str.chr c)) /\
    (r = true -> exists b, In b bs /\ Str.len (candidates d b) <> 1).
Proof.
  induction bs as [|b bs IH]; intros Hbs; simpl.
  - exists false. split; [reflexivity|]. split; [intros _ b []|discriminate].
  - destruct (proj1 (lookup_key d b) (Hbs b (or_introl eq_refl))) as [v Hv].
    unfold bind. rewrite (getitem_ok _ _ Hv).
    destruct (Str.len v =? 1) eqn:Hlen; simpl.
    + destruct IH as (r & E & F & T); [intros; apply Hbs; now right|].
      exists r. split; [exact E|]. split.
      * intros Hr b' [<-|Hb']; [|now apply F].
        apply Nat.eqb_eq, StrFacts.len_one in Hlen. destruct Hlen as [c ->].
        eauto.
      * intros Hr. destruct (T Hr) as [b' [Hb' Hl]]. exists b'. split; auto.
    + exists true. split; [reflexivity|]. split; [discriminate|]. intros _.
      exists b. split; [now left|]. rewrite (candidates_lookup  _ _ Hv).
      now apply Nat.eqb_neq.
Qed.

Lemma unsolved_tuples_spec (bs : list string) (d : pydict) :
  (forall b, In b bs -> In b (Dict.keys (entries d))) ->
  unsolved_tuples bs d
  = Ok (map (fun b => (b, Str.len (candidates d b))) (unsolved d bs), d).
Proof.
  unfold unsolved. induction bs as [|b bs IH]; intros Hbs; simpl; [reflexivity|].
  destruct (proj1 (lookup_key d b) (Hbs b (or_introl eq_refl))) as [v Hv].
  unfold bind. rewrite (getitem_ok _ _ Hv), (candidates_lookup _ _ Hv).
  destruct (1 <? Str.len v); simpl.
  - rewrite (getitem_ok _ _ Hv), IH by (intros; apply Hbs; now right).
    unfold ret. rewrite (candidates_lookup _ _ Hv). reflexivity.
  - apply IH. intros; apply Hbs; now right.
Qed.

Lemma fold_min_in (l : list (string * nat)) (x : string * nat) :
  In (fold_left (fun m y => if tuple_ltb y m then y else m) l x) (x :: l).
Proof.
  revert x. induction l as [|y l IH]; intros x; simpl; [now left|].
  destruct (tuple_ltb y x).
  - right. apply IH.
  - destruct (IH x) as [H|H]; [now left | right; now right].
Qed.

(** On a map with an unsolved box, [choose_box] returns a box with more
    than one candidate and leaves the map alone. *)
Lemma choose_box_total (d : pydict) :
  candidate_map d -> unsolved d boxes <> [] ->
  exists box, choose_box d = Ok (box, d) /\ In box (unsolved d boxes).
Proof.
  intros Hd Hne. unfold choose_box, bind.
  rewrite unsolved_tuples_spec by (intros b Hb; now apply (proj2 Hd)).
  destruct (unsolved d boxes) as [|b l] eqn:Hu; [congruence|]. simpl map.
  unfold py_min, ret.
  match goal with |- context [fold_left ?f ?l ?x] =>
    pose proof (fold_min_in l x) as Hin; destruct (fold_left f l x) as [box n]
  end.
  exists box. split; [reflexivity|]. simpl fst.
  change (In (box, n) (map (fun b => (b, Str.len (candidates d b))) (b :: l)))
    in Hin.
  apply in_map_iff in Hin. destruct Hin as [b' [[= <- _] Hb']]. exact Hb'.
Qed.

Section SearchChildrenFacts.

Variable recurse : pydict -> option (outcome sresult).
Variable values : pydict.
Variable box : string.
Variable Post : sresult -> Prop.

(** If every branch returns, the loop returns: the first truthy
    attempt, or [None] once all are exhausted. *)
Lemma search_children_spec (vs : list string) :
  (forall value, In value vs ->
     exists child r,
       setitem box value (copy values) = Ok (tt, child) /\
       recurse child = Some (Ok r) /\
       (sresult_truthy r = true -> Post r)) ->
  exists r,
    search_children recurse values box vs = Some (Ok r) /\
    (r = SNone \/ (sresult_truthy r = true /\ Post r)).
Proof.
  induction vs as [|value vs IH]; intros H; cbn [search_children].
  - exists SNone. auto.
  - destruct (H value (or_introl eq_refl)) as (child & r & E1 & E2 & P).
    rewrite E1, E2. destruct (sresult_truthy r) eqn:Ht.
    + exists r. auto.
    + apply IH. intros v Hv. apply H. now right.
Qed.

End SearchChildrenFacts.

Lemma search_post_refines (d' d : pydict) (r : sresult) :
  refines d' d -> search_post d' r -> search_post d r.
Proof.
  intros R. destruct r as [| |m]; simpl; auto.
  intros (R' & A & C). split; [eapply refines_trans; eauto | auto].
Qed.

(** [search] returns on every candidate map without empty boxes, given a
    depth bound above the number of unsolved boxes; it never raises; a
    dictionary it returns is solved and free of clashes. *)
Lemma search_spec (fuel : nat) :
  forall d,
    candidate_map d -> nonempty d ->
    81 - solved_count (entries d) < fuel ->
    exists r, search fuel d = Some (Ok r) /\ search_post d r.
Proof.
  induction fuel as [|fuel IH]; intros d Hd Hne Hfuel; [lia|].
  cbn [search].
  destruct (reduce_puzzle_spec Hd) as (r & d1 & E & R & P). rewrite E.
  pose proof (refines_candidate_map R Hd) as Hd1.
  pose proof (refines_nonempty R Hne) as Hne1.
  destruct r.
  { exists SFalse. simpl. auto. }
  rewrite (candidate_map_truthy Hd1). cbn [negb].
  destruct (any_unsolved_spec boxes d1) as (u & Eu & Fu & Tu);
    [intros b Hb; now apply (proj2 Hd1)|].
  rewrite Eu. destruct u.
  - (* some box is unsolved: branch *)
    destruct (Tu eq_refl) as [b0 [Hb0 Hlen0]].
    assert (Hun : unsolved d1 boxes <> []).
    { intros Hnil.
      assert (Hin : In b0 (unsolved d1 boxes)).
      { apply filter_In. split; [exact Hb0|]. apply Nat.ltb_lt.
        destruct (candidate_map_lookup Hd1 Hb0) as [v Hv].
        rewrite (candidates_lookup _ _ Hv) in *.
        pose proof (Hne1 _ _ Hv) as Hnz.
        destruct v as [|a [|a' v]].
        - congruence.
        - exfalso. apply Hlen0. reflexivity.
        - unfold Str.len. cbn [String.length]. lia. }
      rewrite Hnil in Hin. contradiction. }
    destruct (choose_box_total Hd1 Hun) as (box & Ec & Hbox).
    apply filter_In in Hbox. destruct Hbox as [Hbox Hlen].
    apply Nat.ltb_lt in Hlen.
    destruct (candidate_map_lookup Hd1 Hbox) as [v Hv].
    rewrite (candidates_lookup _ _ Hv) in Hlen.
    unfold bind at 1. rewrite Ec.
    unfold bind at 1. rewrite (getitem_ok _ _ Hv). unfold ret.
    destruct (@search_children_spec (search fuel) d1 box (search_post d1)
                (Str.chars v)) as (res & Er & Pr).
    + intros value Hvalue. apply StrFacts.chars_chr in Hvalue.
      destruct Hvalue as [c [-> Hc]].
      destruct (setitem_narrows (copy d1) box (old := v)
                  Hv (narrows_chr c v Hc))
        as (child & Es & Rc & Lc & Oc & Ent).
      assert (Rc1 : refines child d1) by exact Rc.
      pose proof (refines_candidate_map Rc1 Hd1) as Hdc.
      assert (Hsc : solved_count (entries child)
                    = S (solved_count (entries d1))).
      { rewrite Ent. apply (DictFacts.solved_count_set_new _ _ (old := v)).
        - exact Hv.
        - lia.
        - reflexivity. }
      pose proof (DictFacts.solved_count_le (entries child)) as Hle.
      rewrite (candidate_map_length Hdc) in Hle.
      pose proof (refines_solved_count Hd R) as Hmono.
      destruct (IH child Hdc (refines_nonempty Rc1 Hne1)) as (r & Er & Pr);
        [lia|].
      exists child, r. split; [exact Es|]. split; [exact Er|].
      intros _. eapply search_post_refines; eauto.
    + rewrite Er. exists res. split; [reflexivity|].
      destruct Pr as [->|[_ Pr]]; [exact I|].
      eapply search_post_refines; eauto.
  - (* every box is solved *)
    exists (SDict d1). split; [reflexivity|]. simpl.
    split; [exact R|]. pose proof (Fu eq_refl) as Ha. split; [exact Ha|].
    destruct (P eq_refl) as (dk & K1 & K2 & K3 & K4).
    apply (@stalled_consistent dk d1); auto.
    exact (refines_candidate_map K1 Hd).
Qed.

(** A deeper bound changes nothing once [search] has returned. *)
Lemma search_more (fuel : nat) :
  forall d res,
    search fuel d = Some res ->
    forall fuel', fuel <= fuel' -> search fuel' d = Some res.
Proof.
  induction fuel as [|fuel IH]; intros d res H fuel' Hle; [discriminate|].
  destruct fuel' as [|fuel']; [lia|]. cbn [search] in *.
  destruct (reduce_puzzle d) as [[[r d1]|e]|]; auto.
  destruct (negb (truthy r d1)); auto.
  destruct (any_unsolved boxes d1) as [[[] d2]|e]; auto.
  destruct ((box <- choose_box;; v <- getitem box;; ret (box, v)) d2)
    as [[[box v] d3]|e]; auto.
  revert H. generalize (Str.chars v). intros vs.
  induction vs as [|value vs IHvs]; cbn [search_children]; auto.
  destruct (setitem box value (copy d3)) as [[_ child]|e]; auto.
  destruct (search fuel child) as [res'|] eqn:Es; [|discriminate].
  rewrite (IH _ _ Es fuel') by lia.
  destruct res' as [attempt|e]; auto.
  destruct (sresult_truthy attempt); auto.
Qed.

(** ** Parsing the grid *)

Module GridFacts.

Lemma set_fresh (k v : string) (m : dict) :
  ~ In k (Dict.keys m) -> Dict.set k v m = m ++ [(k, v)].
Proof.
  unfold Dict.keys. induction m as [|[k0 v0] m IH]; simpl; [reflexivity|].
  intros H. destruct (String.eqb_spec k0 k) as [->|Hne]; [tauto|].
  f_equal. apply IH. tauto.
Qed.

(** Filling a dictionary with fresh, distinct keys appends the items in
    order. *)
Lemma fold_set_fresh (l : list (string * string)) :
  forall acc,
    NoDup (map fst l) ->
    (forall k, In k (map fst l) -> ~ In k (Dict.keys acc)) ->
    fold_left (fun m pair => Dict.set (fst pair) (cell (snd pair)) m) l acc
    = acc ++ map (fun pair => (fst pair, cell (snd pair))) l.
Proof.
  induction l as [|[k x] l IH]; intros acc Hnd Hfresh; simpl.
  - now rewrite app_nil_r.
  - inversion Hnd as [|? ? Hnotin Hnd']; subst.
    rewrite set_fresh by (apply Hfresh; now left).
    rewrite IH; auto.
    + rewrite <- app_assoc. reflexivity.
    + intros k' Hk'. unfold Dict.keys. rewrite map_app, in_app_iff.
      simpl. intros [H|[H|[]]].
      * apply (Hfresh k'); [now right | exact H].
      * subst. contradiction.
Qed.

Lemma combine_fst {X Y} (l : list X) (l' : list Y) :
  List.length l <= List.length l' -> map fst (combine l l') = l.
Proof.
  revert l'. induction l as [|x l IH]; intros [|y l'] H; simpl in *;
    try reflexivity; try lia.
  f_equal. apply IH. lia.
Qed.

Lemma entries_grid_values (grid : string) :
  81 <= String.length grid ->
  grid_values grid
  = map (fun pair => (fst pair, cell (snd pair)))
        (combine boxes (Str.chars grid)).
Proof.
  intros Hlen. unfold grid_values. fold boxes. fold cell.
  assert (Hk : map fst (combine boxes (Str.chars grid)) = boxes).
  { apply combine_fst. rewrite StrFacts.chars_length, Topology.boxes_length.
    exact Hlen. }
  rewrite fold_set_fresh; [reflexivity | | intros k _ []].
  rewrite Hk. apply Topology.boxes_NoDup.
Qed.

Lemma keys_grid_values (grid : string) :
  81 <= String.length grid -> Dict.keys (grid_values grid) = boxes.
Proof.
  intros Hlen. rewrite (@entries_grid_values grid Hlen). unfold Dict.keys.
  rewrite map_map.
  rewrite (map_ext _ fst) by reflexivity. apply combine_fst.
  rewrite StrFacts.chars_length, Topology.boxes_length. exact Hlen.
Qed.

(** Every stored value is a digit or the full candidate string. *)
Lemma values_grid_values (grid b v : string) :
  81 <= String.length grid ->
  Dict.get b (grid_values grid) = Some v ->
  In v (Str.chars "123456789") \/ v = "123456789".
Proof.
  intros Hlen Hg.
  assert (Hin : In (b, v) (grid_values grid)).
  { clear Hlen. revert Hg. unfold Dict.get.
    induction (grid_values grid) as [|[k0 v0] m IH]; simpl; [discriminate|].
    destruct (String.eqb_spec k0 b) as [->|Hne].
    - intros [= ->]. now left.
    - intros H. right. auto. }
  rewrite (@entries_grid_values grid Hlen) in Hin. apply in_map_iff in Hin.
  destruct Hin as [[k x] [Heq Hin]]. cbn [fst snd] in Heq.
  injection Heq as _ <-.
  apply in_combine_r in Hin. apply StrFacts.chars_chr in Hin.
  destruct Hin as [c [-> _]].
  unfold cell. rewrite StrFacts.substring_chr.
  destruct (Str.has_char c "123456789") eqn:Hc.
  - left. now apply StrFacts.chars_has.
  - now right.
Qed.

Lemma get_chars (i : nat) (s : string) (c : ascii) :
  String.get i s = Some c -> nth_error (Str.chars s) i = Some (Str.chr c).
Proof.
  revert i. induction s as [|a s IH]; intros [|i]; simpl; try discriminate.
  - now intros [= ->].
  - apply IH.
Qed.

Lemma get_combine (ks vs : list string) :
  forall i b x,
    NoDup ks -> nth_error ks i = Some b -> nth_error vs i = Some x ->
    Dict.get b (map (fun pair => (fst pair, cell (snd pair))) (combine ks vs))
    = Some (cell x).
Proof.
  unfold Dict.get. revert vs.
  induction ks as [|k ks IH]; intros [|v vs] [|i] b x Hnd Hk Hv;
    simpl in *; try discriminate.
  - injection Hk as ->. injection Hv as ->. now rewrite String.eqb_refl.
  - inversion Hnd as [|? ? Hnotin Hnd']; subst.
    destruct (String.eqb_spec k b) as [->|Hne].
    + exfalso. apply Hnotin. eapply nth_error_In; eauto.
    + eapply IH; eauto.
Qed.

(** A given digit is stored as it is. *)
Lemma given_grid_values (grid b : string) (c : ascii) :
  81 <= String.length grid -> given grid b c ->
  Dict.get b (grid_values grid) = Some (Str.chr c).
Proof.
  intros Hlen (i & Hb & Hc & Hd). rewrite (@entries_grid_values grid Hlen).
  rewrite (@get_combine boxes (Str.chars grid) i b (Str.chr c)
             Topology.boxes_NoDup Hb (@get_chars i grid c Hc)).
  unfold cell. now rewrite StrFacts.substring_chr, Hd.
Qed.

End GridFacts.

(** The map [solve] starts from is a candidate map of digit strings, none
    empty. *)
Lemma solve_start (grid : string) :
  81 <= String.length grid ->
  candidate_map (VisualizibleDict.init (grid_values grid)) /\
  nonempty (VisualizibleDict.init (grid_values grid)) /\
  digits_only (VisualizibleDict.init (grid_values grid)).
Proof.
  intros Hlen. split; [|split].
  - unfold candidate_map. simpl. rewrite (@GridFacts.keys_grid_values grid Hlen).
    split; [apply Topology.boxes_NoDup | intro b; apply iff_refl].
  - intros b v Hv. destruct (@GridFacts.values_grid_values grid b v Hlen Hv) as [H| ->].
    + apply StrFacts.chars_chr in H. destruct H as [c [-> _]]. discriminate.
    + discriminate.
  - intros b v Hv. destruct (@GridFacts.values_grid_values grid b v Hlen Hv) as [H| ->].
    + apply StrFacts.chars_chr in H. destruct H as [c [-> Hc]].
      now rewrite StrFacts.subset_chr.
    + reflexivity.
Qed.

(** A solved, clash-free refinement of the starting map is a completion of
    the puzzle. *)
Lemma success_solves (grid : string) (m : pydict) :
  81 <= String.length grid ->
  search_post (VisualizibleDict.init (grid_values grid)) (SDict m) ->
  solves grid (digit_at m).
Proof.
  intros Hlen (R & Ha & Hc).
  destruct (@solve_start grid Hlen) as (Hd & Hne & Hdg).
  pose proof (refines_digits_only R Hdg) as Hdgm.
  assert (Hdigit : forall b, In b boxes -> lookup m b = Some (Str.chr (digit_at m b))).
  { intros b Hb. destruct (Ha b Hb) as [c Hv]. unfold digit_at.
    rewrite Hv. reflexivity. }
  split; [|split].
  - intros b Hb. rewrite <- StrFacts.subset_chr. eapply Hdgm. eauto.
  - intros b c Hg.
    pose proof (@GridFacts.given_grid_values grid b c Hlen Hg) as Hv.
    pose proof (@refines_single _ _ _ _ R Hv) as Hv'.
    unfold digit_at. rewrite Hv'. reflexivity.
  - intros u b1 b2 Hu H1 H2 Hne12 Heq.
    destruct (Topology.unit_shape Hu) as (_ & _ & Hub).
    apply (Hc b1 b2 (digit_at m b1) (Hub b1 H1)
              (Topology.unit_mates Hu H1 H2 Hne12) (Hdigit b1 (Hub b1 H1))).
    rewrite Heq. apply Hdigit. auto.
Qed.

(** ** What [search] and [solve] return *)

(** A result reached with some depth bound is the result with the bound
    [82], which is enough on every candidate map. *)
Lemma search_result (fuel : nat) (d : pydict) (r : sresult) :
  candidate_map d -> nonempty d ->
  search fuel d = Some (Ok r) -> search_post d r.
Proof.
  intros Hd Hne E.
  destruct (@search_spec (Nat.max fuel 82) d Hd Hne) as (r' & E' & P).
  { pose proof (DictFacts.solved_count_le (entries d)). lia. }
  rewrite (@search_more fuel d _ E (Nat.max fuel 82)) in E' by lia.
  injection E' as <-. exact P.
Qed.

(** C2: a dictionary returned by [search] on a candidate map of non-empty
    digit strings, and so one returned by [solve] on an 81-character grid,
    has one digit in every box, and each of the 29 units (rows, columns,
    blocks and the two diagonals) holds each digit 1 to 9 exactly once. *)
Theorem success_is_solved_grid (fuel : nat) (m : pydict) :
  (forall d, candidate_map d -> nonempty d -> digits_only d ->
             search fuel d = Some (Ok (SDict m)) -> solved_grid m) /\
  (forall grid, String.length grid = 81 ->
                solve fuel grid = Some (Ok (SDict m)) -> solved_grid m).
Proof.
  assert (H : forall d, candidate_map d -> nonempty d -> digits_only d ->
                search fuel d = Some (Ok (SDict m)) -> solved_grid m).
  { intros d Hd Hne Hdg E.
    destruct (@search_result fuel d (SDict m) Hd Hne E) as (R & Ha & Hc).
    apply solved_grid_intro; auto.
    - eapply refines_candidate_map; eauto.
    - eapply refines_digits_only; eauto. }
  split; [exact H|].
  intros grid Hlen E. unfold solve in E.
  assert (Hlen' : 81 <= String.length grid) by lia.
  destruct (@solve_start grid Hlen') as (Hd & Hne & Hdg). eauto.
Qed.

Lemma success_is_solved_grid_witness :
  String.length diag_sudoku_grid = 81 /\
  exists m, solve 82 diag_sudoku_grid = Some (Ok (SDict m)) /\ solved_grid m.
Proof.
  split; [reflexivity|]. eexists. split.
  - vm_compute. reflexivity.
  - refine (proj2 (success_is_solved_grid 82 _) diag_sudoku_grid eq_refl _).
    vm_compute. reflexivity.
Defined.

(** C3: on every 81-character grid that has no completion, [solve]
    returns, raises nothing, and its result is one of the falsy values
    [False] and [None], never a dictionary. *)
Theorem solve_contradictory_fails (grid : string) (fuel : nat)
        (Hlen : String.length grid = 81)
        (Hbad : contradictory grid)
        (Hfuel : 82 <= fuel) :
  exists r, solve fuel grid = Some (Ok r) /\ is_failure r.
Proof.
  assert (Hlen' : 81 <= String.length grid) by lia.
  destruct (@solve_start grid Hlen') as (Hd & Hne & Hdg).
  destruct (@search_spec 82 _ Hd Hne) as (r & E & P).
  { pose proof (DictFacts.solved_count_le
                  (entries (VisualizibleDict.init (grid_values grid)))). lia. }
  exists r. split.
  - unfold solve. apply (@search_more 82 _ _ E). exact Hfuel.
  - destruct r as [| |m]; [now left | now right|].
    exfalso. apply Hbad. exists (digit_at m).
    apply success_solves; assumption.
Qed.

Lemma clashing_grid_contradictory : contradictory clashing_grid.
Proof.
  intros [a (_ & Hg & Hu)].
  assert (H1 : given clashing_grid "A1" "1"%char)
    by (exists 0; repeat split; reflexivity).
  assert (H2 : given clashing_grid "A2" "1"%char)
    by (exists 1; repeat split; reflexivity).
  apply (Hu (cross "A" cols) "A1" "A2").
  - vm_compute. tauto.
  - vm_compute. tauto.
  - vm_compute. tauto.
  - discriminate.
  - rewrite (Hg _ _ H1), (Hg _ _ H2). reflexivity.
Defined.

Lemma solve_contradictory_fails_witness :
  String.length clashing_grid = 81 /\ contradictory clashing_grid /\
  exists r, solve 82 clashing_grid = Some (Ok r) /\ is_failure r.
Proof.
  split; [reflexivity|]. split; [exact clashing_grid_contradictory|].
  exact (@solve_contradictory_fails clashing_grid 82 eq_refl
           clashing_grid_contradictory (le_n 82)).
Defined.

(** The two falsy results both occur: a clash among the givens makes the
    reduction at the root fail, and [search] returns [False]; when the
    root reduces but every branch fails, [search] falls out of its loop
    and returns [None]. *)
Lemma solve_returns_False :
  solve 82 clashing_grid = Some (Ok SFalse).
Proof. vm_compute. reflexivity. Qed.

Lemma solve_returns_None :
  String.length exhausted_grid = 81 /\
  solve 82 exhausted_grid = Some (Ok SNone).
Proof. split; vm_compute; reflexivity. Qed.

(** ** Termination of the reduction loop *)

(** C7: [reduce_puzzle] terminates on every candidate map.  A pass never
    lowers the number of solved boxes, which is at most 81; the loop goes
    round again only after a pass that raised it, and stops after a pass
    that left it unchanged or in which a strategy failed; so 82 passes
    are never exhausted, and no pass raises. *)
Theorem reduce_puzzle_terminates (d : pydict) (Hd : candidate_map d) :
  (exists p d1,
     reduce_pass d = Ok (p, d1) /\ candidate_map d1 /\
     solved_count (entries d) <= solved_count (entries d1) <= 81 /\
     (p = Progress -> solved_count (entries d) < solved_count (entries d1)) /\
     (p = Stalled -> solved_count (entries d1) = solved_count (entries d)) /\
     (forall fuel,
        reduce_puzzle_loop (S fuel) d
        = match p with
          | Progress => reduce_puzzle_loop fuel d1
          | Stalled => Some (Ok (RValues, d1))
          | EliminateFailed | OnlyChoiceFailed => Some (Ok (RFalse, d1))
          end)) /\
  (exists r d',
     reduce_puzzle d = Some (Ok (r, d')) /\
     (forall fuel, 82 <= fuel ->
                   reduce_puzzle_loop fuel d = Some (Ok (r, d'))) /\
     candidate_map d' /\
     solved_count (entries d) <= solved_count (entries d') <= 81).
Proof.
  assert (Hbound : forall e, candidate_map e -> solved_count (entries e) <= 81).
  { intros e He. rewrite <- (candidate_map_length He).
    apply DictFacts.solved_count_le. }
  split.
  - destruct (reduce_pass_spec Hd) as (p & d1 & E & R & P).
    pose proof (refines_candidate_map R Hd) as Hd1.
    exists p, d1. split; [exact E|]. split; [exact Hd1|].
    split; [split; [exact (refines_solved_count Hd R) | exact (Hbound _ Hd1)]|].
    split; [intros ->; exact (proj1 P)|].
    split; [intros ->; exact (proj1 P)|].
    intros fuel. cbn [reduce_puzzle_loop]. rewrite E. destruct p; reflexivity.
  - destruct (reduce_puzzle_spec Hd) as (r & d' & E & R & _).
    pose proof (refines_candidate_map R Hd) as Hd'.
    exists r, d'. split; [exact E|]. split.
    + intros fuel Hfuel. unfold reduce_puzzle in E.
      rewrite (candidate_map_length Hd) in E.
      exact (@reduce_puzzle_loop_more 82 d _ E fuel Hfuel).
    + split; [exact Hd'|].
      split; [exact (refines_solved_count Hd R) | exact (Hbound _ Hd')].
Qed.

Lemma reduce_puzzle_terminates_witness :
  exists r d',
    reduce_puzzle (VisualizibleDict.init (grid_values diag_sudoku_grid))
    = Some (Ok (r, d')) /\
    solved_count (entries d') <= 81.
Proof.
  assert (Hlen : 81 <= String.length diag_sudoku_grid) by (vm_compute; lia).
  destruct (@reduce_puzzle_terminates
              (VisualizibleDict.init (grid_values diag_sudoku_grid))
              (proj1 (@solve_start diag_sudoku_grid Hlen)))
    as (_ & r & d' & E & _ & _ & _ & Hle).
  exists r, d'. split; [exact E | exact Hle].
Defined.

(** ** Elimination: failure and contraction *)

(** C4: on a candidate map without empty boxes [eliminate] raises
    nothing.  It returns [False] exactly when the loops reach a box with a
    single digit and one of its peers whose string would become empty:
    the map is then left as it was just before that removal (the empty
    string is not stored) and neither the remaining peers nor the
    remaining boxes are processed.  Whether it returns [False] or the
    map, no box of the map is empty afterwards. *)
Theorem eliminate_failure (d : pydict)
        (Hd : candidate_map d) (Hne : nonempty d) :
  exists r d',
    eliminate d = Ok (r, d') /\
    nonempty d' /\
    (r = RFalse <->
     exists ks1 box ks2 c ps1 peer ps2 d1 v,
       Dict.keys (entries d) = ks1 ++ box :: ks2 /\
       for_ ks1 eliminate_box d = Ok (Next, d1) /\
       lookup d1 box = Some (Str.chr c) /\
       peers box = ps1 ++ peer :: ps2 /\
       for_ ps1 (eliminate_peer (Str.chr c)) d1 = Ok (Next, d') /\
       lookup d' peer = Some v /\
       Str.remove_char c v = "").
Proof.
  destruct (eliminate_spec Hd) as (r & d' & E & R & _).
  exists r, d'. split; [exact E|]. split; [exact (refines_nonempty R Hne)|].
  unfold eliminate, bind, get_keys in E.
  destruct (for_ (Dict.keys (entries d)) eliminate_box d)
    as [[c d2]|e] eqn:Eloop; [|discriminate].
  split.
  - intros ->. destruct c as [|r0]; [discriminate|].
    unfold ret in E. injection E as -> ->.
    apply for_return in Eloop.
    destruct Eloop as (ks1 & box & ks2 & d1 & Hks & E1 & Ebox).
    unfold eliminate_box, bind in Ebox. unfold getitem in Ebox at 1.
    fold (lookup d1 box) in Ebox.
    destruct (lookup d1 box) as [bv|] eqn:Hbv; [|discriminate].
    destruct (Str.len bv =? 1) eqn:Hlen; [|discriminate].
    apply Nat.eqb_eq, StrFacts.len_one in Hlen. destruct Hlen as [c ->].
    unfold const_getitem in Ebox.
    assert (Hps : assoc box box_peers = Some (peers box) \/
                  assoc box box_peers = None).
    { unfold peers. destruct (assoc box box_peers); auto. }
    destruct Hps as [Hps|Hps]; rewrite Hps in Ebox; [|discriminate].
    unfold ret in Ebox at 1. apply for_return in Ebox.
    destruct Ebox as (ps1 & peer & ps2 & d3 & Hpeers & E3 & Epeer).
    unfold eliminate_peer, bind in Epeer. unfold getitem in Epeer at 1.
    fold (lookup d3 peer) in Epeer.
    destruct (lookup d3 peer) as [v|] eqn:Hv; [|discriminate].
    rewrite StrFacts.replace_chr in Epeer.
    destruct (String.eqb_spec (Str.remove_char c v) "") as [He|Hne'].
    + unfold ret in Epeer. injection Epeer as <-.
      exists ks1, box, ks2, c, ps1, peer, ps2, d1, v. auto 10.
    + destruct (setitem peer (Str.remove_char c v) d3) as [[u d4]|e];
        discriminate.
  - intros (ks1 & box & ks2 & c0 & ps1 & peer & ps2 & d1 & v &
            Hks & E1 & Hbox & Hpeers & E3 & Hv & Hrem).
    assert (Hret : for_ (Dict.keys (entries d)) eliminate_box d
                   = Ok (Return RFalse, d')).
    { apply for_return. exists ks1, box, ks2, d1.
      split; [exact Hks|]. split; [exact E1|].
      unfold eliminate_box, bind. rewrite (getitem_ok _ _ Hbox).
      cbn [Str.len Str.chr String.length Nat.eqb].
      assert (Hb : In box boxes).
      { apply (proj2 Hd). rewrite Hks. apply in_elt. }
      unfold const_getitem.
      rewrite (proj1 (Topology.box_peers_entry Hb)). unfold ret at 1.
      apply for_return. exists ps1, peer, ps2, d'.
      split; [exact Hpeers|]. split; [exact E3|].
      destruct (eliminate_peer_spec d' c0 peer Hv) as [[_ Ep]|[Hn _]];
        [exact Ep | contradiction]. }
    rewrite Hret in Eloop. injection Eloop as <- <-.
    unfold ret in E. inversion E. reflexivity.
Qed.

Lemma eliminate_failure_witness :
  exists r d',
    eliminate (VisualizibleDict.init (grid_values clashing_grid)) = Ok (r, d') /\
    nonempty d' /\ r = RFalse.
Proof.
  assert (Hlen : 81 <= String.length clashing_grid) by (vm_compute; lia).
  destruct (@solve_start clashing_grid Hlen) as (Hd & Hne & _).
  destruct (eliminate_failure Hd Hne) as (r & d' & E & Hne' & _).
  exists r, d'. split; [exact E|]. split; [exact Hne'|].
  revert E. vm_compute. intros E. injection E as <- _. reflexivity.
Defined.

(** C5: when [eliminate] succeeds on a candidate map, no box has a longer
    candidate string afterwards than it had before. *)
Theorem eliminate_contracting (d d' : pydict) (box : string)
        (Hd : candidate_map d)
        (E : eliminate d = Ok (RValues, d'))
        (Hbox : In box boxes) :
  exists v v',
    lookup d box = Some v /\ lookup d' box = Some v' /\
    Str.len v' <= Str.len v.
Proof.
  destruct (eliminate_spec Hd) as (r & d2 & E2 & R & _).
  rewrite E in E2. injection E2 as <- <-.
  destruct (candidate_map_lookup Hd Hbox) as [v Hv].
  destruct (proj2 R box v Hv) as [v' [Hv' (Hlen & _)]].
  exists v, v'. auto.
Qed.

Lemma eliminate_contracting_witness :
  exists d' v v',
    eliminate (VisualizibleDict.init (grid_values diag_sudoku_grid))
    = Ok (RValues, d') /\
    lookup (VisualizibleDict.init (grid_values diag_sudoku_grid)) "A2" = Some v /\
    lookup d' "A2" = Some v' /\ Str.len v' <= Str.len v.
Proof.
  assert (Hlen : 81 <= String.length diag_sudoku_grid) by (vm_compute; lia).
  assert (Hbox : In "A2" boxes) by (vm_compute; tauto).
  pose proof (proj1 (@solve_start diag_sudoku_grid Hlen)) as Hd.
  destruct (eliminate (VisualizibleDict.init (grid_values diag_sudoku_grid)))
    as [[[|] d']|e] eqn:E.
  - exfalso. revert E. vm_compute. discriminate.
  - destruct (@eliminate_contracting _ _ "A2" Hd E Hbox)
      as (v & v' & Hv & Hv' & Hle).
    exists d', v, v'. auto.
  - exfalso. revert E. vm_compute. discriminate.
Defined.

(** ** Only choice never fails *)

(** C10: on a candidate map without empty boxes [only_choice] raises
    nothing and returns the map, which is truthy; every box is either
    unchanged or forced to a digit that was among its candidates, so no
    box becomes empty; and a pass of [reduce_puzzle] never leaves through
    the failure branch that follows the call of [only_choice]. *)
Theorem only_choice_never_fails (d : pydict)
        (Hd : candidate_map d) (Hne : nonempty d) :
  (exists d',
     only_choice d = Ok (RValues, d') /\
     truthy RValues d' = true /\
     nonempty d' /\
     Dict.keys (entries d') = Dict.keys (entries d) /\
     forall b v, lookup d b = Some v ->
       exists v', lookup d' b = Some v' /\
                  (v' = v \/
                   exists c, v' = Str.chr c /\ Str.has_char c v = true)) /\
  (forall d1, reduce_pass d <> Ok (OnlyChoiceFailed, d1)).
Proof.
  split.
  - destruct (only_choice_spec Hd) as (d' & E & F).
    pose proof (forces_refines F) as R.
    exists d'. split; [exact E|].
    split; [exact (candidate_map_truthy (refines_candidate_map R Hd))|].
    split; [exact (refines_nonempty R Hne)|]. exact F.
  - intros d1 E. destruct (reduce_pass_spec Hd) as (p & d2 & E2 & _ & P).
    rewrite E in E2. injection E2 as <- <-. exact P.
Qed.

Lemma only_choice_never_fails_witness :
  exists d',
    only_choice (VisualizibleDict.init (grid_values diag_sudoku_grid))
    = Ok (RValues, d') /\ nonempty d'.
Proof.
  assert (Hlen : 81 <= String.length diag_sudoku_grid) by (vm_compute; lia).
  destruct (@solve_start diag_sudoku_grid Hlen) as (Hd & Hne & _).
  destruct (only_choice_never_fails Hd Hne) as ((d' & E & _ & Hne' & _) & _).
  exists d'. split; [exact E | exact Hne'].
Defined.

(** ** Assignment with history *)

(** C9: [VisualizibleDict.__setitem__] on a box that has an entry.
    Writing the value the box already holds changes nothing: the entries
    and the history are the ones before.  Writing a different value
    stores it in that box, leaves every other box and the order of the
    keys alone, and appends one snapshot of the new entries to the
    history exactly when the value has length 1. *)
Theorem setitem_contract (m : dict) (h : list dict) (box value cur : string)
        (Hcur : Dict.get box m = Some cur) :
  (cur = value ->
   VisualizibleDict.setitem box value h m = Ok (tt, Py m (Some h))) /\
  (cur <> value ->
   exists m',
     VisualizibleDict.setitem box value h m
     = Ok (tt, Py m' (Some (if Str.len value =? 1 then h ++ [m'] else h))) /\
     m' = Dict.set box value m /\
     Dict.get box m' = Some value /\
     (forall b, b <> box -> Dict.get b m' = Dict.get b m) /\
     Dict.keys m' = Dict.keys m).
Proof.
  unfold VisualizibleDict.setitem. rewrite Hcur. split.
  - intros ->. rewrite String.eqb_refl. reflexivity.
  - intros Hne. apply String.eqb_neq in Hne. rewrite Hne.
    exists (Dict.set box value m). split.
    + destruct (Str.len value =? 1); reflexivity.
    + split; [reflexivity|]. split; [apply DictFacts.get_set_same|].
      split.
      * intros b Hb. apply DictFacts.get_set_other. congruence.
      * apply DictFacts.keys_set. apply DictFacts.get_in_keys. eauto.
Qed.

Lemma setitem_contract_witness :
  VisualizibleDict.setitem "A2" "12" [] [("A1", "5"); ("A2", "12")]
  = Ok (tt, Py [("A1", "5"); ("A2", "12")] (Some [])) /\
  VisualizibleDict.setitem "A2" "1" [] [("A1", "5"); ("A2", "12")]
  = Ok (tt, Py [("A1", "5"); ("A2", "1")]
               (Some [[("A1", "5"); ("A2", "1")]])).
Proof.
  pose proof (@setitem_contract [("A1", "5"); ("A2", "12")] [] "A2" "12" "12"
                eq_refl) as [Hsame _].
  pose proof (@setitem_contract [("A1", "5"); ("A2", "12")] [] "A2" "1" "12"
                eq_refl) as [_ Hnew].
  split; [exact (Hsame eq_refl)|].
  destruct (Hnew ltac:(discriminate)) as (m' & E & -> & _). exact E.
Defined.

(** ** Naked twins *)

Lemma get_In (b v : string) (m : dict) :
  Dict.get b m = Some v -> In (b, v) m.
Proof.
  unfold Dict.get. induction m as [|[k0 v0] m IH]; simpl; [discriminate|].
  destruct (String.eqb_spec k0 b) as [->|Hne].
  - intros [= ->]. now left.
  - intros H. right. auto.
Qed.

Lemma values_ok_spec (d : pydict) :
  values_ok (entries d) = true -> nonempty d /\ digits_only d.
Proof.
  unfold values_ok. rewrite forallb_forall. intros H. split.
  - intros b v Hv ->. apply get_In in Hv. specialize (H _ Hv).
    discriminate.
  - intros b v Hv. apply get_In in Hv. specialize (H _ Hv).
    apply andb_true_iff in H. apply H.
Qed.

Lemma twins_map_candidate_map : candidate_map twins_map.
Proof.
  split.
  - apply Topology.nodupb_NoDup. vm_compute. reflexivity.
  - intro b. apply iff_refl.
Qed.


(** A write of the value a box already holds leaves [values] as it is,
    for both classes. *)
Lemma setitem_same (d : pydict) (b v : string) :
  lookup d b = Some v -> setitem b v d = Ok (tt, d).
Proof.
  unfold lookup, setitem, VisualizibleDict.setitem. intros Hv.
  destruct d as [m [h|]]; simpl in *.
  - rewrite Hv, String.eqb_refl. reflexivity.
  - rewrite DictFacts.set_same by assumption. reflexivity.
Qed.

Lemma for_fixed {X R} (body : X -> M (ctl R)) (xs : list X) (d : pydict) :
  (forall x, In x xs -> body x d = Ok (Next, d)) ->
  for_ xs body d = Ok (Next, d).
Proof.
  induction xs as [|x xs IH]; intros H; simpl; [reflexivity|].
  unfold bind. rewrite (H x (or_introl eq_refl)). apply IH.
  intros y Hy. apply H. now right.
Qed.

Lemma len_two (s : string) :
  Str.len s = 2 -> exists p0 p1, s = String p0 (String p1 "").
Proof.
  destruct s as [|p0 [|p1 [|p2 s]]]; simpl; try discriminate. eauto.
Qed.

Section TwinReduced.

Variable d : pydict.
Hypothesis Hd : candidate_map d.
Hypothesis Hred : twin_reduced d.

Lemma twins_pair_fixed (unit : list string) (box1 box2 : string) :
  In unit units -> In box1 unit -> In box2 unit ->
  twins_pair unit box1 box2 d = Ok (Next, d).
Proof using Hd Hred.
  intros Hu H1 H2. destruct (Topology.unit_shape Hu) as (_ & _ & Hub).
  unfold twins_pair. destruct (String.ltb box1 box2) eqn:Hlt; [|reflexivity].
  destruct (candidate_map_lookup Hd (Hub _ H1)) as [v1 Hv1].
  destruct (candidate_map_lookup Hd (Hub _ H2)) as [v2 Hv2].
  unfold bind at 1. rewrite (getitem_ok _ _ Hv1).
  destruct (Str.len v1 =? 2) eqn:Hlen; [|reflexivity].
  unfold bind at 1. rewrite (getitem_ok _ _ Hv1).
  unfold bind at 1. rewrite (getitem_ok _ _ Hv2).
  destruct (Str.set_eqb v1 v2) eqn:Hset; [|reflexivity].
  unfold bind at 1. rewrite (getitem_ok _ _ Hv1).
  apply Nat.eqb_eq in Hlen.
  apply for_fixed. intros box Hbox. apply filter_In in Hbox.
  destruct Hbox as [Hbox Hmem].
  assert (Hne1 : box <> box1).
  { intros ->. simpl in Hmem. rewrite String.eqb_refl in Hmem. discriminate. }
  assert (Hne2 : box <> box2).
  { intros ->. simpl in Hmem. rewrite String.eqb_refl, orb_true_r in Hmem.
    discriminate. }
  destruct (candidate_map_lookup Hd (Hub _ Hbox)) as [v Hv].
  assert (Hlack : forall x, Str.has_char x v1 = true ->
                            Str.has_char x v = false).
  { intros x Hx.
    rewrite <- (candidates_lookup _ _ Hv).
    apply (Hred (unit := unit) (box1 := box1) (box2 := box2)); auto.
    - now rewrite (candidates_lookup _ _ Hv1).
    - now rewrite (candidates_lookup _ _ Hv1), (candidates_lookup _ _ Hv2).
    - now rewrite (candidates_lookup _ _ Hv1). }
  destruct (len_two _ Hlen) as (p0 & p1 & ->).
  unfold strike_twins, bind, index. rewrite (getitem_ok _ _ Hv).
  cbn [String.get]. unfold ret at 1. unfold ret at 1.
  rewrite !StrFacts.replace_chr.
  rewrite (StrFacts.remove_absent p0 v), (StrFacts.remove_absent p1 v).
  - rewrite (setitem_same _ _ Hv). reflexivity.
  - apply Hlack. simpl. rewrite Ascii.eqb_refl. apply orb_true_r.
  - apply Hlack. simpl. rewrite Ascii.eqb_refl. reflexivity.
Qed.

End TwinReduced.


Lemma blank_twin_reduced :
  twin_reduced (VisualizibleDict.init (grid_values blank_grid)).
Proof.
  intros u box1 box2 box x Hu H1 _ _ _ Hlen _ _ _ _. exfalso.
  assert (Hall : no_pair_candidates
                   (VisualizibleDict.init (grid_values blank_grid)) = true)
    by (vm_compute; reflexivity).
  unfold no_pair_candidates in Hall. rewrite forallb_forall in Hall.
  specialize (Hall box1 (proj2 (proj2 (Topology.unit_shape Hu)) _ H1)).
  rewrite Hlen in Hall. discriminate.
Defined.


(** ** The branching box *)

Lemma boxes_increasing : increasing boxes = true.
Proof. vm_compute. reflexivity. Qed.

Lemma increasing_filter (p : string -> bool) (l : list string) :
  increasing l = true ->
  forall b rest, filter p l = b :: rest ->
                 forall y, In y rest -> String.ltb b y = true.
Proof.
  induction l as [|x l IH]; simpl; [discriminate|].
  intros Hinc b rest. apply andb_true_iff in Hinc. destruct Hinc as [Hx Hl].
  destruct (p x).
  - intros [= <- <-] y Hy. apply filter_In in Hy.
    rewrite forallb_forall in Hx. apply Hx. apply Hy.
  - apply IH. exact Hl.
Qed.

Lemma tuple_ltb_after (x y : string * nat) :
  String.ltb (fst x) (fst y) = true -> tuple_ltb y x = false.
Proof.
  unfold String.ltb, tuple_ltb. rewrite (String.compare_antisym (fst y) (fst x)).
  destruct (String.compare (fst x) (fst y)); simpl; congruence.
Qed.

Lemma fold_min_head (l : list (string * nat)) (x : string * nat) :
  (forall y, In y l -> tuple_ltb y x = false) ->
  fold_left (fun m y => if tuple_ltb y m then y else m) l x = x.
Proof.
  induction l as [|y l IH]; intros H; simpl; [reflexivity|].
  rewrite (H y (or_introl eq_refl)). apply IH. intros z Hz. apply H. now right.
Qed.

(** The tuples are compared on the box name first, and the names are all
    different, so [min] yields the first unsolved box in the order of
    [boxes]; the lengths are never compared. *)
Lemma choose_box_first (d : pydict) (b : string) (rest : list string) :
  candidate_map d -> unsolved d boxes = b :: rest ->
  choose_box d = Ok (b, d).
Proof.
  intros Hd Hu. unfold choose_box, bind.
  rewrite unsolved_tuples_spec by (intros x Hx; now apply (proj2 Hd)).
  rewrite Hu. cbn [map]. unfold py_min, ret. rewrite fold_min_head; [reflexivity|].
  intros y Hy. apply in_map_iff in Hy. destruct Hy as [b' [<- Hb']].
  apply tuple_ltb_after. cbn [fst].
  exact (increasing_filter _ boxes boxes_increasing Hu b' Hb').
Qed.

(** C1 (the code at the failing input): on [bottom_row_grid] the reduced
    map is neither solved nor contradictory; [choose_box] yields A1,
    which has 8 candidates, although I8 is unsolved with only 2. *)
Theorem choose_box_not_smallest :
  reduce_puzzle (VisualizibleDict.init (grid_values bottom_row_grid))
  = Some (Ok (RValues, bottom_row_reduced)) /\
  any_unsolved boxes bottom_row_reduced = Ok (true, bottom_row_reduced) /\
  choose_box bottom_row_reduced = Ok ("A1", bottom_row_reduced) /\
  candidates bottom_row_reduced "A1" = "23456789" /\
  candidates bottom_row_reduced "I8" = "89".
Proof.
  repeat split; vm_compute; reflexivity.
Qed.

(** ** The units of a box *)

(** C8 (as stated, refuted): the corner box A1 lies on a diagonal, yet the
    number of units containing it is 4, not 5. *)
Lemma box_units_A1_not_five :
  ~ (on_diagonal "A1" = true ->
     exists us, assoc "A1" box_units = Some us /\ List.length us = 5).
Proof.
  intros H. destruct (H eq_refl) as [us [Hus Hlen]].
  vm_compute in Hus. injection Hus as <-. discriminate Hlen.
Qed.

(** C8 (amended): every box lies in exactly one row, one column and one
    block; the units containing it number 3 plus the number of diagonals
    through it, that is 3 off the diagonals, 4 on exactly one diagonal and
    5 only for the centre box E5, the one box on both diagonals. *)
Theorem box_units_profile (s : string) (Hs : In s boxes) :
  count_in s row_units = 1 /\
  count_in s column_units = 1 /\
  count_in s square_units = 1 /\
  (exists us, assoc s box_units = Some us /\
              List.length us = 3 + count_in s diagonal_units) /\
  (on_diagonal s = false <-> count_in s diagonal_units = 0) /\
  (count_in s diagonal_units = 0 \/ count_in s diagonal_units = 1 \/
   (count_in s diagonal_units = 2 /\ s = "E5")).
Proof.
  pose proof Topology.unit_profile_all as Hall.
  rewrite forallb_forall in Hall. specialize (Hall s Hs).
  unfold unit_profile in Hall.
  repeat rewrite andb_true_iff in Hall.
  destruct Hall as [[[[[Hr Hc] Hq] Hu] Hle] He5].
  apply Nat.eqb_eq in Hr, Hc, Hq. apply Nat.leb_le in Hle.
  apply Bool.eqb_prop in He5.
  repeat split; try assumption.
  - destruct (assoc s box_units) as [us|]; [|discriminate].
    exists us. split; [reflexivity|]. now apply Nat.eqb_eq.
  - unfold on_diagonal, count_in. intros Hd.
    destruct (filter (mem s) diagonal_units) as [|u l] eqn:Hf; [reflexivity|].
    assert (Hin : In u (filter (mem s) diagonal_units)) by (rewrite Hf; now left).
    apply filter_In in Hin. destruct Hin as [Hin Hm].
    assert (existsb (mem s) diagonal_units = true)
      by (apply existsb_exists; exists u; auto).
    congruence.
  - unfold on_diagonal, count_in. intros Hd.
    destruct (existsb (mem s) diagonal_units) eqn:Hex; [|reflexivity].
    apply existsb_exists in Hex. destruct Hex as [u [Hin Hm]].
    assert (Hf : In u (filter (mem s) diagonal_units))
      by (apply filter_In; auto).
    destruct (filter (mem s) diagonal_units); [contradiction|discriminate].
  - destruct (count_in s diagonal_units) as [|[|[|n]]] eqn:Hn.
    + now left.
    + right. now left.
    + right. right. split; [reflexivity|].
      simpl in He5. symmetry in He5. now apply String.eqb_eq.
    + lia.
Qed.

Lemma box_units_profile_witness :
  In "E5" boxes /\
  exists us, assoc "E5" box_units = Some us /\ List.length us = 5.
Proof.
  assert (H : In "E5" boxes) by (vm_compute; tauto).
  split; [exact H|].
  destruct (box_units_profile H) as (_ & _ & _ & [us [Hus Hlen]] & _ & _).
  exists us. split; [exact Hus|]. rewrite Hlen. reflexivity.
Defined.


(** * Further properties *)

(** ** [cross] *)

Lemma chars_app (s t : string) :
  Str.chars (s ++ t) = Str.chars s ++ Str.chars t.
Proof. induction s as [|a s IH]; simpl; [reflexivity | now rewrite IH]. Qed.

(** X1: [cross(A, B)] lists the concatenations [a + b], [a] a character of
    [A] and [b] a character of [B], and has [len(A) * len(B)] items. *)
Theorem cross_spec (A B : string) :
  List.length (cross A B) = Str.len A * Str.len B /\
  forall s, In s (cross A B) <->
            exists a b, Str.has_char a A = true /\ Str.has_char b B = true /\
                        s = String a (String b "").
Proof.
  unfold cross. split.
  - rewrite <- !StrFacts.chars_length.
    induction (Str.chars A) as [|a l IH]; simpl; [reflexivity|].
    rewrite length_app, length_map, IH. reflexivity.
  - intros s. rewrite in_flat_map. split.
    + intros (x & Hx & Hs). apply in_map_iff in Hs.
      destruct Hs as (y & <- & Hy).
      apply StrFacts.chars_chr in Hx, Hy.
      destruct Hx as (a & -> & Ha), Hy as (b & -> & Hb).
      exists a, b. auto.
    + intros (a & b & Ha & Hb & ->). exists (Str.chr a).
      split; [now apply StrFacts.chars_has|].
      apply in_map_iff. exists (Str.chr b).
      split; [reflexivity | now apply StrFacts.chars_has].
Qed.

(** ** [grid_values] on grids of any length *)

Lemma combine_fst_firstn {X Y} (l : list X) (l' : list Y) :
  map fst (combine l l') = firstn (List.length l') l.
Proof.
  revert l'. induction l as [|x l IH]; intros [|y l']; simpl; try reflexivity.
  f_equal. apply IH.
Qed.

Lemma NoDup_firstn_of {X} (n : nat) (l : list X) :
  NoDup l -> NoDup (firstn n l).
Proof.
  intros H. rewrite <- (firstn_skipn n l) in H.
  exact (NoDup_app_remove_r _ _ H).
Qed.

Lemma grid_values_items (grid : string) :
  grid_values grid
  = map (fun pair => (fst pair, cell (snd pair)))
        (combine boxes (Str.chars grid)).
Proof.
  unfold grid_values. fold boxes. fold cell.
  rewrite GridFacts.fold_set_fresh; [reflexivity | | intros k _ []].
  rewrite combine_fst_firstn. apply NoDup_firstn_of, Topology.boxes_NoDup.
Qed.

Lemma keys_grid_values_any (grid : string) :
  Dict.keys (grid_values grid) = firstn (String.length grid) boxes.
Proof.
  rewrite grid_values_items. unfold Dict.keys. rewrite map_map.
  rewrite (map_ext _ fst) by reflexivity.
  rewrite combine_fst_firstn, StrFacts.chars_length. reflexivity.
Qed.

(** X2: [grid_values] pairs the boxes with the characters of the grid for as
    long as both last ([zip] stops at the shorter): the keys are the
    first [len(grid)] boxes in order, a digit 1 to 9 is stored as it is,
    and any other character becomes the full string [123456789]. *)
Theorem grid_values_spec (grid : string) :
  Dict.keys (grid_values grid) = firstn (String.length grid) boxes /\
  forall i b c,
    nth_error boxes i = Some b -> String.get i grid = Some c ->
    Dict.get b (grid_values grid)
    = Some (if Str.has_char c "123456789" then Str.chr c else "123456789").
Proof.
  split; [apply keys_grid_values_any|].
  rewrite grid_values_items.
  - intros i b c Hb Hc.
    rewrite (@GridFacts.get_combine boxes (Str.chars grid) i b (Str.chr c)
               Topology.boxes_NoDup Hb (@GridFacts.get_chars i grid c Hc)).
    unfold cell. rewrite StrFacts.substring_chr. reflexivity.
Qed.

Lemma grid_values_spec_witness :
  Dict.keys (grid_values "5.") = ["A1"; "A2"] /\
  Dict.get "A1" (grid_values "5.") = Some "5" /\
  Dict.get "A2" (grid_values "5.") = Some "123456789".
Proof.
  destruct (grid_values_spec "5.") as [K H].
  split; [exact K|]. split.
  - exact (H 0 "A1" "5"%char eq_refl eq_refl).
  - exact (H 1 "A2" "."%char eq_refl eq_refl).
Defined.

Lemma combine_app_long {X Y} (l : list X) (l1 l2 : list Y) :
  List.length l <= List.length l1 -> combine l (l1 ++ l2) = combine l l1.
Proof.
  revert l1. induction l as [|x l IH]; intros [|y l1] H; simpl in *;
    try reflexivity; try lia.
  f_equal. apply IH. lia.
Qed.

(** X3: Characters after the 81st are ignored: [solve] treats a longer
    string as its first 81 characters. *)
Theorem solve_ignores_tail (grid extra : string) (fuel : nat)
        (Hlen : String.length grid = 81) :
  grid_values (grid ++ extra) = grid_values grid /\
  solve fuel (grid ++ extra) = solve fuel grid.
Proof.
  assert (H : grid_values (grid ++ extra) = grid_values grid).
  { rewrite !grid_values_items, chars_app, combine_app_long; [reflexivity|].
    rewrite StrFacts.chars_length, Topology.boxes_length.
    unfold Str.len. lia. }
  split; [exact H|]. unfold solve. rewrite H. reflexivity.
Qed.

Lemma solve_ignores_tail_witness :
  String.length clashing_grid = 81 /\
  solve 82 (clashing_grid ++ "123") = solve 82 clashing_grid.
Proof.
  split; [reflexivity|].
  exact (proj2 (@solve_ignores_tail clashing_grid "123" 82 eq_refl)).
Defined.

(** ** The peers table *)

Lemma peer_test_all :
  forallb (fun b => forallb (peer_test b) boxes) boxes = true.
Proof. vm_compute. reflexivity. Qed.

Lemma peers_counted_ok : peers_counted = true.
Proof. vm_compute. reflexivity. Qed.

Lemma shares_unit_spec (b p : string) :
  shares_unit b p = true <-> exists u, In u units /\ In b u /\ In p u.
Proof.
  unfold shares_unit. rewrite existsb_exists. split.
  - intros (u & Hu & H). apply andb_true_iff in H.
    exists u. rewrite <- !Topology.mem_In. tauto.
  - intros (u & Hu & Hb & Hp). exists u. split; [exact Hu|].
    apply andb_true_iff. rewrite !Topology.mem_In. tauto.
Qed.

(** X4: The peers of a box are exactly the other boxes that share a unit with
    it, each listed once: 20 of them, and 6 more for each diagonal the
    box lies on.  The relation is symmetric, and no box is its own
    peer. *)
Theorem peers_spec (b : string) (Hb : In b boxes) :
  assoc b box_peers = Some (peers b) /\
  NoDup (peers b) /\
  List.length (peers b) = 20 + 6 * count_in b diagonal_units /\
  ~ In b (peers b) /\
  (forall p, In p (peers b) <->
             In p boxes /\ p <> b /\
             exists u, In u units /\ In b u /\ In p u) /\
  (forall p, In p (peers b) -> In b (peers p)).
Proof.
  destruct (Topology.box_peers_entry Hb) as [Hentry Hin].
  pose proof peers_counted_ok as Hc. unfold peers_counted in Hc.
  rewrite forallb_forall in Hc. specialize (Hc b Hb).
  apply andb_true_iff in Hc. destruct Hc as [Hnd Hlen].
  assert (Hchar : forall x p, In x boxes -> In p boxes ->
            (In p (peers x) <-> p <> x /\ shares_unit x p = true)).
  { intros x p Hx Hp. pose proof peer_test_all as H.
    rewrite forallb_forall in H.
    specialize (H x Hx). rewrite forallb_forall in H. specialize (H p Hp).
    unfold peer_test in H. apply Bool.eqb_prop in H. rewrite <- Topology.mem_In, H.
    rewrite andb_true_iff, negb_true_iff, String.eqb_neq. tauto. }
  split; [exact Hentry|]. split; [now apply Topology.nodupb_NoDup|].
  split; [now apply Nat.eqb_eq|].
  split; [intros H; now apply (proj2 (Hin b H))|].
  split.
  - intros p. split.
    + intros Hp. destruct (Hin p Hp) as [Hpb Hne].
      split; [exact Hpb|]. split; [exact Hne|].
      apply shares_unit_spec. now apply (Hchar b p Hb Hpb).
    + intros (Hpb & Hne & Hu). apply (Hchar b p Hb Hpb).
      split; [exact Hne | now apply shares_unit_spec].
  - intros p Hp. destruct (Hin p Hp) as [Hpb Hne].
    apply (Hchar p b Hpb Hb). split; [congruence|].
    apply shares_unit_spec.
    destruct (proj1 (shares_unit_spec b p)
                (proj2 (proj1 (Hchar b p Hb Hpb) Hp))) as (u & Hu & H1 & H2).
    exists u. auto.
Qed.

Lemma peers_spec_witness :
  In "A1" boxes /\ List.length (peers "A1") = 26 /\ In "A1" (peers "I9").
Proof.
  assert (Hb : In "A1" boxes) by (vm_compute; tauto).
  destruct (peers_spec Hb) as (_ & _ & Hlen & _ & _ & Hsym).
  split; [exact Hb|]. split; [exact Hlen|].
  apply Hsym. vm_compute. tauto.
Defined.

(** ** What [eliminate] achieves *)

(** X5: When [eliminate] returns the map of a candidate map, the keys and
    their order are unchanged, every box that held a single digit still
    holds it, and that digit has been struck from every peer of the
    box. *)
Theorem eliminate_strikes (d d' : pydict)
        (Hd : candidate_map d)
        (E : eliminate d = Ok (RValues, d')) :
  Dict.keys (entries d') = Dict.keys (entries d) /\
  forall b c, lookup d b = Some (Str.chr c) ->
    lookup d' b = Some (Str.chr c) /\
    forall p, In p (peers b) ->
      exists v, lookup d' p = Some v /\ Str.has_char c v = false.
Proof.
  destruct (eliminate_spec Hd) as (r & d2 & E2 & R & P).
  rewrite E in E2. injection E2 as <- <-.
  split; [apply R|]. intros b c Hb.
  split; [eapply refines_single; eauto|].
  intros p Hp.
  assert (Hbb : In b boxes).
  { apply (proj2 Hd). apply lookup_key. eauto. }
  destruct (Topology.box_peers_entry Hbb) as [_ Hin].
  destruct (candidate_map_lookup (refines_candidate_map R Hd)
              (proj1 (Hin p Hp))) as [v Hv].
  exists v. split; [exact Hv|]. exact (P eq_refl b c p v Hb Hp Hv).
Qed.

Lemma eliminate_strikes_witness :
  exists d',
    eliminate (VisualizibleDict.init (grid_values diag_sudoku_grid))
    = Ok (RValues, d') /\
    lookup d' "A1" = Some "2" /\
    exists v, lookup d' "A2" = Some v /\ Str.has_char "2" v = false.
Proof.
  assert (Hlen : 81 <= String.length diag_sudoku_grid) by (vm_compute; lia).
  pose proof (proj1 (@solve_start diag_sudoku_grid Hlen)) as Hd.
  destruct (eliminate (VisualizibleDict.init (grid_values diag_sudoku_grid)))
    as [[[|] d']|e] eqn:E.
  - exfalso. revert E. vm_compute. discriminate.
  - destruct (@eliminate_strikes _ _ Hd E) as [_ H].
    destruct (H "A1" "2"%char eq_refl) as [H1 H2].
    exists d'. split; [reflexivity|]. split; [exact H1|].
    apply H2. vm_compute. tauto.
  - exfalso. revert E. vm_compute. discriminate.
Defined.

Lemma eliminate_clash (d : pydict) (b p : string) (c : ascii) :
  candidate_map d ->
  lookup d b = Some (Str.chr c) -> lookup d p = Some (Str.chr c) ->
  In p (peers b) ->
  exists d', eliminate d = Ok (RFalse, d').
Proof.
  intros Hd Hb Hp Hpeer.
  destruct (eliminate_spec Hd) as (r & d' & E & R & P).
  exists d'. destruct r; [exact E|]. exfalso.
  pose proof (@refines_single _ _ _ _ R Hp) as Hp'.
  pose proof (P eq_refl b c p _ Hb Hpeer Hp') as Hlack.
  simpl in Hlack. rewrite Ascii.eqb_refl in Hlack. discriminate.
Qed.

Lemma reduce_pass_clash (d d' : pydict) :
  eliminate d = Ok (RFalse, d') -> reduce_pass d = Ok (EliminateFailed, d').
Proof.
  intros E. unfold reduce_pass, bind, get_solved_count. rewrite E.
  reflexivity.
Qed.

(** X6: Two peers holding the same single digit are caught at once:
    [eliminate] returns [False], so does [reduce_puzzle] after that one
    call, and [search] returns [False] without branching. *)
Theorem eliminate_detects_clash (d : pydict) (b p : string) (c : ascii)
        (fuel : nat)
        (Hd : candidate_map d)
        (Hb : lookup d b = Some (Str.chr c))
        (Hp : lookup d p = Some (Str.chr c))
        (Hpeer : In p (peers b)) :
  exists d',
    eliminate d = Ok (RFalse, d') /\
    reduce_puzzle d = Some (Ok (RFalse, d')) /\
    search (S fuel) d = Some (Ok SFalse).
Proof.
  destruct (@eliminate_clash d b p c Hd Hb Hp Hpeer) as [d' E].
  pose proof (@reduce_pass_clash d d' E) as Hpass.
  assert (Hred : reduce_puzzle d = Some (Ok (RFalse, d'))).
  { unfold reduce_puzzle. cbn [reduce_puzzle_loop]. rewrite Hpass.
    reflexivity. }
  exists d'. split; [exact E|]. split; [exact Hred|].
  cbn [search]. rewrite Hred. reflexivity.
Qed.

Lemma eliminate_detects_clash_witness :
  exists d',
    eliminate (VisualizibleDict.init (grid_values clashing_grid))
    = Ok (RFalse, d').
Proof.
  assert (Hlen : 81 <= String.length clashing_grid) by (vm_compute; lia).
  assert (H1 : lookup (VisualizibleDict.init (grid_values clashing_grid)) "A1"
               = Some (Str.chr "1")) by (vm_compute; reflexivity).
  assert (H2 : lookup (VisualizibleDict.init (grid_values clashing_grid)) "A2"
               = Some (Str.chr "1")) by (vm_compute; reflexivity).
  assert (Hp : In "A2" (peers "A1")) by (vm_compute; tauto).
  destruct (@eliminate_detects_clash _ "A1" "A2" "1"%char 0
              (proj1 (@solve_start clashing_grid Hlen)) H1 H2 Hp)
    as (d' & E & _).
  exists d'. exact E.
Defined.

(** X7: A grid that gives the same digit to two boxes of one unit is
    rejected by the first pass of the reduction at the root: [solve]
    returns [False], whatever the depth bound. *)
Theorem solve_rejects_repeated_given
        (grid : string) (u : list string) (b1 b2 : string) (c : ascii)
        (fuel : nat)
        (Hlen : String.length grid = 81)
        (Hu : In u units) (H1 : In b1 u) (H2 : In b2 u) (Hne : b1 <> b2)
        (G1 : given grid b1 c) (G2 : given grid b2 c) :
  solve (S fuel) grid = Some (Ok SFalse).
Proof.
  assert (Hlen' : 81 <= String.length grid) by lia.
  destruct (@solve_start grid Hlen') as (Hd & _ & _).
  set (d := VisualizibleDict.init (grid_values grid)) in *.
  destruct (@eliminate_clash d b1 b2 c Hd
              (@GridFacts.given_grid_values grid b1 c Hlen' G1)
              (@GridFacts.given_grid_values grid b2 c Hlen' G2)
              (Topology.unit_mates Hu H1 H2 Hne)) as [d' E].
  unfold solve. fold d. cbn [search]. unfold reduce_puzzle.
  cbn [reduce_puzzle_loop]. rewrite (@reduce_pass_clash d d' E). reflexivity.
Qed.

Lemma solve_rejects_repeated_given_witness :
  solve 1 clashing_grid = Some (Ok SFalse).
Proof.
  apply (@solve_rejects_repeated_given clashing_grid (cross "A" cols)
           "A1" "A2" "1"%char 0 eq_refl).
  - vm_compute. tauto.
  - vm_compute. tauto.
  - vm_compute. tauto.
  - discriminate.
  - exists 0. repeat split; reflexivity.
  - exists 1. repeat split; reflexivity.
Defined.

(** ** What [reduce_puzzle] keeps *)

(** X8: On a candidate map [reduce_puzzle] raises nothing; whether it returns
    [False] or the map, the keys and their order are as before, no box
    has gained a character or grown, a box that held a single character
    still holds it, and a box is empty only if it was empty before. *)
Theorem reduce_puzzle_narrows (d : pydict) (Hd : candidate_map d) :
  exists r d',
    reduce_puzzle d = Some (Ok (r, d')) /\
    Dict.keys (entries d') = Dict.keys (entries d) /\
    forall b v, lookup d b = Some v ->
      exists v', lookup d' b = Some v' /\
                 Str.len v' <= Str.len v /\
                 Str.subset v' v = true /\
                 (Str.len v = 1 -> v' = v) /\
                 (v' = "" -> v = "").
Proof.
  destruct (reduce_puzzle_spec Hd) as (r & d' & E & R & _).
  exists r, d'. split; [exact E|]. exact R.
Qed.

Lemma reduce_puzzle_narrows_witness :
  exists r d',
    reduce_puzzle (VisualizibleDict.init (grid_values bottom_row_grid))
    = Some (Ok (r, d')) /\
    Dict.keys (entries d') = boxes.
Proof.
  assert (Hlen : 81 <= String.length bottom_row_grid) by (vm_compute; lia).
  destruct (@reduce_puzzle_narrows _ (proj1 (@solve_start bottom_row_grid Hlen)))
    as (r & d' & E & K & _).
  exists r, d'. split; [exact E|]. rewrite K.
  exact (@GridFacts.keys_grid_values bottom_row_grid Hlen).
Defined.

(** ** [solve] as a whole *)

(** X10: A dictionary returned by [solve] on an 81-character grid completes
    the puzzle: every box holds one digit 1 to 9, every given digit is
    where the grid put it, and no unit holds a digit twice. *)
Theorem solve_success_completes (grid : string) (fuel : nat) (m : pydict)
        (Hlen : String.length grid = 81)
        (E : solve fuel grid = Some (Ok (SDict m))) :
  (forall b, In b boxes -> lookup m b = Some (Str.chr (digit_at m b))) /\
  solves grid (digit_at m).
Proof.
  assert (Hlen' : 81 <= String.length grid) by lia.
  destruct (@solve_start grid Hlen') as (Hd & Hne & _).
  pose proof (@search_result fuel _ (SDict m) Hd Hne E) as P.
  split.
  - intros b Hb. destruct P as (_ & Ha & _). destruct (Ha b Hb) as [c Hc].
    unfold digit_at. rewrite Hc. reflexivity.
  - apply success_solves; assumption.
Qed.

Lemma solve_success_completes_witness :
  exists m, solve 82 diag_sudoku_grid = Some (Ok (SDict m)) /\
            solves diag_sudoku_grid (digit_at m).
Proof.
  eexists. split.
  - vm_compute. reflexivity.
  - refine (proj2 (@solve_success_completes diag_sudoku_grid 82 _ eq_refl _)).
    vm_compute. reflexivity.
Defined.

(** ** A solved map goes through unchanged *)

Lemma all_singleb_spec (d : pydict) :
  candidate_map d -> all_singleb d = true -> all_single d.
Proof.
  intros Hd H b Hb. unfold all_singleb in H. rewrite forallb_forall in H.
  specialize (H b Hb). apply Nat.eqb_eq in H.
  destruct (candidate_map_lookup Hd Hb) as [v Hv].
  rewrite (candidates_lookup _ _ Hv) in H.
  apply StrFacts.len_one in H. destruct H as [c ->]. eauto.
Qed.

Lemma consistentb_spec (d : pydict) :
  consistentb d = true -> consistent d.
Proof.
  intros H b p c Hb Hp Hbc Hpc. unfold consistentb in H.
  rewrite forallb_forall in H. specialize (H b Hb).
  rewrite forallb_forall in H. specialize (H p Hp).
  rewrite (candidates_lookup _ _ Hbc), (candidates_lookup _ _ Hpc) in H.
  rewrite String.eqb_refl in H. discriminate.
Qed.

Unset Implicit Arguments.

Section SolvedMap.

Variable d : pydict.
Hypothesis Hd : candidate_map d.
Hypothesis Ha : all_single d.
Hypothesis Hc : consistent d.

Lemma eliminate_solved : eliminate d = Ok (RValues, d).
Proof using Hd Ha Hc.
  unfold eliminate, bind, get_keys.
  rewrite (@for_fixed _ retv eliminate_box (Dict.keys (entries d)) d);
    [reflexivity|].
  intros box Hbox. apply (proj2 Hd) in Hbox.
  destruct (Ha box Hbox) as [c Hv].
  unfold eliminate_box, bind. rewrite (getitem_ok _ _ Hv).
  cbn [Str.len Str.chr String.length Nat.eqb].
  destruct (Topology.box_peers_entry Hbox) as [Hentry Hin].
  unfold const_getitem. rewrite Hentry. unfold ret at 1.
  apply for_fixed. intros p Hp.
  destruct (Ha p (proj1 (Hin p Hp))) as [c' Hv'].
  destruct (eliminate_peer_spec d c p Hv')
    as [[He _]|[_ (d1 & E & _ & L1 & _)]].
  - exfalso. simpl in He. destruct (Ascii.eqb_spec c' c) as [->|Hne].
    + exact (Hc box p c Hbox Hp Hv Hv').
    + discriminate.
  - unfold eliminate_peer, bind. rewrite (getitem_ok _ _ Hv').
    rewrite StrFacts.replace_chr.
    assert (Hsame : Str.remove_char c (Str.chr c') = Str.chr c').
    { apply StrFacts.remove_absent. simpl.
      destruct (Ascii.eqb_spec c' c) as [->|Hne]; [|reflexivity].
      exfalso. exact (Hc box p c Hbox Hp Hv Hv'). }
    rewrite Hsame. cbn [Str.chr String.eqb].
    rewrite (setitem_same _ _ Hv'). reflexivity.
Qed.

Lemma only_choice_solved : only_choice d = Ok (RValues, d).
Proof using Hd Ha.
  unfold only_choice, bind.
  rewrite (@for_fixed _ retv
             (fun unit => for_ (Str.chars "123456789") (only_choice_digit unit))
             units d); [reflexivity|].
  intros u Hu. apply for_fixed. intros digit Hdigit.
  apply StrFacts.chars_chr in Hdigit. destruct Hdigit as [c [-> _]].
  destruct (Topology.unit_shape Hu) as (_ & _ & Hub).
  unfold only_choice_digit, bind.
  rewrite (digit_boxes_spec d c u)
    by (intros b Hb; apply (proj2 Hd); apply Hub; exact Hb).
  destruct (listing d c u) as [|box [|box' l]] eqn:Hl; try reflexivity.
  assert (Hin : In box (listing d c u)) by (rewrite Hl; now left).
  apply filter_In in Hin. destruct Hin as [Hbox Hlist].
  destruct (Ha box (Hub box Hbox)) as [c' Hv]. rewrite Hv in Hlist.
  apply StrFacts.has_char_chr in Hlist. subst c'.
  rewrite (setitem_same _ _ Hv). reflexivity.
Qed.

Lemma reduce_pass_solved : reduce_pass d = Ok (Stalled, d).
Proof using Hd Ha Hc.
  unfold reduce_pass, bind, get_solved_count.
  rewrite eliminate_solved, (candidate_map_truthy Hd). cbn [negb].
  rewrite only_choice_solved, (candidate_map_truthy Hd). cbn [negb].
  unfold ret. rewrite Nat.eqb_refl. reflexivity.
Qed.

End SolvedMap.

Set Implicit Arguments.

(** X11: A candidate map in which every box holds one character and no two
    peers hold the same goes through [eliminate], [only_choice],
    [reduce_puzzle] and [search] unchanged: each returns the very same
    object, entries and history, and [search] does not branch. *)
Theorem solved_map_unchanged (d : pydict) (fuel : nat)
        (Hd : candidate_map d) (Ha : all_single d) (Hc : consistent d) :
  eliminate d = Ok (RValues, d) /\
  only_choice d = Ok (RValues, d) /\
  reduce_puzzle d = Some (Ok (RValues, d)) /\
  search (S fuel) d = Some (Ok (SDict d)).
Proof.
  assert (Hr : reduce_puzzle d = Some (Ok (RValues, d))).
  { unfold reduce_puzzle. cbn [reduce_puzzle_loop].
    rewrite (reduce_pass_solved d Hd Ha Hc). reflexivity. }
  split; [exact (eliminate_solved d Hd Ha Hc)|].
  split; [exact (only_choice_solved d Hd Ha)|].
  split; [exact Hr|].
  cbn [search]. rewrite Hr, (candidate_map_truthy Hd). cbn [negb].
  destruct (any_unsolved_spec boxes d) as (r & E & _ & T);
    [intros b Hb; now apply (proj2 Hd)|].
  rewrite E. destruct r; [|reflexivity]. exfalso.
  destruct (T eq_refl) as (b & Hb & Hlen). destruct (Ha b Hb) as [c Hv].
  rewrite (candidates_lookup _ _ Hv) in Hlen. now apply Hlen.
Qed.

Lemma solved_map_unchanged_witness :
  solve 1 solved_diag_grid
  = Some (Ok (SDict (VisualizibleDict.init (grid_values solved_diag_grid)))).
Proof.
  assert (Hlen : 81 <= String.length solved_diag_grid) by (vm_compute; lia).
  pose proof (proj1 (@solve_start solved_diag_grid Hlen)) as Hd.
  assert (Ha : all_single (VisualizibleDict.init (grid_values solved_diag_grid)))
    by (apply (all_singleb_spec Hd); vm_compute; reflexivity).
  assert (Hc : consistent (VisualizibleDict.init (grid_values solved_diag_grid)))
    by (apply consistentb_spec; vm_compute; reflexivity).
  exact (proj2 (proj2 (proj2 (@solved_map_unchanged _ 0 Hd Ha Hc)))).
Defined.

(** ** The branching box, in general *)

(** X12: On a candidate map [choose_box] leaves the map alone and yields the
    first box, in the order of [boxes], that has more than one
    candidate, whatever the numbers of candidates; when no box has more
    than one candidate, [min] is applied to an empty sequence and
    [ValueError] is raised. *)
Theorem choose_box_spec (d : pydict) (Hd : candidate_map d) :
  match unsolved d boxes with
  | [] => choose_box d = Raise ValueError
  | b :: _ => choose_box d = Ok (b, d)
  end.
Proof.
  destruct (unsolved d boxes) as [|b rest] eqn:Hu.
  - unfold choose_box, bind.
    rewrite unsolved_tuples_spec by (intros x Hx; now apply (proj2 Hd)).
    rewrite Hu. reflexivity.
  - unfold choose_box, bind.
    rewrite unsolved_tuples_spec by (intros x Hx; now apply (proj2 Hd)).
    rewrite Hu. cbn [map]. unfold py_min, ret.
    rewrite fold_min_head; [reflexivity|].
    intros y Hy. apply in_map_iff in Hy. destruct Hy as [b' [<- Hb']].
    apply tuple_ltb_after. cbn [fst].
    exact (increasing_filter _ boxes boxes_increasing Hu b' Hb').
Qed.

Lemma choose_box_spec_witness :
  choose_box (VisualizibleDict.init (grid_values solved_diag_grid))
  = Raise ValueError /\
  choose_box (VisualizibleDict.init (grid_values diag_sudoku_grid))
  = Ok ("A2", VisualizibleDict.init (grid_values diag_sudoku_grid)).
Proof.
  assert (H1 : 81 <= String.length solved_diag_grid) by (vm_compute; lia).
  assert (H2 : 81 <= String.length diag_sudoku_grid) by (vm_compute; lia).
  split.
  - exact (@choose_box_spec _ (proj1 (@solve_start solved_diag_grid H1))).
  - exact (@choose_box_spec _ (proj1 (@solve_start diag_sudoku_grid H2))).
Defined.

(** ** Naked twins only strikes candidates *)

Lemma shrinks_refl (v : string) : shrinks v v.
Proof. split; [lia | apply StrFacts.subset_refl]. Qed.

Lemma shrinks_trans (a b c : string) : shrinks a b -> shrinks b c -> shrinks a c.
Proof.
  intros [H1 H2] [K1 K2]. split; [lia|]. eapply StrFacts.subset_trans; eauto.
Qed.

Lemma shrinks_remove (c : ascii) (v : string) : shrinks (Str.remove_char c v) v.
Proof. split; [apply StrFacts.len_remove | apply StrFacts.subset_remove]. Qed.

Lemma contracts_refl (d : pydict) : contracts d d.
Proof.
  split; [reflexivity|]. intros b v H. exists v. split; [exact H|].
  apply shrinks_refl.
Qed.

Lemma contracts_trans (d2 d1 d0 : pydict) :
  contracts d2 d1 -> contracts d1 d0 -> contracts d2 d0.
Proof.
  intros [K2 H2] [K1 H1]. split; [congruence|].
  intros b v Hv. destruct (H1 b v Hv) as [v1 [Hv1 N1]].
  destruct (H2 b v1 Hv1) as [v2 [Hv2 N2]].
  exists v2. split; [exact Hv2|]. eapply shrinks_trans; eauto.
Qed.

Lemma contracts_candidate_map (d' d : pydict) :
  contracts d' d -> candidate_map d -> candidate_map d'.
Proof.
  intros [K _] [Hnd Hk]. unfold candidate_map. rewrite K. auto.
Qed.

Lemma setitem_shrinks (d : pydict) (b v old : string) :
  lookup d b = Some old -> shrinks v old ->
  exists d', setitem b v d = Ok (tt, d') /\ contracts d' d.
Proof.
  intros Hold Hs. destruct (setitem_ok d b v Hold) as [d' (E & He & _)].
  exists d'. split; [exact E|]. unfold contracts, lookup in *. rewrite He.
  split.
  - apply DictFacts.keys_set. apply DictFacts.get_in_keys. eauto.
  - intros b0 v0 Hv0. destruct (String.eqb_spec b b0) as [<-|Hne].
    + rewrite DictFacts.get_set_same. exists v. split; [reflexivity|].
      congruence.
    + rewrite DictFacts.get_set_other by assumption.
      exists v0. split; [assumption | apply shrinks_refl].
Qed.

Lemma for_contracts {X R} (body : X -> M (ctl R)) (xs : list X) :
  (forall x d, In x xs -> candidate_map d ->
     exists d', body x d = Ok (Next, d') /\ contracts d' d) ->
  forall d, candidate_map d ->
    exists d', for_ xs body d = Ok (Next, d') /\ contracts d' d.
Proof.
  exact (@for_preorder contracts contracts_refl contracts_trans
           contracts_candidate_map X R body xs).
Qed.

Lemma strike_twins_spec (d : pydict) (p0 p1 : ascii) (box : string) :
  In box (Dict.keys (entries d)) ->
  exists d', strike_twins (String p0 (String p1 "")) box d = Ok (Next, d') /\
             contracts d' d.
Proof.
  intros Hbox. apply lookup_key in Hbox. destruct Hbox as [v Hv].
  unfold strike_twins, bind, index. rewrite (getitem_ok _ _ Hv).
  cbn [String.get]. unfold ret at 1. unfold ret at 1.
  rewrite !StrFacts.replace_chr.
  destruct (@setitem_shrinks d box
              (Str.remove_char p1 (Str.remove_char p0 v)) v Hv)
    as (d' & E & C).
  { eapply shrinks_trans; apply shrinks_remove. }
  exists d'. rewrite E. auto.
Qed.

Lemma twins_pair_spec (d : pydict) (unit : list string) (box1 box2 : string) :
  candidate_map d -> In unit units -> In box1 unit -> In box2 unit ->
  exists d', twins_pair unit box1 box2 d = Ok (Next, d') /\ contracts d' d.
Proof.
  intros Hd Hu H1 H2. destruct (Topology.unit_shape Hu) as (_ & _ & Hub).
  assert (Hsame : exists d', ret (@Next retv) d = Ok (Next, d') /\ contracts d' d).
  { exists d. split; [reflexivity | apply contracts_refl]. }
  unfold twins_pair. destruct (String.ltb box1 box2); [|exact Hsame].
  destruct (candidate_map_lookup Hd (Hub _ H1)) as [v1 Hv1].
  destruct (candidate_map_lookup Hd (Hub _ H2)) as [v2 Hv2].
  unfold bind at 1. rewrite (getitem_ok _ _ Hv1).
  destruct (Str.len v1 =? 2) eqn:Hlen; [|exact Hsame].
  unfold bind at 1. rewrite (getitem_ok _ _ Hv1).
  unfold bind at 1. rewrite (getitem_ok _ _ Hv2).
  destruct (Str.set_eqb v1 v2); [|exact Hsame].
  unfold bind at 1. rewrite (getitem_ok _ _ Hv1).
  apply Nat.eqb_eq in Hlen. destruct (len_two _ Hlen) as (p0 & p1 & ->).
  apply for_contracts; [|exact Hd].
  intros box e Hbox He. apply strike_twins_spec.
  apply filter_In in Hbox. apply (proj2 He). apply Hub. apply Hbox.
Qed.

(** X13: On a candidate map [naked_twins] raises nothing and returns the map;
    the keys and their order are unchanged and every box holds what it
    held before with some characters struck: it is no longer and has no
    new character.  (Nothing stops it from striking the last character
    of a box.) *)
Theorem naked_twins_contracts (d : pydict) (Hd : candidate_map d) :
  exists d',
    naked_twins d = Ok (RValues, d') /\
    Dict.keys (entries d') = Dict.keys (entries d) /\
    forall b v, lookup d b = Some v ->
      exists v', lookup d' b = Some v' /\
                 Str.len v' <= Str.len v /\ Str.subset v' v = true.
Proof.
  unfold naked_twins, bind.
  destruct (@for_contracts _ retv twins_unit units) with (d := d)
    as [d' [E C]]; [|exact Hd|].
  - intros u e Hu He. unfold twins_unit.
    apply for_contracts; [|exact He]. intros box1 e1 H1 He1.
    apply for_contracts; [|exact He1]. intros box2 e2 H2 He2.
    apply twins_pair_spec; assumption.
  - exists d'. rewrite E. split; [reflexivity|]. exact C.
Qed.

Lemma naked_twins_contracts_witness :
  exists d',
    naked_twins twins_map = Ok (RValues, d') /\
    Dict.keys (entries d') = Dict.keys (entries twins_map).
Proof.
  destruct (naked_twins_contracts twins_map_candidate_map) as (d' & E & K & _).
  exists d'. split; [exact E | exact K].
Defined.

(** ** What every normal return keeps, on any dictionary *)

Section Keeps.

(** A reflexive, transitive relation kept by a write to an existing
    key. *)
Variable rel : pydict -> pydict -> Prop.
Hypothesis rel_refl : forall d, rel d d.
Hypothesis rel_trans : forall d2 d1 d0, rel d2 d1 -> rel d1 d0 -> rel d2 d0.
Hypothesis rel_write :
  forall d b v old d',
    lookup d b = Some old -> setitem b v d = Ok (tt, d') -> rel d' d.

Lemma keeps_ret {A} (a : A) : keeps rel (ret a).
Proof using rel_refl. intros d x d' [= _ <-]. apply rel_refl. Qed.

Lemma keeps_bind {A B} (m : M A) (k : A -> M B) :
  keeps rel m -> (forall a, keeps rel (k a)) -> keeps rel (bind m k).
Proof using rel_trans.
  intros Hm Hk d b d' E. unfold bind in E.
  destruct (m d) as [[a d1]|e] eqn:Em; [|discriminate].
  eapply rel_trans; [eapply Hk; eauto | eapply Hm; eauto].
Qed.

Lemma keeps_for {X R} (body : X -> M (ctl R)) (xs : list X) :
  (forall x, keeps rel (body x)) -> keeps rel (for_ xs body).
Proof using rel_refl rel_trans.
  intros Hb. induction xs as [|x xs IH]; cbn [for_].
  - apply keeps_ret.
  - apply keeps_bind; [apply Hb|]. intros [|r]; [exact IH | apply keeps_ret].
Qed.

Lemma keeps_getitem (b : string) : keeps rel (getitem b).
Proof using rel_refl.
  intros d v d' E. unfold getitem in E.
  destruct (Dict.get b (entries d)); [|discriminate].
  injection E as _ <-. apply rel_refl.
Qed.

Lemma keeps_filter_m {X} (p : X -> M bool) (xs : list X) :
  (forall x, keeps rel (p x)) -> keeps rel (filter_m p xs).
Proof using rel_refl rel_trans.
  intros Hp. induction xs as [|x xs IH]; cbn [filter_m].
  - apply keeps_ret.
  - apply keeps_bind; [apply Hp|]. intros b.
    apply keeps_bind; [exact IH|]. intros l. apply keeps_ret.
Qed.

Lemma keeps_eliminate_peer (bv peer : string) :
  keeps rel (eliminate_peer bv peer).
Proof using rel_refl rel_write.
  intros d c d' E. unfold eliminate_peer, bind in E.
  unfold getitem in E at 1. fold (lookup d peer) in E.
  destruct (lookup d peer) as [v|] eqn:Hv; [|discriminate].
  destruct (String.eqb (Str.replace_empty v bv) "").
  - injection E as _ <-. apply rel_refl.
  - destruct (setitem peer (Str.replace_empty v bv) d) as [[[] d1]|e] eqn:Es;
      [|discriminate].
    injection E as _ <-. eapply rel_write; eauto.
Qed.

Lemma keeps_eliminate : keeps rel eliminate.
Proof using rel_refl rel_trans rel_write.
  unfold eliminate. apply keeps_bind.
  - intros d ks d' [= _ <-]. apply rel_refl.
  - intros ks. apply keeps_bind.
    + apply keeps_for. intros box. unfold eliminate_box.
      apply keeps_bind; [apply keeps_getitem|]. intros bv.
      destruct (Str.len bv =? 1); [|apply keeps_ret].
      apply keeps_bind.
      * unfold const_getitem. destruct (assoc box box_peers).
        { apply keeps_ret. } { intros d x d' E. discriminate E. }
      * intros ps. apply keeps_for. intros peer. apply keeps_eliminate_peer.
    + intros [|r]; apply keeps_ret.
Qed.

(** A list comprehension that reads [values[box]] for every box of the
    unit returns only if every box has an entry. *)
Lemma digit_boxes_read (unit : list string) (digit : string)
      (d d' : pydict) (l : list string) :
  digit_boxes_of unit digit d = Ok (l, d') ->
  d' = d /\ (forall x, In x unit -> exists v, lookup d x = Some v) /\
  incl l unit.
Proof.
  unfold digit_boxes_of, bind. revert l d'.
  induction unit as [|b unit IH]; intros l d' E; cbn [filter_m] in E.
  - injection E as <- <-. split; [reflexivity|]. split; [intros x []|].
    intros x [].
  - unfold bind in E. unfold getitem in E at 1. fold (lookup d b) in E.
    destruct (lookup d b) as [v|] eqn:Hv; [|discriminate].
    unfold ret in E at 1.
    match type of E with
    | context [filter_m ?p unit d] =>
        destruct (filter_m p unit d) as [[l1 d1]|e] eqn:El; [|discriminate]
    end.
    destruct (IH l1 d1 eq_refl) as (-> & Hall & Hincl).
    unfold ret in E. injection E as <- <-.
    split; [reflexivity|]. split.
    + intros x [<-|Hx]; eauto.
    + destruct (Str.substring_of digit v).
      * intros x [<-|Hx]; [now left | right; now apply Hincl].
      * intros x Hx. right. now apply Hincl.
Qed.

Lemma keeps_only_choice_digit (unit : list string) (digit : string) :
  keeps rel (only_choice_digit unit digit).
Proof using rel_refl rel_write.
  intros d c d' E. unfold only_choice_digit, bind in E.
  destruct (digit_boxes_of unit digit d) as [[l d1]|e] eqn:El; [|discriminate].
  destruct (digit_boxes_read _ _ _ El) as (-> & Hall & Hincl).
  destruct l as [|box [|box' l]]; try (injection E as _ <-; apply rel_refl).
  destruct (setitem box digit d) as [[[] d2]|e] eqn:Es; [|discriminate].
  injection E as _ <-.
  destruct (Hall box (Hincl box (or_introl eq_refl))) as [v Hv].
  eapply rel_write; eauto.
Qed.

Lemma keeps_only_choice : keeps rel only_choice.
Proof using rel_refl rel_trans rel_write.
  unfold only_choice. apply keeps_bind; [|intros; apply keeps_ret].
  apply keeps_for. intros u. apply keeps_for. intros digit.
  apply keeps_only_choice_digit.
Qed.

Lemma keeps_strike_twins (prohibited box : string) :
  keeps rel (strike_twins prohibited box).
Proof using rel_refl rel_write.
  intros d c d' E. unfold strike_twins, bind in E.
  unfold getitem in E at 1. fold (lookup d box) in E.
  destruct (lookup d box) as [v|] eqn:Hv; [|discriminate].
  unfold index in E.
  destruct (String.get 0 prohibited) as [p0|]; [|discriminate].
  unfold ret in E at 1.
  destruct (String.get 1 prohibited) as [p1|]; [|discriminate].
  unfold ret in E at 1.
  match type of E with
  | context [setitem box ?w d] =>
      destruct (setitem box w d) as [[[] d1]|e] eqn:Es; [|discriminate]
  end.
  injection E as _ <-. eapply rel_write; eauto.
Qed.

Lemma keeps_naked_twins : keeps rel naked_twins.
Proof using rel_refl rel_trans rel_write.
  unfold naked_twins. apply keeps_bind; [|intros; apply keeps_ret].
  apply keeps_for. intros u. unfold twins_unit.
  apply keeps_for. intros box1. apply keeps_for. intros box2.
  unfold twins_pair. destruct (String.ltb box1 box2); [|apply keeps_ret].
  apply keeps_bind; [apply keeps_getitem|]. intros v1.
  destruct (Str.len v1 =? 2); [|apply keeps_ret].
  apply keeps_bind; [apply keeps_getitem|]. intros v1'.
  apply keeps_bind; [apply keeps_getitem|]. intros v2.
  destruct (Str.set_eqb v1' v2); [|apply keeps_ret].
  apply keeps_bind; [apply keeps_getitem|]. intros prohibited.
  apply keeps_for. intros box. apply keeps_strike_twins.
Qed.

Lemma keeps_reduce_pass : keeps rel reduce_pass.
Proof using rel_refl rel_trans rel_write.
  intros d p d' E. unfold reduce_pass, bind, get_solved_count in E.
  destruct (eliminate d) as [[r d1]|e] eqn:E1; [|discriminate].
  pose proof (keeps_eliminate _ E1) as R1.
  destruct (negb (truthy r d1)); [injection E as _ <-; exact R1|].
  destruct (only_choice d1) as [[r' d2]|e] eqn:E2; [|discriminate].
  pose proof (keeps_only_choice _ E2) as R2.
  assert (R : rel d2 d) by (eapply rel_trans; eauto).
  destruct (negb (truthy r' d2)); [injection E as _ <-; exact R|].
  unfold ret in E. injection E as _ <-. exact R.
Qed.

Lemma keeps_reduce_puzzle_loop (fuel : nat) :
  forall d r d',
    reduce_puzzle_loop fuel d = Some (Ok (r, d')) -> rel d' d.
Proof using rel_refl rel_trans rel_write.
  induction fuel as [|fuel IH]; intros d r d' E; [discriminate|].
  cbn [reduce_puzzle_loop] in E.
  destruct (reduce_pass d) as [[p d1]|e] eqn:Ep; [|discriminate].
  pose proof (keeps_reduce_pass _ Ep) as R1.
  destruct p; try (injection E as _ <-; exact R1).
  eapply rel_trans; [eapply IH; eauto | exact R1].
Qed.

End Keeps.

Lemma history_extends_refl (d : pydict) : history_extends d d.
Proof.
  unfold history_extends. destruct (assignments d) as [h|]; [|exact I].
  exists []. now rewrite app_nil_r.
Qed.

Lemma history_extends_trans (d2 d1 d0 : pydict) :
  history_extends d2 d1 -> history_extends d1 d0 -> history_extends d2 d0.
Proof.
  unfold history_extends.
  destruct (assignments d0) as [h0|], (assignments d1) as [h1|],
    (assignments d2) as [h2|]; try tauto.
  intros [l2 ->] [l1 ->]. exists (l1 ++ l2). now rewrite app_assoc.
Qed.

(** A write, to any key, leaves a plain [dict] plain and leaves the
    history of a [VisualizibleDict] as it is or one snapshot longer. *)
Lemma setitem_history (b v : string) : keeps history_extends (setitem b v).
Proof.
  intros d u d' E. unfold setitem, VisualizibleDict.setitem in E.
  unfold history_extends. destruct (assignments d) as [h|].
  - destruct (Dict.get b (entries d)) as [cur|]; [|discriminate].
    destruct (String.eqb cur v).
    + injection E as _ <-. simpl. exists []. now rewrite app_nil_r.
    + destruct (Str.len v =? 1); injection E as _ <-; simpl.
      * eauto.
      * exists []. now rewrite app_nil_r.
  - injection E as _ <-. exact I.
Qed.

Lemma same_keys_write (d : pydict) (b v old : string) (d' : pydict) :
  lookup d b = Some old -> setitem b v d = Ok (tt, d') -> same_keys d' d.
Proof.
  intros Hold E. destruct (setitem_ok d b v Hold) as (d2 & E2 & He & _).
  rewrite E in E2. injection E2 as <-. unfold same_keys. rewrite He.
  apply DictFacts.keys_set. apply DictFacts.get_in_keys. eauto.
Qed.

Lemma same_keys_trans (d2 d1 d0 : pydict) :
  same_keys d2 d1 -> same_keys d1 d0 -> same_keys d2 d0.
Proof. unfold same_keys. congruence. Qed.

(** X14: On any dictionary whatever, a strategy or the reduction loop that
    returns normally has added and removed no key and kept their order,
    has left a plain [dict] plain, and has only appended snapshots to the
    history of a [VisualizibleDict]. *)
Theorem strategies_keep_keys_and_history (d d' : pydict) (r : retv)
        (E : eliminate d = Ok (r, d') \/ only_choice d = Ok (r, d') \/
             naked_twins d = Ok (r, d') \/
             reduce_puzzle d = Some (Ok (r, d'))) :
  Dict.keys (entries d') = Dict.keys (entries d) /\
  match assignments d, assignments d' with
  | None, None => True
  | Some h, Some h' => exists l, h' = h ++ l
  | _, _ => False
  end.
Proof.
  assert (Hw : forall e b v old e',
             lookup e b = Some old -> setitem b v e = Ok (tt, e') ->
             history_extends e' e).
  { intros e b v old e' _ Es. exact (@setitem_history _ _ _ _ _ Es). }
  assert (Hr : forall e : pydict, same_keys e e) by reflexivity.
  destruct E as [E|[E|[E|E]]]; split.
  - exact (@keeps_eliminate same_keys Hr same_keys_trans same_keys_write _ _ _ E).
  - exact (@keeps_eliminate history_extends history_extends_refl
             history_extends_trans Hw _ _ _ E).
  - exact (@keeps_only_choice same_keys Hr same_keys_trans same_keys_write _ _ _ E).
  - exact (@keeps_only_choice history_extends history_extends_refl
             history_extends_trans Hw _ _ _ E).
  - exact (@keeps_naked_twins same_keys Hr same_keys_trans same_keys_write _ _ _ E).
  - exact (@keeps_naked_twins history_extends history_extends_refl
             history_extends_trans Hw _ _ _ E).
  - exact (@keeps_reduce_puzzle_loop same_keys Hr same_keys_trans
             same_keys_write _ _ _ _ E).
  - exact (@keeps_reduce_puzzle_loop history_extends history_extends_refl
             history_extends_trans Hw _ _ _ _ E).
Qed.

Lemma strategies_keep_keys_and_history_witness :
  exists d',
    reduce_puzzle (VisualizibleDict.init (grid_values diag_sudoku_grid))
    = Some (Ok (RValues, d')) /\
    Dict.keys (entries d') = boxes /\
    exists l, assignments d' = Some l.
Proof.
  destruct (reduce_puzzle (VisualizibleDict.init (grid_values diag_sudoku_grid)))
    as [[[[|] d']|e]|] eqn:E; try (exfalso; revert E; vm_compute; discriminate).
  exists d'. split; [reflexivity|].
  destruct (@strategies_keep_keys_and_history _ d' RValues
              (or_intror (or_intror (or_intror E)))) as [K H].
  split.
  - rewrite K. vm_compute. reflexivity.
  - simpl in H. destruct (assignments d') as [h'|]; [|contradiction].
    destruct H as [l ->]. eauto.
Defined.

(** ** The class of the dictionary [search] returns *)

Lemma any_unsolved_state (bs : list string) (d d' : pydict) (r : bool) :
  any_unsolved bs d = Ok (r, d') -> d' = d.
Proof.
  induction bs as [|b bs IH]; cbn [any_unsolved].
  - now intros [= _ <-].
  - unfold bind. unfold getitem at 1.
    destruct (Dict.get b (entries d)) as [v|]; [|discriminate].
    destruct (negb (Str.len v =? 1)); [now intros [= _ <-] | exact IH].
Qed.

Lemma plain_kept (d' d : pydict) : history_extends d' d -> plain d -> plain d'.
Proof.
  unfold history_extends, plain. intros H Hd. rewrite Hd in H.
  destruct (assignments d'); [contradiction | reflexivity].
Qed.

(** X15: [search] returns either the very object it was given, as
    [reduce_puzzle] left it, or the dictionary of a branch, and that one
    is a plain [dict]: a copy made by [values.copy()] has no
    [assignments].  So the result of [solve] is a [VisualizibleDict] with
    a history only when the puzzle was solved without branching. *)
Theorem search_result_class (fuel : nat) :
  forall d m,
    search fuel d = Some (Ok (SDict m)) ->
    reduce_puzzle d = Some (Ok (RValues, m)) \/ assignments m = None.
Proof.
  assert (Hw : forall e b v old e',
             lookup e b = Some old -> setitem b v e = Ok (tt, e') ->
             history_extends e' e).
  { intros e b v old e' _ Es. exact (@setitem_history _ _ _ _ _ Es). }
  induction fuel as [|fuel IH]; intros d m E; [discriminate|].
  cbn [search] in E.
  destruct (reduce_puzzle d) as [[[r d1]|e]|] eqn:Er; try discriminate.
  destruct r; cbn [truthy negb] in E; [discriminate|].
  destruct (match entries d1 with [] => false | _ :: _ => true end);
    cbn [negb] in E; [|discriminate].
  destruct (any_unsolved boxes d1) as [[[|] d2]|e] eqn:Eu; try discriminate.
  - right.
    destruct ((box <- choose_box;; v <- getitem box;; ret (box, v)) d2)
      as [[[box v] d3]|e]; [|discriminate].
    revert E. generalize (Str.chars v). intros vs.
    induction vs as [|value vs IHvs]; cbn [search_children]; [discriminate|].
    destruct (setitem box value (copy d3)) as [[u child]|e] eqn:Es;
      [|discriminate].
    assert (Hchild : plain child).
    { apply (@plain_kept child (copy d3) (@setitem_history _ _ _ _ _ Es)).
      reflexivity. }
    destruct (search fuel child) as [[attempt|e]|] eqn:Ec; try discriminate.
    destruct (sresult_truthy attempt); [|exact IHvs].
    intros [= ->]. destruct (IH _ _ Ec) as [Hred|Hplain]; [|exact Hplain].
    apply (@plain_kept m child
             (@keeps_reduce_puzzle_loop history_extends history_extends_refl
                history_extends_trans Hw _ _ _ _ Hred)).
    exact Hchild.
  - left. injection E as <-. now rewrite (any_unsolved_state _ _ Eu).
Qed.

Lemma search_result_class_witness :
  search 82 (VisualizibleDict.init (grid_values bottom_row_grid))
  = Some (Ok (SDict bottom_row_solution)) /\
  (reduce_puzzle (VisualizibleDict.init (grid_values bottom_row_grid))
   = Some (Ok (RValues, bottom_row_solution)) \/
   assignments bottom_row_solution = None).
Proof.
  assert (E : search 82 (VisualizibleDict.init (grid_values bottom_row_grid))
              = Some (Ok (SDict bottom_row_solution)))
    by (vm_compute; reflexivity).
  split; [exact E|]. exact (@search_result_class 82 _ _ E).
Defined.

(** ** Grids shorter than 81 characters *)

Section RaisesKey.

Lemma raises_key_ret {A} (a : A) : raises_key (ret a).
Proof. intros d e E. discriminate E. Qed.

Lemma raises_key_bind {A B} (m : M A) (k : A -> M B) :
  raises_key m -> (forall a, raises_key (k a)) -> raises_key (bind m k).
Proof.
  intros Hm Hk d e E. unfold bind in E.
  destruct (m d) as [[a d1]|e1] eqn:Em.
  - eapply Hk; eauto.
  - injection E as <-. eapply Hm; eauto.
Qed.

Lemma raises_key_for {X R} (body : X -> M (ctl R)) (xs : list X) :
  (forall x, raises_key (body x)) -> raises_key (for_ xs body).
Proof.
  intros Hb. induction xs as [|x xs IH]; cbn [for_].
  - apply raises_key_ret.
  - apply raises_key_bind; [apply Hb|].
    intros [|r]; [exact IH | apply raises_key_ret].
Qed.

Lemma raises_key_filter_m {X} (p : X -> M bool) (xs : list X) :
  (forall x, raises_key (p x)) -> raises_key (filter_m p xs).
Proof.
  intros Hp. induction xs as [|x xs IH]; cbn [filter_m].
  - apply raises_key_ret.
  - apply raises_key_bind; [apply Hp|]. intros b.
    apply raises_key_bind; [exact IH|]. intros l. apply raises_key_ret.
Qed.

Lemma raises_key_getitem (b : string) : raises_key (getitem b).
Proof.
  intros d e E. unfold getitem in E.
  destruct (Dict.get b (entries d)); [discriminate|].
  injection E as <-. eauto.
Qed.

Lemma raises_key_setitem (b v : string) : raises_key (setitem b v).
Proof.
  intros d e E. unfold setitem, VisualizibleDict.setitem in E.
  destruct (assignments d); [|discriminate].
  destruct (Dict.get b (entries d)) as [cur|].
  - destruct (String.eqb cur v); [discriminate|].
    destruct (Str.len v =? 1); discriminate.
  - injection E as <-. eauto.
Qed.

Lemma raises_key_eliminate : raises_key eliminate.
Proof.
  unfold eliminate. apply raises_key_bind.
  - intros d e E. discriminate E.
  - intros ks. apply raises_key_bind.
    + apply raises_key_for. intros box. unfold eliminate_box.
      apply raises_key_bind; [apply raises_key_getitem|]. intros bv.
      destruct (Str.len bv =? 1); [|apply raises_key_ret].
      apply raises_key_bind.
      * unfold const_getitem. destruct (assoc box box_peers).
        { apply raises_key_ret. }
        { intros d e E. injection E as <-. eauto. }
      * intros ps. apply raises_key_for. intros peer. unfold eliminate_peer.
        apply raises_key_bind; [apply raises_key_getitem|]. intros v.
        cbv zeta. destruct (String.eqb (Str.replace_empty v bv) "").
        { apply raises_key_ret. }
        { apply raises_key_bind; [apply raises_key_setitem|].
          intros u. apply raises_key_ret. }
    + intros [|r]; apply raises_key_ret.
Qed.

Lemma raises_key_only_choice : raises_key only_choice.
Proof.
  unfold only_choice. apply raises_key_bind; [|intros; apply raises_key_ret].
  apply raises_key_for. intros u. apply raises_key_for. intros digit.
  unfold only_choice_digit. apply raises_key_bind.
  - unfold digit_boxes_of. apply raises_key_filter_m. intros box.
    apply raises_key_bind; [apply raises_key_getitem|].
    intros v. apply raises_key_ret.
  - intros [|box [|box' l]]; try apply raises_key_ret.
    apply raises_key_bind; [apply raises_key_setitem|].
    intros u0. apply raises_key_ret.
Qed.

End RaisesKey.

Lemma in_some_unit_all : forallb in_some_unit boxes = true.
Proof. vm_compute. reflexivity. Qed.

Lemma box_in_unit (b : string) :
  In b boxes -> exists u, In u units /\ In b u.
Proof.
  intros Hb. pose proof in_some_unit_all as H. rewrite forallb_forall in H.
  specialize (H b Hb). unfold in_some_unit in H. apply existsb_exists in H.
  destruct H as (u & Hu & Hm). exists u. split; [exact Hu|].
  now apply Topology.mem_In.
Qed.

Lemma same_keys_missing (d' d : pydict) (b : string) :
  same_keys d' d -> lookup d b = None -> lookup d' b = None.
Proof.
  intros K Hn. destruct (lookup d' b) as [v|] eqn:Hv; [|reflexivity].
  assert (Hin : In b (Dict.keys (entries d))).
  { rewrite <- K. apply lookup_key. eauto. }
  apply lookup_key in Hin. destruct Hin as [w Hw]. congruence.
Qed.

Section MissingBox.

(** A box without an entry. *)
Variable b : string.
Hypothesis Hb : In b boxes.

Lemma only_choice_digit_next (unit : list string) (digit : string)
      (d d' : pydict) (c : ctl retv) :
  only_choice_digit unit digit d = Ok (c, d') -> c = Next.
Proof.
  unfold only_choice_digit, bind.
  destruct (digit_boxes_of unit digit d) as [[l d1]|e]; [|discriminate].
  destruct l as [|box [|box' l]]; try (now intros [= <- _]).
  destruct (setitem box digit d1) as [[u d2]|e]; [|discriminate].
  now intros [= <- _].
Qed.

Lemma for_next {X} (body : X -> M (ctl retv)) (xs : list X) :
  (forall x d c d', body x d = Ok (c, d') -> c = Next) ->
  forall d c d', for_ xs body d = Ok (c, d') -> c = Next.
Proof.
  intros Hb'. induction xs as [|x xs IH]; intros d c d'; cbn [for_].
  - now intros [= <- _].
  - unfold bind. destruct (body x d) as [[c1 d1]|e] eqn:E1; [|discriminate].
    rewrite (Hb' _ _ _ _ E1). apply IH.
Qed.

(** The digits of a unit that contains the box cannot be gone through:
    the first list comprehension already reads the missing entry. *)
Lemma unit_digits_missing (unit : list string) (d : pydict) :
  In b unit -> lookup d b = None ->
  exists e, for_ (Str.chars "123456789") (only_choice_digit unit) d = Raise e.
Proof using Type.
  intros Hin Hn. cbn [Str.chars for_]. unfold bind at 1.
  unfold only_choice_digit at 1. unfold bind at 1.
  destruct (digit_boxes_of unit (Str.chr "1") d) as [[l d1]|e] eqn:El.
  - exfalso. destruct (digit_boxes_read _ _ _ El) as (_ & Hall & _).
    destruct (Hall b Hin) as [v Hv]. congruence.
  - eauto.
Qed.

Lemma units_missing (us : list (list string)) :
  forall d,
    lookup d b = None -> (exists u, In u us /\ In b u) ->
    exists e,
      for_ us (fun unit => for_ (Str.chars "123456789")
                                (only_choice_digit unit)) d = Raise e.
Proof using Type.
  induction us as [|u us IH]; intros d Hn (u0 & Hu0 & Hbu); [destruct Hu0|].
  cbn [for_]. unfold bind.
  destruct (for_ (Str.chars "123456789") (only_choice_digit u) d)
    as [[c d1]|e] eqn:Eu; [|eauto].
  assert (Hc : c = Next).
  { revert Eu. apply for_next. intros x e k e'. apply only_choice_digit_next. }
  subst c.
  assert (K : same_keys d1 d).
  { revert Eu.
    apply (@keeps_for same_keys (fun e => eq_refl) same_keys_trans).
    intros digit.
    apply (@keeps_only_choice_digit same_keys (fun e => eq_refl)
             same_keys_write). }
  destruct Hu0 as [<-|Hu0].
  - destruct (unit_digits_missing u d Hbu Hn) as [e He]. congruence.
  - apply IH; [exact (@same_keys_missing d1 d b K Hn) | eauto].
Qed.

Lemma only_choice_missing (d : pydict) :
  lookup d b = None -> exists e, only_choice d = Raise e.
Proof using Hb.
  intros Hn. unfold only_choice, bind.
  destruct (units_missing units d Hn (box_in_unit Hb)) as [e He].
  rewrite He. eauto.
Qed.

(** With a box missing, a pass of the reduction raises or ends in the
    failure branch that follows [eliminate]. *)
Lemma reduce_pass_missing (d : pydict) :
  lookup d b = None ->
  (exists d', reduce_pass d = Ok (EliminateFailed, d')) \/
  (exists k, reduce_pass d = Raise (KeyError k)).
Proof using Hb.
  intros Hn. unfold reduce_pass, bind, get_solved_count.
  destruct (eliminate d) as [[r d1]|e] eqn:E1.
  - destruct (negb (truthy r d1)); [left; eauto|]. right.
    assert (K : same_keys d1 d).
    { exact (@keeps_eliminate same_keys (fun e => eq_refl) same_keys_trans
               same_keys_write _ _ _ E1). }
    destruct (only_choice_missing d1 (@same_keys_missing d1 d b K Hn)) as [e He].
    rewrite He. destruct (raises_key_only_choice _ He) as [k ->]. eauto.
  - right. destruct (raises_key_eliminate _ E1) as [k ->]. eauto.
Qed.

Lemma search_missing (d : pydict) (fuel : nat) :
  lookup d b = None ->
  search (S fuel) d = Some (Ok SFalse) \/
  exists k, search (S fuel) d = Some (Raise (KeyError k)).
Proof using Hb.
  intros Hn. cbn [search]. unfold reduce_puzzle. cbn [reduce_puzzle_loop].
  destruct (reduce_pass_missing d Hn) as [[d' E]|[k E]]; rewrite E.
  - left. reflexivity.
  - right. eauto.
Qed.

End MissingBox.

Lemma nth_not_in_firstn {X} (l : list X) :
  forall n x, NoDup l -> nth_error l n = Some x -> ~ In x (firstn n l).
Proof.
  induction l as [|y l IH]; intros [|n] x Hnd Hx; simpl in *;
    try discriminate; try tauto.
  inversion Hnd as [|? ? Hnotin Hnd']; subst.
  intros [->|Hin].
  - apply Hnotin. eapply nth_error_In; eauto.
  - exact (IH n x Hnd' Hx Hin).
Qed.

(** X16: A grid shorter than 81 characters leaves boxes without an entry, and
    nothing checks for that: [solve] then returns [False] or raises
    [KeyError], and never returns a dictionary or [None].  On the empty
    string it returns [False], because [eliminate] returns the empty
    dictionary, which is falsy. *)
Theorem solve_short_grid (grid : string) (fuel : nat)
        (Hlen : String.length grid < 81) :
  (solve (S fuel) grid = Some (Ok SFalse) \/
   exists k, solve (S fuel) grid = Some (Raise (KeyError k))) /\
  (grid = "" -> solve (S fuel) grid = Some (Ok SFalse)).
Proof.
  split.
  - destruct (nth_error boxes (String.length grid)) as [b|] eqn:Hnth.
    + assert (Hb : In b boxes) by (eapply nth_error_In; eauto).
      unfold solve. apply (search_missing Hb).
      unfold lookup. cbn [entries VisualizibleDict.init].
      destruct (Dict.get b (grid_values grid)) as [v|] eqn:Hv; [|reflexivity].
      exfalso.
      apply (@nth_not_in_firstn _ boxes (String.length grid) b
               Topology.boxes_NoDup Hnth).
      rewrite <- (keys_grid_values_any grid).
      apply DictFacts.get_in_keys. eauto.
    + apply nth_error_None in Hnth. rewrite Topology.boxes_length in Hnth. lia.
  - intros ->. reflexivity.
Qed.

Lemma solve_short_grid_witness :
  String.length "12" < 81 /\
  exists k, solve 1 "12" = Some (Raise (KeyError k)).
Proof.
  assert (H : String.length "12" < 81) by (vm_compute; lia).
  split; [exact H|].
  destruct (proj1 (@solve_short_grid "12" 0 H)) as [E|E]; [|exact E].
  exfalso. revert E. vm_compute. discriminate.
Defined.

(** ** What [display] prints *)

Lemma length_app_str (s t : string) :
  String.length (s ++ t) = String.length s + String.length t.
Proof. induction s as [|a s IH]; simpl; [reflexivity | now rewrite IH]. Qed.

Lemma length_repeat_str (c : string) (n : nat) :
  String.length (repeat_str c n) = n * String.length c.
Proof.
  induction n as [|n IH]; simpl; [reflexivity|].
  rewrite length_app_str, IH. reflexivity.
Qed.

(** A string shorter than the width is centred to exactly the width. *)
Lemma length_center (s : string) (width : nat) :
  Str.len s <= width -> String.length (center s width) = width.
Proof.
  unfold center, Str.len. intros Hle.
  destruct (width <=? String.length s) eqn:Hw.
  - apply Nat.leb_le in Hw. lia.
  - apply Nat.leb_gt in Hw. cbv zeta.
    rewrite !length_app_str, !length_repeat_str. cbn [String.length].
    set (marg := width - String.length s).
    pose proof (Nat.div_mod_eq marg 2) as Hdm.
    pose proof (Nat.mod_upper_bound marg 2 ltac:(discriminate)) as Hm.
    assert (Hleft : marg / 2
                    + (if Nat.odd marg && Nat.odd width then 1 else 0)
                    <= marg).
    { destruct (Nat.odd marg) eqn:Ho; cbn [andb].
      - apply Nat.odd_spec in Ho. destruct Ho as [k Hk].
        destruct (Nat.odd width); lia.
      - lia. }
    subst marg. lia.
Qed.

Lemma length_concat_cells (l : list string) :
  String.length (String.concat "" l)
  = list_sum (map String.length l).
Proof.
  induction l as [|x l IH]; [reflexivity|].
  cbn [map list_sum fold_right]. fold (list_sum (map String.length l)).
  rewrite <- IH. destruct l as [|y l].
  - cbn [String.concat String.length]. lia.
  - change (String.concat "" (x :: y :: l))
      with (x ++ "" ++ String.concat "" (y :: l))%string.
    rewrite length_app_str. reflexivity.
Qed.

Lemma map_m_read {X Y} (f : X -> M Y) (g : X -> Y) (xs : list X)
      (d : pydict) :
  (forall x, In x xs -> f x d = Ok (g x, d)) ->
  map_m f xs d = Ok (map g xs, d).
Proof.
  induction xs as [|x xs IH]; intros H; cbn [map_m map]; [reflexivity|].
  unfold bind. rewrite (H x (or_introl eq_refl)).
  rewrite IH by (intros y Hy; apply H; now right). reflexivity.
Qed.

Lemma fold_max_ge (l : list nat) :
  forall x, x <= fold_left Nat.max l x /\
            forall y, In y l -> y <= fold_left Nat.max l x.
Proof.
  induction l as [|z l IH]; intros x; cbn [fold_left].
  - split; [lia | intros y []].
  - destruct (IH (Nat.max x z)) as [H1 H2]. split; [lia|].
    intros y [<-|Hy]; [lia | auto].
Qed.

Lemma fold_max_in (l : list nat) :
  forall x, In (fold_left Nat.max l x) (x :: l).
Proof.
  induction l as [|z l IH]; intros x; cbn [fold_left]; [now left|].
  destruct (IH (Nat.max x z)) as [H|H]; [|right; now right].
  rewrite <- H. destruct (Nat.max_spec x z) as [[_ ->]|[_ ->]].
  - right. now left.
  - now left.
Qed.

Lemma row_box (r c : string) :
  In r (Str.chars rows) -> In c (Str.chars cols) -> In (r ++ c)%string boxes.
Proof.
  intros Hr Hc. unfold boxes, cross. apply in_flat_map. exists r.
  split; [exact Hr|]. apply in_map_iff. exists c. auto.
Qed.

(** The width is one more than the longest candidate string. *)
Lemma display_width_spec (d : pydict) :
  candidate_map d ->
  exists w,
    display_width d = Ok (w, d) /\
    (forall b, In b boxes -> Str.len (candidates d b) < w) /\
    (exists b, In b boxes /\ w = 1 + Str.len (candidates d b)).
Proof.
  intros Hd. unfold display_width, bind.
  rewrite (@map_m_read _ _ _ (fun s => Str.len (candidates d s)) boxes d).
  - destruct boxes as [|b0 bs] eqn:Hboxes; [discriminate|].
    cbn [map py_min py_max]. unfold ret.
    eexists. split; [reflexivity|].
    destruct (fold_max_ge (map (fun s => Str.len (candidates d s)) bs)
                (Str.len (candidates d b0))) as [H1 H2].
    split.
    + intros b [<-|Hb]; [lia|].
      assert (Hin : In (Str.len (candidates d b))
                       (map (fun s => Str.len (candidates d s)) bs))
        by (apply in_map_iff; eauto).
      specialize (H2 _ Hin). lia.
    + destruct (fold_max_in (map (fun s => Str.len (candidates d s)) bs)
                  (Str.len (candidates d b0))) as [H|H].
      * exists b0. split; [now left|]. now rewrite <- H.
      * apply in_map_iff in H. destruct H as (b & Hb & Hin).
        exists b. split; [now right|]. now rewrite Hb.
  - intros s Hs. destruct (candidate_map_lookup Hd Hs) as [v Hv].
    rewrite (getitem_ok _ _ Hv), (candidates_lookup _ _ Hv). reflexivity.
Qed.

Lemma display_row_spec (d : pydict) (r : string) (w : nat) :
  candidate_map d -> In r (Str.chars rows) ->
  (forall b, In b boxes -> Str.len (candidates d b) < w) ->
  exists text,
    display_row r w d = Ok (text, d) /\ String.length text = 9 * w + 2.
Proof.
  intros Hd Hr Hw. unfold display_row, bind.
  rewrite (@map_m_read _ _ _
             (fun c => (center (candidates d (r ++ c)) w
                        ++ (if Str.substring_of c "36" then "|" else ""))%string)
             (Str.chars cols) d).
  - eexists. split; [reflexivity|].
    rewrite length_concat_cells, map_map.
    rewrite (map_ext_in _
               (fun c => w + String.length
                               (if Str.substring_of c "36" then "|" else ""))).
    + cbn. lia.
    + intros c Hc. rewrite length_app_str, length_center; [reflexivity|].
      specialize (Hw _ (@row_box r c Hr Hc)). lia.
  - intros c Hc.
    destruct (candidate_map_lookup Hd (@row_box r c Hr Hc)) as [v Hv].
    rewrite (getitem_ok _ _ Hv), (candidates_lookup _ _ Hv). reflexivity.
Qed.

Lemma length_display_line (w : nat) :
  String.length (display_line w) = 9 * w + 2.
Proof.
  unfold display_line. cbn [repeat String.concat].
  rewrite !length_app_str, !length_repeat_str. cbn [String.length]. lia.
Qed.

Lemma display_rows_spec (d : pydict) (w : nat) (line : string)
      (rs : list string) :
  candidate_map d -> incl rs (Str.chars rows) ->
  (forall b, In b boxes -> Str.len (candidates d b) < w) ->
  String.length line = 9 * w + 2 ->
  exists lines,
    display_rows rs w line d = (lines, Ok tt) /\
    List.length lines
    = List.length rs
      + List.length (filter (fun r => Str.substring_of r "CF") rs) /\
    forall l, In l lines -> String.length l = 9 * w + 2.
Proof.
  intros Hd Hrs Hw Hline. induction rs as [|r rs IH]; cbn [display_rows].
  - exists []. split; [reflexivity|]. split; [reflexivity | intros l []].
  - destruct (@display_row_spec d r w Hd (Hrs r (or_introl eq_refl)) Hw)
      as (text & E & Hlen).
    rewrite E.
    destruct IH as (lines & E' & Hn & Hall);
      [intros x Hx; apply Hrs; now right|].
    rewrite E'. eexists. split; [reflexivity|].
    cbn [filter List.length app].
    destruct (Str.substring_of r "CF"); cbn [app List.length]; split.
    + rewrite Hn. lia.
    + intros l [<-|[<-|Hl]]; auto.
    + rewrite Hn. lia.
    + intros l [<-|Hl]; auto.
Qed.

(** X17: On a candidate map [display] returns without raising.  It
    prints 11 lines, the 9 rows and a separator after rows
    C and F, all of the same length [9 * width + 2], where [width] is one
    more than the length of the longest candidate string. *)
Theorem display_shape (d : pydict) (Hd : candidate_map d) :
  exists lines width,
    display d = (lines, Ok tt) /\
    List.length lines = 11 /\
    (forall b, In b boxes -> Str.len (candidates d b) < width) /\
    (exists b, In b boxes /\ width = 1 + Str.len (candidates d b)) /\
    forall l, In l lines -> String.length l = 9 * width + 2.
Proof.
  destruct (display_width_spec Hd) as (w & E & Hw & Hmax).
  destruct (@display_rows_spec d w (display_line w) (Str.chars rows) Hd
              (fun x Hx => Hx) Hw (length_display_line w))
    as (lines & E' & Hn & Hall).
  exists lines, w. unfold display. rewrite E, E'.
  split; [reflexivity|]. split; [exact Hn|]. auto.
Qed.

Lemma display_shape_witness :
  exists lines,
    display (VisualizibleDict.init (grid_values solved_diag_grid))
    = (lines, Ok tt) /\
    List.length lines = 11.
Proof.
  assert (Hlen : 81 <= String.length solved_diag_grid) by (vm_compute; lia).
  destruct (@display_shape _ (proj1 (@solve_start solved_diag_grid Hlen)))
    as (lines & w & E & Hn & _).
  exists lines. split; [exact E | exact Hn].
Defined.

Lemma map_m_missing (f : string -> string -> nat) (bs : list string)
      (d : pydict) (b : string) :
  In b bs -> lookup d b = None ->
  exists k,
    map_m (fun s => v <- getitem s ;; ret (f s v)) bs d = Raise (KeyError k).
Proof.
  intros Hin Hn. induction bs as [|x bs IH]; [destruct Hin|].
  cbn [map_m]. unfold bind at 1. unfold bind at 1. unfold getitem at 1.
  fold (lookup d x). destruct (lookup d x) as [v|] eqn:Hv.
  - unfold ret at 1. unfold bind at 1.
    destruct Hin as [->|Hin]; [congruence|].
    destruct (IH Hin) as [k Hk]. rewrite Hk. eauto.
  - eauto.
Qed.

(** X18: When some box has no entry, [display] raises [KeyError] while it
    computes the width, before anything is printed. *)
Theorem display_missing_box (d : pydict) (b : string)
        (Hb : In b boxes) (Hn : lookup d b = None) :
  exists k, display d = ([], Raise (KeyError k)).
Proof.
  unfold display, display_width. unfold bind at 1.
  destruct (@map_m_missing (fun _ v => Str.len v) boxes d b Hb Hn) as [k Hk].
  rewrite Hk. eauto.
Qed.

Lemma display_missing_box_witness :
  exists k, display (VisualizibleDict.init (grid_values "12"))
            = ([], Raise (KeyError k)).
Proof.
  apply (@display_missing_box _ "A3").
  - vm_compute. tauto.
  - vm_compute. reflexivity.
Defined.

(** ** [search] on candidate maps *)

(** X9: On a candidate map without empty boxes, with a depth bound of 82 or
    more, [search] returns without raising.  A dictionary it returns,
    with any bound, has the keys of the map given, holds in every box
    one of the candidates that box had, and has no two peers alike. *)
Theorem search_on_candidate_map (d : pydict)
        (Hd : candidate_map d) (Hne : nonempty d) :
  (forall fuel, 82 <= fuel -> exists r, search fuel d = Some (Ok r)) /\
  (forall fuel m,
     search fuel d = Some (Ok (SDict m)) ->
     Dict.keys (entries m) = Dict.keys (entries d) /\
     (forall b v, lookup d b = Some v ->
        exists c, lookup m b = Some (Str.chr c) /\ Str.has_char c v = true) /\
     (forall b p, In b boxes -> In p (peers b) -> lookup m b <> lookup m p)).
Proof.
  split.
  - intros fuel Hfuel.
    destruct (@search_spec 82 d Hd Hne) as (r & E & _).
    { pose proof (DictFacts.solved_count_le (entries d)). lia. }
    exists r. exact (@search_more 82 d _ E fuel Hfuel).
  - intros fuel m E.
    destruct (@search_result fuel d (SDict m) Hd Hne E) as (R & Ha & Hc).
    split; [apply R|]. split.
    + intros b v Hv. destruct (proj2 R b v Hv) as (v' & Hv' & _ & Hs & _).
      assert (Hb : In b boxes).
      { apply (proj2 Hd). apply lookup_key. eauto. }
      destruct (Ha b Hb) as [c Hc'].
      exists c. split; [exact Hc'|]. rewrite Hv' in Hc'. injection Hc' as ->.
      now rewrite <- StrFacts.subset_chr.
    + intros b p Hb Hp Heq. destruct (Ha b Hb) as [c Hbc].
      apply (Hc b p c Hb Hp Hbc). rewrite <- Heq. exact Hbc.
Qed.

Lemma search_on_candidate_map_witness :
  exists r,
    search 82 (VisualizibleDict.init (grid_values exhausted_grid))
    = Some (Ok r).
Proof.
  assert (Hlen : 81 <= String.length exhausted_grid) by (vm_compute; lia).
  destruct (@solve_start exhausted_grid Hlen) as (Hd & Hne & _).
  exact (proj1 (search_on_candidate_map Hd Hne) 82 (le_n 82)).
Defined.

(** X19: Empty candidate strings are not always caught: when the reduced map
    has a box that is not solved but no box with more than one
    candidate, [min] gets an empty sequence and [search] raises
    [ValueError]. *)
Theorem search_raises_on_empty_boxes (d d1 : pydict) (fuel : nat) (b : string)
        (Hd : candidate_map d)
        (Hred : reduce_puzzle d = Some (Ok (RValues, d1)))
        (Hb : In b boxes) (Hlen : Str.len (candidates d1 b) <> 1)
        (Hnone : unsolved d1 boxes = []) :
  search (S fuel) d = Some (Raise ValueError).
Proof.
  destruct (reduce_puzzle_spec Hd) as (r & d2 & E & R & _).
  rewrite Hred in E. injection E as <- <-.
  pose proof (refines_candidate_map R Hd) as Hd1.
  cbn [search]. rewrite Hred, (candidate_map_truthy Hd1). cbn [negb].
  destruct (any_unsolved_spec boxes d1) as (u & Eu & Fu & _);
    [intros x Hx; now apply (proj2 Hd1)|].
  rewrite Eu. destruct u.
  - assert (Hc : choose_box d1 = Raise ValueError).
    { unfold choose_box, bind.
      rewrite unsolved_tuples_spec by (intros x Hx; now apply (proj2 Hd1)).
      rewrite Hnone. reflexivity. }
    unfold bind at 1. rewrite Hc. reflexivity.
  - exfalso. destruct (Fu eq_refl b Hb) as [c Hc].
    rewrite (candidates_lookup _ _ Hc) in Hlen. now apply Hlen.
Qed.

Lemma search_raises_on_empty_boxes_witness :
  search 1 empty_boxes = Some (Raise ValueError).
Proof.
  assert (Hd : candidate_map empty_boxes).
  { split.
    - apply Topology.nodupb_NoDup. vm_compute. reflexivity.
    - intro b. apply iff_refl. }
  apply (@search_raises_on_empty_boxes empty_boxes empty_boxes 0 "A1" Hd).
  - vm_compute. reflexivity.
  - vm_compute. tauto.
  - vm_compute. discriminate.
  - vm_compute. reflexivity.
Defined.
